(** * Vertex Color Utils: a shallow embedding of [__init__.py]

    The add-on is a set of operators over the host's mesh colour
    attributes.  The embedding keeps the functions of the source under
    their own names.  Python strings are [string]s (attribute names and
    channel codes are ASCII), Python integers are [Z], colour
    components are rationals (the stored floats are dyadic rationals,
    and nothing below depends on rounding of arithmetic: [c*255] is
    exact for a single-precision [c]), vertex coordinates and distances
    are [float]s (a rational, an infinity or nan: the closest-vertex
    search compares them), exceptions are the [Raise] arm of [result],
    and the host state touched by an operator is threaded explicitly. *)

From Stdlib Require Import ZArith QArith Qround Qabs Lqa String Ascii List Bool Lia.
From Stdlib Require DecimalString HexadecimalString.
From stdpp Require Import base list.
Import ListNotations.

Open Scope string_scope.

(** ** Exceptions and results *)

Inductive exn : Type :=
| RuntimeError (msg : string)
| Exception (msg : string)
| KeyError
| IndexError
| AttributeError.

Inductive result (A : Type) : Type :=
| Ok (x : A)
| Raise (e : exn).

Arguments Ok {A} x.
Arguments Raise {A} e.

Definition bind {A B : Type} (m : result A) (k : A -> result B) : result B :=
  match m with
  | Ok x => k x
  | Raise e => Raise e
  end.

Notation "x <- m ;; k" := (bind m (fun x => k))
  (at level 100, m at next level, right associativity).

Definition of_option {A : Type} (e : exn) (o : option A) : result A :=
  match o with
  | Some x => Ok x
  | None => Raise e
  end.

(** ** Python built-ins used by the source *)

Module Py.

(** [str(n)] for a length. *)
Definition str_of_nat (n : nat) : string :=
  DecimalString.NilZero.string_of_uint (Nat.to_uint n).

(** [str(z)] for an integer. *)
Definition str_of_Z (z : Z) : string :=
  DecimalString.NilZero.string_of_int (Z.to_int z).

(** [s.endswith(suffix)] *)
Definition endswith (s suffix : string) : bool :=
  let n := String.length s in
  let k := String.length suffix in
  (k <=? n)%nat && String.eqb (substring (n - k) k s) suffix.

(** [s[:-k]] for a positive literal [k]: empty when [s] is shorter. *)
Definition drop_last (k : nat) (s : string) : string :=
  substring 0 (String.length s - k) s.

(** [s[-k:]] for a positive literal [k]: all of [s] when it is shorter. *)
Definition take_last (k : nat) (s : string) : string :=
  substring (String.length s - k) k s.

(** [c in s] for a one-character [c] and a string [s]. *)
Fixpoint chr_in (c : ascii) (s : string) : bool :=
  match s with
  | EmptyString => false
  | String x rest => Ascii.eqb c x || chr_in c rest
  end.

(** [c in channels] for a set of one-character strings; the list holds
    the members in the order in which iterating the set yields them. *)
Definition in_set (c : ascii) (channels : list ascii) : bool :=
  existsb (Ascii.eqb c) channels.

(** [channels.add(c)] *)
Definition set_add (c : ascii) (channels : list ascii) : list ascii :=
  if in_set c channels then channels else (channels ++ [c])%list.

(** [str.upper()] on one ASCII character. *)
Definition upper_chr (c : ascii) : ascii :=
  let n := nat_of_ascii c in
  if ((97 <=? n) && (n <=? 122))%nat then ascii_of_nat (n - 32) else c.

Fixpoint upper (s : string) : string :=
  match s with
  | EmptyString => EmptyString
  | String c rest => String (upper_chr c) (upper rest)
  end.

(** [l[i]] with Python's reading of a negative index. *)
Definition index {A : Type} (l : list A) (i : Z) : result A :=
  let n := Z.of_nat (length l) in
  if (0 <=? i)%Z then of_option IndexError (l !! Z.to_nat i)
  else if (0 <=? n + i)%Z then of_option IndexError (l !! Z.to_nat (n + i))
  else Raise IndexError.

(** [round(q)]: to the nearest integer, halves to the even one. *)
Definition round (q : Q) : Z :=
  let f := Qfloor q in
  let d := (q - inject_Z f)%Q in
  match (d ?= 1 # 2)%Q with
  | Lt => f
  | Gt => (f + 1)%Z
  | Eq => if Z.even f then f else (f + 1)%Z
  end.

(** [f.is_integer()] *)
Definition is_integer (q : Q) : bool :=
  Qeq_bool q (inject_Z (Qfloor q)).

(** [int(f)]: truncation towards zero. *)
Definition int (q : Q) : Z :=
  if Qle_bool 0 q then Qfloor q else Qceiling q.

End Py.

(** ** Data model: colours and colour attribute layers *)

Record rgba : Type := RGBA { c_r : Q; c_g : Q; c_b : Q; c_a : Q }.

(** [color[k]] for the literal indices the source uses. *)
Definition chan (c : rgba) (k : nat) : Q :=
  match k with
  | 0%nat => c_r c
  | 1%nat => c_g c
  | 2%nat => c_b c
  | _ => c_a c
  end.

(** [color[k] = v] *)
Definition set_chan (c : rgba) (k : nat) (v : Q) : rgba :=
  match k with
  | 0%nat => RGBA v (c_g c) (c_b c) (c_a c)
  | 1%nat => RGBA (c_r c) v (c_b c) (c_a c)
  | 2%nat => RGBA (c_r c) (c_g c) v (c_a c)
  | _ => RGBA (c_r c) (c_g c) (c_b c) v
  end.

Inductive domain : Type :=
| POINT
| CORNER
| OTHER_DOMAIN (name : string).

Inductive data_type : Type :=
| FLOAT_COLOR
| BYTE_COLOR.

Record attribute : Type := Attribute {
  name : string;
  a_data_type : data_type;
  a_domain : domain;
  data : list rgba
}.

(** [mesh.color_attributes]: the layers in the host's order, and the name
    of the active one. *)
Record color_attributes : Type := ColorAttributes {
  attrs : list attribute;
  active_color_name : option string
}.

Module Attrs.

(** [name in color_attrs] *)
Definition contains (nm : string) (l : list attribute) : bool :=
  existsb (fun x => String.eqb (name x) nm) l.

(** [color_attrs[name]] *)
Definition get (nm : string) (l : list attribute) : option attribute :=
  find (fun x => String.eqb (name x) nm) l.

(** Writing through a reference to the layer called [nm]. *)
Fixpoint set_data (nm : string) (d : list rgba) (l : list attribute)
  : list attribute :=
  match l with
  | [] => []
  | x :: rest =>
      if String.eqb (name x) nm
      then Attribute (name x) (a_data_type x) (a_domain x) d :: rest
      else x :: set_data nm d rest
  end.

(** [color_attrs.remove(attr)] *)
Fixpoint remove (nm : string) (l : list attribute) : list attribute :=
  match l with
  | [] => []
  | x :: rest =>
      if String.eqb (name x) nm then rest else x :: remove nm rest
  end.

(** [color_attrs.active_color] *)
Definition active_color (ca : color_attributes) : option attribute :=
  match active_color_name ca with
  | Some nm => get nm (attrs ca)
  | None => None
  end.

End Attrs.

(** ** Colour channel masking *)

Definition make_channel_str (channels : list ascii) : string :=
  if Py.in_set "A" channels then "A"
  else
    let str := if Py.in_set "R" channels then "R" else "" in
    let str := str ++ (if Py.in_set "G" channels then "G" else "") in
    let str := str ++ (if Py.in_set "B" channels then "B" else "") in
    str.

Definition make_channel_set (channel_str : string) : list ascii :=
  let channels := [] in
  let channels := if Py.chr_in "R" channel_str then Py.set_add "R" channels else channels in
  let channels := if Py.chr_in "G" channel_str then Py.set_add "G" channels else channels in
  let channels := if Py.chr_in "B" channel_str then Py.set_add "B" channels else channels in
  let channels := if Py.chr_in "A" channel_str then Py.set_add "A" channels else channels in
  channels.

Definition attr_name_is_mask (nm : string) : bool :=
  Py.endswith nm "__R" ||
  Py.endswith nm "__G" ||
  Py.endswith nm "__B" ||
  Py.endswith nm "__A" ||
  Py.endswith nm "__RG" ||
  Py.endswith nm "__RB" ||
  Py.endswith nm "__GB" ||
  Py.endswith nm "__RGB".

Definition get_mask_name_parts (nm : string) : string * string :=
  if Py.endswith nm "__R" ||
     Py.endswith nm "__G" ||
     Py.endswith nm "__B" ||
     Py.endswith nm "__A"
  then (Py.drop_last 3 nm, Py.take_last 1 nm)
  else if Py.endswith nm "__RG" ||
          Py.endswith nm "__RB" ||
          Py.endswith nm "__GB"
  then (Py.drop_last 4 nm, Py.take_last 2 nm)
  else if Py.endswith nm "__RGB"
  then (Py.drop_last 5 nm, Py.take_last 3 nm)
  else (nm, "").

(** The inner loop of [check_for_conflicting_mask]:
    [for c in channels: if c in attr_channel_str: return ...]. *)
Fixpoint first_shared (channels : list ascii) (attr_channel_str : string)
  : option ascii :=
  match channels with
  | [] => None
  | c :: rest =>
      if Py.chr_in c attr_channel_str then Some c
      else first_shared rest attr_channel_str
  end.

Fixpoint check_for_conflicting_mask (color_attrs : list attribute)
    (base_name : string) (channels : list ascii)
  : option (ascii * attribute) :=
  match color_attrs with
  | [] => None
  | attr :: rest =>
      if attr_name_is_mask (name attr) then
        let '(attr_base, attr_channel_str) := get_mask_name_parts (name attr) in
        if String.eqb attr_base base_name then
          match first_shared channels attr_channel_str with
          | Some c => Some (c, attr)
          | None => check_for_conflicting_mask rest base_name channels
          end
        else check_for_conflicting_mask rest base_name channels
      else check_for_conflicting_mask rest base_name channels
  end.

(** ** The mesh *)

(** A Python float where its special values matter: a number, [inf],
    [-inf] or [nan]. *)
Inductive float : Type :=
| Num (q : Q)
| PosInf
| NegInf
| NaN.

Coercion Num : Q >-> float.
Bind Scope Q_scope with float.

(** [a - b] on floats. *)
Definition fsub (a b : float) : float :=
  match a, b with
  | NaN, _ => NaN
  | _, NaN => NaN
  | Num x, Num y => Num (x - y)
  | Num _, PosInf => NegInf
  | Num _, NegInf => PosInf
  | PosInf, PosInf => NaN
  | PosInf, _ => PosInf
  | NegInf, NegInf => NaN
  | NegInf, _ => NegInf
  end.

(** [a < b] on floats: false as soon as one side is [nan]. *)
Definition flt (a b : float) : bool :=
  match a, b with
  | Num x, Num y => match (x ?= y)%Q with Lt => true | _ => false end
  | Num _, PosInf => true
  | NegInf, Num _ => true
  | NegInf, PosInf => true
  | _, _ => false
  end.

Record vec3 : Type := Vec3 { vx : float; vy : float; vz : float }.

Record polygon : Type := Polygon {
  vertices : list Z;       (* [face.vertices]: mesh vertex indices *)
  loop_indices : list Z    (* [face.loop_indices], aligned with [vertices] *)
}.

Record mesh : Type := Mesh {
  m_vertices : list vec3;  (* [mesh.vertices[k].co] *)
  m_loops : list Z;        (* [mesh.loops[k].vertex_index] *)
  polygons : list polygon;
  color_attrs : color_attributes
}.

Definition with_color_attrs (m : mesh) (ca : color_attributes) : mesh :=
  Mesh (m_vertices m) (m_loops m) (polygons m) ca.

(** Number of elements the host allocates for a layer of a domain. *)
Definition domain_size (m : mesh) (d : domain) : nat :=
  match d with
  | POINT => length (m_vertices m)
  | CORNER => length (m_loops m)
  | OTHER_DOMAIN _ => 0%nat
  end.

(** ** Operator plumbing *)

Inductive status : Type :=
| FINISHED
| CANCELLED
| RUNNING_MODAL
| PASS_THROUGH.

Inductive report_type : Type :=
| INFO
| WARNING
| ERROR_INVALID_INPUT.

Definition report : Type := (report_type * string)%type.

Record outcome (S : Type) : Type := Outcome {
  o_state : S;
  o_reports : list report;
  o_status : status
}.

Arguments Outcome {S} _ _ _.
Arguments o_state {S} _.
Arguments o_reports {S} _.
Arguments o_status {S} _.

(** ** Loops over element indices *)

(** [for i in range(n): body] over a threaded state. *)
Definition for_range {S : Type} (n : nat) (body : nat -> S -> result S) (s : S)
  : result S :=
  foldl (fun acc i => bind acc (body i)) (Ok s) (seq 0 n).

(** [layer.data[i]] *)
Definition read (d : list rgba) (i : nat) : result rgba :=
  of_option IndexError (d !! i).

(** [layer.data[i].color = c] *)
Definition write (d : list rgba) (i : nat) (c : rgba) : result (list rgba) :=
  match d !! i with
  | Some _ => Ok (<[i := c]> d)
  | None => Raise IndexError
  end.

(** [layer.data[i].color[k] = v] *)
Definition write_chan (d : list rgba) (i k : nat) (v : Q) : result (list rgba) :=
  match d !! i with
  | Some c => Ok (<[i := set_chan c k v]> d)
  | None => Raise IndexError
  end.

Definition length_mismatch (base mask : attribute) : exn :=
  RuntimeError
    ("Mask color attribute '" ++ name mask ++
     "' does not have the same amount of vertex data (len=" ++
     Py.str_of_nat (length (data mask)) ++
     ") as the color base attribute '" ++ name base ++
     "' (len=" ++ Py.str_of_nat (length (data base)) ++ ")").

Definition invalid_channel (ch : string) : exn :=
  RuntimeError ("Invalid channel string '" ++ ch ++ "'").

(** One iteration of a [copy_to_mask] loop: the new mask colour is built
    from the base colour by [mk]. *)
Definition to_mask_step (base : list rgba) (mk : rgba -> rgba)
    (i : nat) (m : list rgba) : result (list rgba) :=
  b <- read base i ;; write m i (mk b).

(** [copy_to_mask(base, mask, ch)]; the result is the mask's new data. *)
Definition copy_to_mask (base mask : attribute) (ch : string)
  : result (list rgba) :=
  if negb (length (data base) =? length (data mask))%nat
  then Raise (length_mismatch base mask)
  else
    let n := length (data base) in
    let loop mk := for_range n (to_mask_step (data base) mk) (data mask) in
    if String.eqb ch "R" then
      loop (fun b => RGBA (chan b 0) 0 0 1)
    else if String.eqb ch "G" then
      loop (fun b => RGBA 0 (chan b 1) 0 1)
    else if String.eqb ch "B" then
      loop (fun b => RGBA 0 0 (chan b 2) 1)
    else if String.eqb ch "A" then
      loop (fun b => RGBA (chan b 3) (chan b 3) (chan b 3) 1)
    else if String.eqb ch "RG" then
      loop (fun b => RGBA (chan b 0) (chan b 1) 0 1)
    else if String.eqb ch "RB" then
      loop (fun b => RGBA (chan b 0) 0 (chan b 2) 1)
    else if String.eqb ch "GB" then
      loop (fun b => RGBA 0 (chan b 1) (chan b 2) 1)
    else if String.eqb ch "RGB" then
      loop (fun b => RGBA (chan b 0) (chan b 1) (chan b 2) 1)
    else Raise (invalid_channel ch).

(** One assignment [base.data[i].color[dst] = mask.data[i].color[src]]. *)
Definition from_mask_assign (mask : list rgba) (dst src : nat)
    (i : nat) (b : list rgba) : result (list rgba) :=
  m <- read mask i ;; write_chan b i dst (chan m src).

(** The body of a [copy_from_mask] loop: its assignments, in order. *)
Fixpoint from_mask_step (mask : list rgba) (moves : list (nat * nat))
    (i : nat) (b : list rgba) : result (list rgba) :=
  match moves with
  | [] => Ok b
  | (dst, src) :: rest =>
      b' <- from_mask_assign mask dst src i b ;;
      from_mask_step mask rest i b'
  end.

(** [copy_from_mask(base, mask, ch)]; the result is the base's new data. *)
Definition copy_from_mask (base mask : attribute) (ch : string)
  : result (list rgba) :=
  if negb (length (data base) =? length (data mask))%nat
  then Raise (length_mismatch base mask)
  else
    let n := length (data base) in
    let loop moves := for_range n (from_mask_step (data mask) moves) (data base) in
    if String.eqb ch "R" then loop [(0, 0)]%nat
    else if String.eqb ch "G" then loop [(1, 1)]%nat
    else if String.eqb ch "B" then loop [(2, 2)]%nat
    else if String.eqb ch "A" then loop [(3, 0)]%nat
    else if String.eqb ch "RG" then loop [(0, 0); (1, 1)]%nat
    else if String.eqb ch "RB" then loop [(0, 0); (2, 2)]%nat
    else if String.eqb ch "GB" then loop [(1, 1); (2, 2)]%nat
    else if String.eqb ch "RGB" then loop [(0, 0); (1, 1); (2, 2)]%nat
    else Raise (invalid_channel ch).

Section MaskOperators.

(** The colour the host gives the elements of a new layer. *)
Variable fill : rgba.

(** [color_attrs.new(name, data_type, domain)]: the host appends a layer
    with one element per vertex or per loop. *)
Definition new_attribute (m : mesh) (nm : string) (t : data_type) (d : domain)
  : mesh * attribute :=
  let a := Attribute nm t d (replicate (domain_size m d) fill) in
  let ca := color_attrs m in
  (with_color_attrs m (ColorAttributes (attrs ca ++ [a])%list (active_color_name ca)), a).

(** [create_color_channel_mask(mesh, base_attr, channel_str)]: the mesh
    afterwards and the mask layer. *)
Definition create_color_channel_mask (m : mesh) (base_attr : attribute)
    (channel_str : string) : result (mesh * attribute) :=
  let base_attr_name := name base_attr in
  let mask_attr_name := base_attr_name ++ "__" ++ channel_str in
  match Attrs.get mask_attr_name (attrs (color_attrs m)) with
  | Some existing => Ok (m, existing)
  | None =>
      let '(m1, mask_attr) :=
        new_attribute m mask_attr_name (a_data_type base_attr) (a_domain base_attr) in
      base_attr <- of_option KeyError
                     (Attrs.get base_attr_name (attrs (color_attrs m1))) ;;
      d <- copy_to_mask base_attr mask_attr channel_str ;;
      let ca := color_attrs m1 in
      let ca' := ColorAttributes (Attrs.set_data mask_attr_name d (attrs ca))
                                 (active_color_name ca) in
      Ok (with_color_attrs m1 ca',
          Attribute mask_attr_name (a_data_type mask_attr) (a_domain mask_attr) d)
  end.

(** [color_attrs.active_color = attr] *)
Definition set_active (m : mesh) (a : attribute) : mesh :=
  with_color_attrs m (ColorAttributes (attrs (color_attrs m)) (Some (name a))).

(** [VCU_OT_create_color_channel_mask.execute]; the operator's state is
    the mesh and its own [channels] property. *)
Definition create_mask_execute (channels : list ascii) (m : mesh)
  : result (outcome (mesh * list ascii)) :=
  let channel_str := make_channel_str channels in
  if String.eqb channel_str "" then Ok (Outcome (m, channels) [] FINISHED)
  else
    base_attr <- of_option AttributeError (Attrs.active_color (color_attrs m)) ;;
    let resolved :=
      if attr_name_is_mask (name base_attr) then
        let '(base_name, _) := get_mask_name_parts (name base_attr) in
        match Attrs.get base_name (attrs (color_attrs m)) with
        | Some b => inl b
        | None =>
            inr (ERROR_INVALID_INPUT,
                 "Active vertex color attribute '" ++ name base_attr ++
                 "' appears to already be a mask, and no base color attribute '" ++
                 base_name ++ "' can be found.")
        end
      else inl base_attr in
    match resolved with
    | inr r => Ok (Outcome (m, channels) [r] CANCELLED)
    | inl base_attr =>
        match check_for_conflicting_mask (attrs (color_attrs m))
                (name base_attr) channels with
        | Some (c, a) =>
            let r := (WARNING,
                      "There is already a mask '" ++ name a ++
                      "' which includes channel '" ++ String c "" ++
                      "'. Please apply it first before making a new mask which includes that channel.") in
            let '(_, ch) := get_mask_name_parts (name a) in
            Ok (Outcome (set_active m a, make_channel_set ch) [r] FINISHED)
        | None =>
            created <- create_color_channel_mask m base_attr channel_str ;;
            let '(m1, mask_attr) := created in
            Ok (Outcome (set_active m1 mask_attr, channels) [] FINISHED)
        end
    end.

End MaskOperators.

(** [color_attrs.remove(attr)]; the host also forgets the active name when
    it named the removed layer. *)
Definition remove_attribute (m : mesh) (a : attribute) : mesh :=
  let ca := color_attrs m in
  let act :=
    match active_color_name ca with
    | Some nm => if String.eqb nm (name a) then None else Some nm
    | None => None
    end in
  with_color_attrs m (ColorAttributes (Attrs.remove (name a) (attrs ca)) act).

(** [VCU_OT_apply_mask.execute] *)
Definition apply_mask_execute (m : mesh) : result (outcome mesh) :=
  mask_attr <- of_option AttributeError (Attrs.active_color (color_attrs m)) ;;
  if negb (attr_name_is_mask (name mask_attr)) then
    Ok (Outcome m
          [(ERROR_INVALID_INPUT,
            "Active vertex color attribute '" ++ name mask_attr ++
            "' does not appear to be a mask.")]
          CANCELLED)
  else
    let '(base_name, channel_str) := get_mask_name_parts (name mask_attr) in
    match Attrs.get base_name (attrs (color_attrs m)) with
    | None =>
        Ok (Outcome m
              [(ERROR_INVALID_INPUT,
                "No base color attribute '" ++ base_name ++
                "' can be found to apply the mask to.")]
              CANCELLED)
    | Some base_attr =>
        d <- copy_from_mask base_attr mask_attr channel_str ;;
        let ca := color_attrs m in
        let m1 := with_color_attrs m
                    (ColorAttributes (Attrs.set_data base_name d (attrs ca))
                                     (active_color_name ca)) in
        Ok (Outcome (remove_attribute m1 mask_attr) [] FINISHED)
    end.

(** ** Swizzle / reorder channels *)

Definition invalid_input_err_msg : string :=
  "Swizzle string must be 4 characters long and only contain R, G, B, A, 0, or 1.".

Definition lost_channels_msg : string :=
  "One or more channels will be lost in this swizzle operation.".

(** [m[c]] for [m = {'R':0, 'G':1, 'B':2, 'A':3, '0':4, '1':5}] *)
Definition swizzle_slot (c : ascii) : result nat :=
  if Ascii.eqb c "R" then Ok 0%nat
  else if Ascii.eqb c "G" then Ok 1%nat
  else if Ascii.eqb c "B" then Ok 2%nat
  else if Ascii.eqb c "A" then Ok 3%nat
  else if Ascii.eqb c "0" then Ok 4%nat
  else if Ascii.eqb c "1" then Ok 5%nat
  else Raise KeyError.

(** [m[swizzle_str[k]]] *)
Definition swizzle_source (swizzle_str : string) (k : nat) : result nat :=
  c <- of_option IndexError (String.get k swizzle_str) ;; swizzle_slot c.

(** [attr.data[i].color[k]] *)
Definition read_chan (d : list rgba) (i k : nat) : result Q :=
  e <- read d i ;; Ok (chan e k).

(** The 6-slot source vector of element [i]. *)
Definition source_vector (d : list rgba) (i : nat) : result (list Q) :=
  r <- read_chan d i 0 ;;
  g <- read_chan d i 1 ;;
  b <- read_chan d i 2 ;;
  a <- read_chan d i 3 ;;
  Ok [r; g; b; a; 0%Q; 1%Q].

Definition swizzle_step (new_r new_g new_b new_a : nat)
    (i : nat) (d : list rgba) : result (list rgba) :=
  col <- source_vector d i ;;
  r <- of_option IndexError (col !! new_r) ;;
  g <- of_option IndexError (col !! new_g) ;;
  b <- of_option IndexError (col !! new_b) ;;
  a <- of_option IndexError (col !! new_a) ;;
  write d i (RGBA r g b a).

(** [swizzle_channels(attr, swizzle_str)]; the result is the layer's new
    data. *)
Definition swizzle_channels (d : list rgba) (swizzle_str : string)
  : result (list rgba) :=
  new_r <- swizzle_source swizzle_str 0 ;;
  new_g <- swizzle_source swizzle_str 1 ;;
  new_b <- swizzle_source swizzle_str 2 ;;
  new_a <- swizzle_source swizzle_str 3 ;;
  for_range (length d) (swizzle_step new_r new_g new_b new_a) d.

(** [for x in str: if not x in 'RGBA01': ...]: no character is refused. *)
Fixpoint all_allowed (str : string) : bool :=
  match str with
  | EmptyString => true
  | String x rest => Py.chr_in x "RGBA01" && all_allowed rest
  end.

(** [VCU_OT_swizzle_channels.execute] *)
Definition swizzle_execute (swizzle_str : string) (m : mesh)
  : result (outcome mesh) :=
  let str := swizzle_str in
  if negb (String.length str =? 4)%nat then
    Ok (Outcome m [(ERROR_INVALID_INPUT, invalid_input_err_msg)] CANCELLED)
  else
    let str := Py.upper str in
    if negb (all_allowed str) then
      Ok (Outcome m [(ERROR_INVALID_INPUT, invalid_input_err_msg)] CANCELLED)
    else
      let reports :=
        if negb (Py.chr_in "R" str && Py.chr_in "G" str &&
                 Py.chr_in "B" str && Py.chr_in "A" str)
        then [(WARNING, lost_channels_msg)] else [] in
      attr <- of_option AttributeError (Attrs.active_color (color_attrs m)) ;;
      d <- swizzle_channels (data attr) str ;;
      let ca := color_attrs m in
      Ok (Outcome
            (with_color_attrs m
               (ColorAttributes (Attrs.set_data (name attr) d (attrs ca))
                                (active_color_name ca)))
            reports FINISHED).

(** ** Sample vertex colour: formatting *)

(** The character of a decimal digit. *)
Definition digit (d : Z) : ascii := ascii_of_nat (48 + Z.to_nat d).

(** ["{:.3f}".format(f)]: the nearest multiple of 1/1000, halves to even,
    printed with its sign, integer part and three decimals. *)
Definition format_3f (f : Q) : string :=
  let m := Py.round (Qabs f * 1000) in
  let sign := if Qle_bool 0 f then "" else "-" in
  sign ++ Py.str_of_Z (m / 1000) ++ "." ++
  String (digit (m / 100 mod 10))
    (String (digit (m / 10 mod 10)) (String (digit (m mod 10)) "")).

Definition f2s (f : Q) : string :=
  if Py.is_integer f then Py.str_of_Z (Py.int f) else format_3f f.

(** [f"{b:02X}"]: upper-case hexadecimal, zero-padded to two characters
    (the sign counts as one). *)
Definition format_02X (b : Z) : string :=
  let digits :=
    Py.upper (HexadecimalString.NilZero.string_of_uint
                (N.to_hex_uint (Z.to_N (Z.abs b)))) in
  if (b <? 0)%Z then "-" ++ digits
  else if (String.length digits <? 2)%nat then "0" ++ digits
  else digits.

Definition col_to_hex (col : list Q) : result string :=
  let b := map (fun c => Py.round (c * 255)) col in
  b0 <- Py.index b 0 ;;
  b1 <- Py.index b 1 ;;
  b2 <- Py.index b 2 ;;
  let str := "#" ++ format_02X b0 ++ format_02X b1 ++ format_02X b2 in
  if (length b =? 4)%nat then
    b3 <- Py.index b 3 ;;
    if negb (b3 =? 255)%Z then Ok (str ++ format_02X b3) else Ok str
  else Ok str.

(** [elem.color[:]] *)
Definition components (c : rgba) : list Q := [c_r c; c_g c; c_b c; c_a c].

(** [", ".join([f2s(v) for v in col])] *)
Definition col_to_str (col : list Q) : string :=
  String.concat ", " (map f2s col).

(** The report line of [do_sample], from the linear and the display
    colour of the sampled element. *)
Definition report_line (col_lin col_srgb : list Q) : result string :=
  let col_lin_str := col_to_str col_lin in
  let col_srgb_str := col_to_str col_srgb in
  col_lin_hex_str <- col_to_hex col_lin ;;
  col_srgb_hex_str <- col_to_hex col_srgb ;;
  if String.eqb col_lin_str col_srgb_str then
    Ok ("Color is  " ++ col_lin_hex_str ++ " (" ++ col_lin_str ++ ")")
  else
    Ok ("Linear color is  " ++ col_lin_hex_str ++ " (" ++ col_lin_str ++
        ")  |  SRGB color is " ++ col_srgb_hex_str ++ " (" ++ col_srgb_str ++ ")").

(** ** Sample vertex colour: picking *)

(** [v_loc - hit_loc] *)
Definition vsub (u v : vec3) : vec3 :=
  Vec3 (fsub (vx u) (vx v)) (fsub (vy u) (vy v)) (fsub (vz u) (vz v)).

Definition point_count_msg (got expected : nat) : string :=
  "Unexpected number of vertex color datapoints for POINT domain (got " ++
  Py.str_of_nat got ++ ", expected " ++ Py.str_of_nat expected ++ ")".

Definition corner_count_msg (got expected : nat) : string :=
  "Unexpected number of vertex color datapoints for CORNER domain (got " ++
  Py.str_of_nat got ++ ", expected " ++ Py.str_of_nat expected ++ ")".

Definition unknown_domain_msg (d : string) : string :=
  "Unknown domain '" ++ d ++ "' on active color attribute.".

Section Picking.

(** [Vector.magnitude], the host's Euclidean norm: a number, or [inf]
    or [nan] when the coordinates are not all numbers. *)
Variable magnitude : vec3 -> float.

(** The search loop
    [for i, v_idx in enumerate(face.vertices): ...], started at local
    index [i] with the running [min_dist] and
    [closest_face_vertex_index]. *)
Fixpoint find_closest (verts : list vec3) (hit_loc : vec3)
    (face_vertices : list Z) (i : Z) (min_dist : float)
    (closest_face_vertex_index : Z) : result Z :=
  match face_vertices with
  | [] => Ok closest_face_vertex_index
  | v_idx :: rest =>
      v_loc <- Py.index verts v_idx ;;
      let dist := magnitude (vsub v_loc hit_loc) in
      if flt dist min_dist
      then find_closest verts hit_loc rest (i + 1) dist i
      else find_closest verts hit_loc rest (i + 1) min_dist
                        closest_face_vertex_index
  end.

(** The index [pick_vertex_color_from_rayhit] reads the colour array
    at: [None] for a face without vertices. *)
Definition picked_index (m : mesh) (hit_loc : vec3) (hit_face_index : Z)
  : result (option Z) :=
  color_attr <- of_option AttributeError (Attrs.active_color (color_attrs m)) ;;
  let vert_colors := data color_attr in
  face <- Py.index (polygons m) hit_face_index ;;
  if (length (vertices face) =? 0)%nat then Ok None
  else
    closest_face_vertex_index <-
      find_closest (m_vertices m) hit_loc (vertices face) 0 PosInf (-1) ;;
    match a_domain color_attr with
    | POINT =>
        if negb (length vert_colors =? length (m_vertices m))%nat then
          Raise (Exception (point_count_msg (length vert_colors)
                                            (length (m_vertices m))))
        else
          closest_vertex_index <-
            Py.index (vertices face) closest_face_vertex_index ;;
          Ok (Some closest_vertex_index)
    | CORNER =>
        if negb (length vert_colors =? length (m_loops m))%nat then
          Raise (Exception (corner_count_msg (length vert_colors)
                                             (length (m_loops m))))
        else
          closest_loop_index <-
            Py.index (loop_indices face) closest_face_vertex_index ;;
          Ok (Some closest_loop_index)
    | OTHER_DOMAIN d => Raise (Exception (unknown_domain_msg d))
    end.

(** [pick_vertex_color_from_rayhit(ob, hit_loc, hit_face_index, context)]
    with [ob.data = m]. *)
Definition pick_vertex_color_from_rayhit (m : mesh) (hit_loc : vec3)
    (hit_face_index : Z) : result (option rgba) :=
  k <- picked_index m hit_loc hit_face_index ;;
  match k with
  | None => Ok None
  | Some k =>
      color_attr <- of_option AttributeError
                      (Attrs.active_color (color_attrs m)) ;;
      c <- Py.index (data color_attr) k ;;
      Ok (Some c)
  end.

End Picking.

(** ** Sample vertex colour: the modal operator *)

Inductive event_type : Type :=
| TIMER
| LEFTMOUSE
| MIDDLEMOUSE
| WHEELUPMOUSE
| WHEELDOWNMOUSE
| RIGHTMOUSE
| ESC
| OTHER_EVENT.

Inductive event_value : Type :=
| PRESS
| RELEASE
| NOTHING.

Record event : Type := Event {
  e_type : event_type;
  e_value : event_value;
  ctrl : bool;
  mouse_region_x : Z;
  mouse_region_y : Z
}.

Definition is_leftmouse (t : event_type) : bool :=
  match t with LEFTMOUSE => true | _ => false end.

Definition is_press (v : event_value) : bool :=
  match v with PRESS => true | _ => false end.

(** What the sampler touches of the host: the members of [context]
    ([None] where the context has none, so that any use raises), the
    two module globals and the info log. *)
Record world : Type := World {
  window : option (option string);          (* the modal cursor of the window *)
  area : option (option string);            (* the header text of the area *)
  window_manager : option (list nat);       (* the registered timers *)
  vertex_paint : option bool;               (* [tool_settings.vertex_paint.show_brush] *)
  brush : option (Q * Q * Q);               (* [vertex_paint.brush.color] *)
  workspace : option (option string);       (* the status text *)
  active_object : mesh;                     (* [context.active_object.data] *)
  sample_vertex_color_timer : option nat;   (* global *)
  prev_show_brush : bool;                   (* global *)
  info_log : list report                    (* what [self.report] wrote *)
}.

Definition set_window (w : world) (v : option (option string)) : world :=
  World v (area w) (window_manager w) (vertex_paint w) (brush w) (workspace w)
        (active_object w) (sample_vertex_color_timer w) (prev_show_brush w)
        (info_log w).

Definition set_area (w : world) (v : option (option string)) : world :=
  World (window w) v (window_manager w) (vertex_paint w) (brush w) (workspace w)
        (active_object w) (sample_vertex_color_timer w) (prev_show_brush w)
        (info_log w).

Definition set_window_manager (w : world) (v : option (list nat)) : world :=
  World (window w) (area w) v (vertex_paint w) (brush w) (workspace w)
        (active_object w) (sample_vertex_color_timer w) (prev_show_brush w)
        (info_log w).

Definition set_vertex_paint (w : world) (v : option bool) : world :=
  World (window w) (area w) (window_manager w) v (brush w) (workspace w)
        (active_object w) (sample_vertex_color_timer w) (prev_show_brush w)
        (info_log w).

Definition set_brush (w : world) (v : option (Q * Q * Q)) : world :=
  World (window w) (area w) (window_manager w) (vertex_paint w) v (workspace w)
        (active_object w) (sample_vertex_color_timer w) (prev_show_brush w)
        (info_log w).

Definition set_workspace (w : world) (v : option (option string)) : world :=
  World (window w) (area w) (window_manager w) (vertex_paint w) (brush w) v
        (active_object w) (sample_vertex_color_timer w) (prev_show_brush w)
        (info_log w).

Definition set_timer (w : world) (v : option nat) : world :=
  World (window w) (area w) (window_manager w) (vertex_paint w) (brush w)
        (workspace w) (active_object w) v (prev_show_brush w) (info_log w).

Definition add_report (w : world) (r : report) : world :=
  World (window w) (area w) (window_manager w) (vertex_paint w) (brush w)
        (workspace w) (active_object w) (sample_vertex_color_timer w)
        (prev_show_brush w) (info_log w ++ [r])%list.

(** *** Host calls; each raises when its receiver is missing *)

(** [context.window.cursor_modal_restore()] *)
Definition cursor_modal_restore (w : world) : result world :=
  match window w with
  | Some _ => Ok (set_window w (Some None))
  | None => Raise AttributeError
  end.

(** [context.area.header_text_set(text)] *)
Definition header_text_set (text : option string) (w : world) : result world :=
  match area w with
  | Some _ => Ok (set_area w (Some text))
  | None => Raise AttributeError
  end.

(** [context.window_manager.event_timer_remove(timer)]: the host refuses a
    timer it does not hold. *)
Definition event_timer_remove (timer : nat) (w : world) : result world :=
  match window_manager w with
  | Some timers =>
      if existsb (Nat.eqb timer) timers
      then Ok (set_window_manager w
                 (Some (List.filter (fun t => negb (Nat.eqb timer t)) timers)))
      else Raise (RuntimeError "Timer not found")
  | None => Raise AttributeError
  end.

(** [context.tool_settings.vertex_paint.show_brush = v] *)
Definition set_show_brush (v : bool) (w : world) : result world :=
  match vertex_paint w with
  | Some _ => Ok (set_vertex_paint w (Some v))
  | None => Raise AttributeError
  end.

(** [context.workspace.status_text_set(text)] *)
Definition status_text_set (text : option string) (w : world) : result world :=
  match workspace w with
  | Some _ => Ok (set_workspace w (Some text))
  | None => Raise AttributeError
  end.

(** [context.tool_settings.vertex_paint.brush.color = c] *)
Definition set_brush_color (c : Q * Q * Q) (w : world) : result world :=
  match vertex_paint w, brush w with
  | Some _, Some _ => Ok (set_brush w (Some c))
  | _, _ => Raise AttributeError
  end.

(** [try: step except: pass]; every step below raises before it changes
    anything. *)
Definition try_pass (step : world -> result world) (w : world) : world :=
  match step w with
  | Ok w' => w'
  | Raise _ => w
  end.

(** The guarded timer step of [sample_vertex_color_end]. *)
Definition end_timer_step (w : world) : result world :=
  w1 <- match sample_vertex_color_timer w with
        | Some timer => event_timer_remove timer w
        | None => Ok w
        end ;;
  Ok (set_timer w1 None).

(** The five guarded steps of [sample_vertex_color_end], in order. *)
Definition end_steps : list (world -> result world) :=
  [ cursor_modal_restore;
    header_text_set None;
    end_timer_step;
    (fun w => set_show_brush (prev_show_brush w) w);
    status_text_set None ].

Definition sample_vertex_color_end (w : world) : world :=
  foldl (fun acc step => try_pass step acc) w end_steps.

(** The condition under which [modal] samples:
    [self.first_modal or event.type == 'TIMER' or
     (event.type == 'LEFTMOUSE' and event.value == 'PRESS')]. *)
Definition sample_tick (first_modal : bool) (ev : event) : bool :=
  first_modal
  || match e_type ev with TIMER => true | _ => false end
  || (is_leftmouse (e_type ev) && is_press (e_value ev)).

Section Sampler.

Variable magnitude : vec3 -> float.

(** [elem.color_srgb], the host's display-space view of a colour. *)
Variable color_srgb : rgba -> rgba.

(** The host's ray cast from a region coordinate: the hit location and
    face index, or no hit. *)
Variable ray_cast : world -> Z * Z -> option (vec3 * Z).

(** [pick_vertex_color_from_mouse_coord(ob, coord, context)] *)
Definition pick_vertex_color_from_mouse_coord (w : world) (coord : Z * Z)
  : result (option rgba) :=
  match ray_cast w coord with
  | None => Ok None
  | Some (location, face_index) =>
      pick_vertex_color_from_rayhit magnitude (active_object w)
                                    location face_index
  end.

(** [do_sample(self, context, event)]: the world as the call leaves it,
    and the exception when it raises. *)
Definition do_sample (w : world) (ev : event) : world * result unit :=
  let coord := (mouse_region_x ev, mouse_region_y ev) in
  match pick_vertex_color_from_mouse_coord w coord with
  | Raise e => (w, Raise e)
  | Ok None =>
      match header_text_set (Some "Active object not under mouse cursor") w with
      | Ok w1 => (w1, Ok tt)
      | Raise e => (w, Raise e)
      end
  | Ok (Some col_attr_val) =>
      let col_lin := components col_attr_val in
      let col_srgb := components (color_srgb col_attr_val) in
      match report_line col_lin col_srgb with
      | Raise e => (w, Raise e)
      | Ok report_str =>
          let w1 := if is_leftmouse (e_type ev)
                    then add_report w (INFO, report_str) else w in
          match header_text_set (Some report_str) w1 with
          | Raise e => (w1, Raise e)
          | Ok w2 =>
              if is_leftmouse (e_type ev) && negb (ctrl ev) then
                let srgb := color_srgb col_attr_val in
                (try_pass (set_brush_color (c_r srgb, c_g srgb, c_b srgb)) w2,
                 Ok tt)
              else (w2, Ok tt)
          end
      end
  end.

(** [modal(self, context, event)]: the world and [self.first_modal]
    afterwards, and the returned status or the propagated exception. *)
Definition modal (first_modal : bool) (w : world) (ev : event)
  : world * bool * result status :=
  if sample_tick first_modal ev
  then
    match do_sample w ev with
    | (w1, Raise e) => (sample_vertex_color_end w1, false, Raise e)
    | (w1, Ok _) =>
        if is_leftmouse (e_type ev) && negb (ctrl ev)
        then (sample_vertex_color_end w1, false, Ok CANCELLED)
        else (w1, false, Ok RUNNING_MODAL)
    end
  else
    match e_type ev with
    | MIDDLEMOUSE | WHEELUPMOUSE | WHEELDOWNMOUSE =>
        (w, first_modal, Ok PASS_THROUGH)
    | RIGHTMOUSE | ESC =>
        (sample_vertex_color_end w, first_modal, Ok CANCELLED)
    | _ => (w, first_modal, Ok RUNNING_MODAL)
    end.

End Sampler.

(** ** The channel property of the create operator *)

(** [channels_prop_update(self, context)] with the module global
    [in_update]: the global and [self.channels] afterwards.  Assigning
    [self.channels] calls the function again, with [in_update] set, and
    that inner call changes nothing. *)
Definition channels_prop_update (in_update : bool) (channels : list ascii)
  : bool * list ascii :=
  if negb in_update then
    let channels :=
      if Py.in_set "A" channels && (1 <? length channels)%nat
      then ["A"%char] else channels in
    (false, channels)
  else (in_update, channels).

(** ** The sampler's entry *)

Definition set_prev_show_brush (w : world) (v : bool) : world :=
  World (window w) (area w) (window_manager w) (vertex_paint w) (brush w)
        (workspace w) (active_object w) (sample_vertex_color_timer w) v
        (info_log w).

(** [context.tool_settings.vertex_paint.show_brush] *)
Definition get_show_brush (w : world) : result bool :=
  of_option AttributeError (vertex_paint w).

(** [context.window.cursor_modal_set(cursor)] *)
Definition cursor_modal_set (cursor : string) (w : world) : result world :=
  match window w with
  | Some _ => Ok (set_window w (Some (Some cursor)))
  | None => Raise AttributeError
  end.

Definition status_help : string :=
  "Mouse-over: Show color in header.    Ctrl-LeftClick: Write color to info log for copying.    LeftClick: Set brush color & exit.    ESC: Exit.".

(** Steps run in order until one raises: the world as the last step left
    it, and the exception if any. *)
Fixpoint run_steps (steps : list (world -> result world)) (w : world)
  : world * result unit :=
  match steps with
  | [] => (w, Ok tt)
  | step :: rest =>
      match step w with
      | Ok w' => run_steps rest w'
      | Raise e => (w, Raise e)
      end
  end.

Section Invoke.

(** The handle the host gives a new timer, from the timers it holds. *)
Variable new_timer : list nat -> nat.

(** [wm.event_timer_add(0.3, window=context.window)] and the assignment of
    the handle to the global. *)
Definition event_timer_add (w : world) : result world :=
  match window_manager w with
  | Some timers =>
      let t := new_timer timers in
      Ok (set_timer (set_window_manager w (Some (timers ++ [t])%list)) (Some t))
  | None => Raise AttributeError
  end.

(** The statements of [invoke]'s [try] block that touch the world; the
    first reads the brush visibility into the global, the third is the
    [if sample_vertex_color_timer != None] removal. *)
Definition invoke_steps : list (world -> result world) :=
  [ (fun w => b <- get_show_brush w ;; Ok (set_prev_show_brush w b));
    set_show_brush false;
    (fun w => match sample_vertex_color_timer w with
              | Some timer => event_timer_remove timer w
              | None => Ok w
              end);
    event_timer_add;
    cursor_modal_set "EYEDROPPER";
    status_text_set (Some status_help) ].

(** [invoke(self, context, event)]: the world and [self.first_modal]
    afterwards, and the returned status or the propagated exception.
    [wm.modal_handler_add(self)] follows the timer's creation and changes
    nothing the world records. *)
Definition invoke (w : world) : world * bool * result status :=
  match run_steps invoke_steps w with
  | (w1, Ok _) => (w1, true, Ok RUNNING_MODAL)
  | (w1, Raise e) => (sample_vertex_color_end w1, true, Raise e)
  end.

End Invoke.

(** ** The paint menu *)




(** * Vocabulary of the properties *)

(** The eight channel codes of a mask name. *)
Definition valid_codes : list string :=
  ["R"; "G"; "B"; "A"; "RG"; "RB"; "GB"; "RGB"].

(** A base name with an embedded [__]. *)
Fixpoint has_double_underscore (s : string) : bool :=
  match s with
  | EmptyString => false
  | String c rest =>
      match rest with
      | String d _ =>
          (Ascii.eqb c "_" && Ascii.eqb d "_") || has_double_underscore rest
      | EmptyString => false
      end
  end.

(** The one-letter string of a channel that is in the set, else the
    empty string. *)
Definition letter_if (c : ascii) (channels : list ascii) : string :=
  if in_dec ascii_dec c channels then String c "" else "".

(** The layer [a] is a mask of [base_name] whose code shares a channel
    with the request. *)
Definition conflicts_with (base_name : string) (channels : list ascii)
    (a : attribute) : Prop :=
  attr_name_is_mask (name a) = true /\
  fst (get_mask_name_parts (name a)) = base_name /\
  exists c, In c channels /\
            Py.chr_in c (snd (get_mask_name_parts (name a))) = true.

Definition layer (nm : string) (d : list rgba) : attribute :=
  Attribute nm FLOAT_COLOR POINT d.

(** The six-slot source vector of a colour. *)
Definition six (e : rgba) : list Q := [c_r e; c_g e; c_b e; c_a e; 0%Q; 1%Q].

(** The colour whose channels are the slots [k0..k3] of the source vector. *)
Definition swizzled (k0 k1 k2 k3 : nat) (e : rgba) : rgba :=
  RGBA (nth k0 (six e) 0%Q) (nth k1 (six e) 0%Q)
       (nth k2 (six e) 0%Q) (nth k3 (six e) 0%Q).

(** One of R, G, B, A, 0, 1, in either case. *)
Definition allowed_chr (c : ascii) : bool :=
  existsb (Ascii.eqb c)
    ["R"; "G"; "B"; "A"; "0"; "1"; "r"; "g"; "b"; "a"]%char.

Fixpoint forall_chr (p : ascii -> bool) (s : string) : bool :=
  match s with
  | EmptyString => true
  | String c rest => p c && forall_chr p rest
  end.

(** A swizzle code: four characters, each allowed. *)
Definition swizzle_code_ok (s : string) : bool :=
  (String.length s =? 4)%nat && forall_chr allowed_chr s.

(** The code names the channel, in either case. *)
Definition names_channel (s : string) (upper lower : ascii) : bool :=
  Py.chr_in upper s || Py.chr_in lower s.

Definition names_all_channels (s : string) : bool :=
  names_channel s "R" "r" && names_channel s "G" "g" &&
  names_channel s "B" "b" && names_channel s "A" "a".

(** What a character of a swizzle code stands for in a colour: the
    channel it names, in either case, or the constant. *)
Definition code_value (c : ascii) (e : rgba) : Q :=
  if Ascii.eqb c "R" || Ascii.eqb c "r" then c_r e
  else if Ascii.eqb c "G" || Ascii.eqb c "g" then c_g e
  else if Ascii.eqb c "B" || Ascii.eqb c "b" then c_b e
  else if Ascii.eqb c "A" || Ascii.eqb c "a" then c_a e
  else if Ascii.eqb c "1" then 1%Q
  else 0%Q.

(** The colour a four-character code makes of a colour. *)
Definition swizzle_color (s : string) (e : rgba) : rgba :=
  match s with
  | String c0 (String c1 (String c2 (String c3 EmptyString))) =>
      RGBA (code_value c0 e) (code_value c1 e)
           (code_value c2 e) (code_value c3 e)
  | _ => e
  end.

(** The running minimum of a search over numbers: [inf] or a number. *)
Inductive bound : Type :=
| Inf
| Fin (q : Q).

Definition bound_float (b : bound) : float :=
  match b with
  | Inf => PosInf
  | Fin q => Num q
  end.

(** [dist < min_dist] for a number [dist]. *)
Definition lt_bound (dist : Q) (min_dist : bound) : bool :=
  match min_dist with
  | Inf => true
  | Fin m => match (dist ?= m)%Q with Lt => true | _ => false end
  end.

(** [dist] is below the running minimum. *)
Definition below (dist : Q) (b : bound) : Prop :=
  match b with
  | Inf => True
  | Fin m => (dist < m)%Q
  end.

(** The search loop on the list of distances alone. *)
Fixpoint scan (ds : list Q) (i : Z) (min_dist : bound) (closest : Z) : Z :=
  match ds with
  | [] => closest
  | dist :: rest =>
      if lt_bound dist min_dist then scan rest (i + 1) (Fin dist) i
      else scan rest (i + 1) min_dist closest
  end.

Section Distances.

Variable magnitude : vec3 -> float.

(** The distances from the hit point to the vertices of a face, in the
    face's order. *)
Fixpoint face_distances (verts : list vec3) (hit_loc : vec3)
    (face_vertices : list Z) : result (list float) :=
  match face_vertices with
  | [] => Ok []
  | v_idx :: rest =>
      v_loc <- Py.index verts v_idx ;;
      ds <- face_distances verts hit_loc rest ;;
      Ok (magnitude (vsub v_loc hit_loc) :: ds)
  end.

End Distances.

(** Exact on vectors along one axis, where the Euclidean norm is the
    absolute value of the only non-zero coordinate; [nan] when a
    coordinate is [nan], else [inf] when one is infinite, as the norm
    is. *)
Definition axis_magnitude (v : vec3) : float :=
  match vx v, vy v, vz v with
  | Num x, Num y, Num z => Num (Qabs x + Qabs y + Qabs z)
  | NaN, _, _ => NaN
  | _, NaN, _ => NaN
  | _, _, NaN => NaN
  | _, _, _ => PosInf
  end.

(** A distance the search can take as a minimum: it is below [inf]. *)
Definition below_inf (d : float) : Prop := flt d PosInf = true.

(** A triangle whose corners are at distances 2.0, 0.5 and 1.7 from the
    origin, with one colour per vertex. *)
Definition triangle (d : domain) : mesh :=
  Mesh [Vec3 2 0 0; Vec3 0 (1 # 2) 0; Vec3 0 0 (17 # 10)]
       [0; 1; 2]%Z
       [Polygon [0; 1; 2]%Z [0; 1; 2]%Z]
       (ColorAttributes
          [Attribute "Col" FLOAT_COLOR d
             [RGBA 1 0 0 1; RGBA 0 1 0 1; RGBA 0 0 1 1]]
          (Some "Col")).

(** The triangle with all its coordinates [nan]: no corner is at a
    distance from anywhere. *)
Definition nan_triangle (d : domain) : mesh :=
  Mesh [Vec3 NaN NaN NaN; Vec3 NaN NaN NaN; Vec3 NaN NaN NaN]
       [0; 1; 2]%Z
       [Polygon [0; 1; 2]%Z [0; 1; 2]%Z]
       (ColorAttributes
          [Attribute "Col" FLOAT_COLOR d
             [RGBA 1 0 0 1; RGBA 0 1 0 1; RGBA 0 0 1 1]]
          (Some "Col")).

(** A sampler in mid-session over a mesh whose active POINT layer has
    lost its data: sampling raises the integrity error. *)
Definition broken_mesh : mesh :=
  Mesh [Vec3 2 0 0; Vec3 0 (1 # 2) 0; Vec3 0 0 (17 # 10)]
       [0; 1; 2]%Z
       [Polygon [0; 1; 2]%Z [0; 1; 2]%Z]
       (ColorAttributes [Attribute "Col" FLOAT_COLOR POINT []] (Some "Col")).

Definition session (m : mesh) : world :=
  World (Some (Some "EYEDROPPER")) None (Some [7%nat]) (Some false) None
        (Some (Some "Mouse-over")) m (Some 7%nat) true [].

Definition hit_face_0 (w : world) (coord : Z * Z) : option (vec3 * Z) :=
  Some (Vec3 0 0 0, 0%Z).

Definition timer_tick : event := Event TIMER NOTHING false 10 20.

(** Every component lies in [0,1]. *)
Definition unit_color (c : rgba) : Prop :=
  Forall (fun v => (0 <= v <= 1)%Q) (components c).

Definition is_digit (c : ascii) : bool :=
  let n := nat_of_ascii c in ((48 <=? n) && (n <=? 57))%nat.

(** One digit, a decimal point and exactly three digits. *)
Definition three_decimals (s : string) : bool :=
  match s with
  | String i (String p (String d1 (String d2 (String d3 EmptyString)))) =>
      is_digit i && Ascii.eqb p "." && is_digit d1 && is_digit d2 && is_digit d3
  | _ => false
  end.

(** The value of a decimal digit. *)
Definition digit_value (c : ascii) : option Z :=
  if is_digit c then Some (Z.of_nat (nat_of_ascii c) - 48)%Z else None.

(** The number of thousandths that a string [d.ddd] stands for. *)
Definition thousandths (s : string) : option Z :=
  match s with
  | String i (String p (String d1 (String d2 (String d3 EmptyString)))) =>
      if Ascii.eqb p "." then
        match digit_value i, digit_value d1, digit_value d2, digit_value d3 with
        | Some a, Some b, Some c, Some d =>
            Some (1000 * a + 100 * b + 10 * c + d)%Z
        | _, _, _, _ => None
        end
      else None
  | _ => None
  end.

(** [n] is the integer nearest to [q], the even one of the two when [q]
    lies half-way. *)
Definition nearest_even (q : Q) (n : Z) : Prop :=
  Qle (Qabs (q - inject_Z n)) (1 # 2) /\
  (Qeq (Qabs (q - inject_Z n)) (1 # 2) -> Z.even n = true).

Definition thousandths_round_trip (m : Z) : bool :=
  match thousandths
          (Py.str_of_Z (m / 1000) ++ "." ++
           String (digit (m / 100 mod 10))
             (String (digit (m / 10 mod 10)) (String (digit (m mod 10)) "")))
  with
  | Some v => (v =? m)%Z
  | None => false
  end.

(** The value of an upper-case hexadecimal digit. *)
Definition hex_digit_value (c : ascii) : option Z :=
  let n := Z.of_nat (nat_of_ascii c) in
  if ((48 <=? n) && (n <=? 57))%Z then Some (n - 48)%Z
  else if ((65 <=? n) && (n <=? 70))%Z then Some (n - 55)%Z
  else None.

(** The value of a two-digit upper-case hexadecimal string. *)
Definition hex2_value (s : string) : option Z :=
  match s with
  | String h (String l EmptyString) =>
      match hex_digit_value h, hex_digit_value l with
      | Some a, Some b => Some (16 * a + b)%Z
      | _, _ => None
      end
  | _ => None
  end.

Definition hex_round_trip (b : Z) : bool :=
  match hex2_value (format_02X b) with
  | Some v => (v =? b)%Z
  | None => false
  end.

(** The colour a mask element gets from a base colour (the copy-to-mask
    column of the channel table). *)
Definition masked (ch : string) (b : rgba) : rgba :=
  if String.eqb ch "R" then RGBA (c_r b) 0 0 1
  else if String.eqb ch "G" then RGBA 0 (c_g b) 0 1
  else if String.eqb ch "B" then RGBA 0 0 (c_b b) 1
  else if String.eqb ch "A" then RGBA (c_a b) (c_a b) (c_a b) 1
  else if String.eqb ch "RG" then RGBA (c_r b) (c_g b) 0 1
  else if String.eqb ch "RB" then RGBA (c_r b) 0 (c_b b) 1
  else if String.eqb ch "GB" then RGBA 0 (c_g b) (c_b b) 1
  else RGBA (c_r b) (c_g b) (c_b b) 1.

(** The base colour after the mask colour [mc] is copied back into [b]
    (the copy-from-mask column). *)
Definition unmasked (ch : string) (mc b : rgba) : rgba :=
  if String.eqb ch "R" then RGBA (c_r mc) (c_g b) (c_b b) (c_a b)
  else if String.eqb ch "G" then RGBA (c_r b) (c_g mc) (c_b b) (c_a b)
  else if String.eqb ch "B" then RGBA (c_r b) (c_g b) (c_b mc) (c_a b)
  else if String.eqb ch "A" then RGBA (c_r b) (c_g b) (c_b b) (c_r mc)
  else if String.eqb ch "RG" then RGBA (c_r mc) (c_g mc) (c_b b) (c_a b)
  else if String.eqb ch "RB" then RGBA (c_r mc) (c_g b) (c_b mc) (c_a b)
  else if String.eqb ch "GB" then RGBA (c_r b) (c_g mc) (c_b mc) (c_a b)
  else RGBA (c_r mc) (c_g mc) (c_b mc) (c_a b).

(** Channel [k] of a colour belongs to the code. *)
Definition in_code (ch : string) (k : nat) : bool :=
  match k with
  | 0%nat => Py.chr_in "R" ch
  | 1%nat => Py.chr_in "G" ch
  | 2%nat => Py.chr_in "B" ch
  | _ => Py.chr_in "A" ch
  end.

(** The assignments of one [copy_from_mask] iteration applied to a colour. *)
Fixpoint apply_moves (mc : rgba) (moves : list (nat * nat)) (e : rgba) : rgba :=
  match moves with
  | [] => e
  | (dst, src) :: rest => apply_moves mc rest (set_chan e dst (chan mc src))
  end.

(** A channel set the operator's property can hold: not empty, within
    R, G, B, A, and A only on its own. *)
Definition valid_channel_set (channels : list ascii) : Prop :=
  channels <> [] /\
  (forall c, In c channels -> In c ["R"; "G"; "B"; "A"]%char) /\
  (In "A"%char channels -> forall c, In c channels -> c = "A"%char).

(** The base layer the create operator works on: the active layer, or
    the base its name records when the active layer is itself a mask. *)
Definition resolve_base (l : list attribute) (act : attribute)
  : option attribute :=
  if attr_name_is_mask (name act)
  then Attrs.get (fst (get_mask_name_parts (name act))) l
  else Some act.

(** The mask layer of [base] for a channel set, as created. *)
Definition mask_of (base : attribute) (channels : list ascii) : attribute :=
  Attribute (name base ++ "__" ++ make_channel_str channels)
            (a_data_type base) (a_domain base)
            (map (masked (make_channel_str channels)) (data base)).

(** Create followed by apply: both run, the base layer is as before and
    no layer has the mask's name. *)
Definition create_then_apply_restores (fill : rgba) (channels : list ascii)
    (m : mesh) (base : attribute) : Prop :=
  exists o1 o2,
    create_mask_execute fill channels m = Ok o1 /\
    apply_mask_execute (fst (o_state o1)) = Ok o2 /\
    Attrs.get (name base) (attrs (color_attrs (o_state o2))) = Some base /\
    Attrs.contains (name base ++ "__" ++ make_channel_str channels)
                   (attrs (color_attrs (o_state o2))) = false.

(** A mesh of one vertex with a layer [Col]. *)
Definition one_vertex (layers : list attribute) (active : string) : mesh :=
  Mesh [Vec3 0 0 0] [] [] (ColorAttributes layers (Some active)).

Definition col : attribute :=
  layer "Col" [RGBA (1 # 10) (2 # 10) (3 # 10) (4 # 10)].

(** The painted mask [Col__RG] of [Col]. *)
Definition col_rg : attribute := layer "Col__RG" [RGBA (9 # 10) (8 # 10) 0 1].

(** ** Vocabulary of the further properties *)

(** The members of a channel set are among R, G, B, A. *)
Definition channel_subset (channels : list ascii) : Prop :=
  forall c, In c channels -> In c ["R"; "G"; "B"; "A"]%char.

(** The mask channel a base channel is read from when a mask is applied:
    an alpha mask carries the alpha in its red channel. *)
Definition mask_source (ch : string) (k : nat) : nat :=
  if String.eqb ch "A" then 0%nat else k.

(** A well-formed mesh: layer names are unique and every layer has one
    element per vertex or per loop, as its domain says. *)
Definition mesh_wf (m : mesh) : Prop :=
  List.NoDup (map name (attrs (color_attrs m))) /\
  forall a, In a (attrs (color_attrs m)) ->
            length (data a) = domain_size m (a_domain a).

(** The character of a second swizzle code read through a first code:
    a channel letter is replaced by what the first code put in that
    channel, a constant stays. *)
Definition compose_chr (first : string) (x : ascii) : ascii :=
  match swizzle_slot x with
  | Ok k =>
      if (k <? 4)%nat
      then match String.get k first with Some c => c | None => x end
      else x
  | Raise _ => x
  end.

(** The single code that does what [first] followed by [second] does. *)
Fixpoint compose_swizzle (first second : string) : string :=
  match second with
  | EmptyString => EmptyString
  | String x rest => String (compose_chr first x) (compose_swizzle first rest)
  end.

(** The slot the channel [j] of a second swizzle reads, given the slots
    [k0..k3] a first swizzle filled the channels from. *)
Definition through (k0 k1 k2 k3 j : nat) : nat :=
  match j with
  | 0%nat => k0
  | 1%nat => k1
  | 2%nat => k2
  | 3%nat => k3
  | _ => j
  end.

(** Nothing of a sampling session is left in the world: no modal cursor,
    no header or status text, the brush visibility at its saved value,
    and no timer handle that the window manager still holds. *)
Definition cleaned (w : world) : Prop :=
  (forall c, window w <> Some (Some c)) /\
  (forall t, area w <> Some (Some t)) /\
  (forall t, workspace w <> Some (Some t)) /\
  (forall b, vertex_paint w = Some b -> b = prev_show_brush w) /\
  (forall t timers,
      sample_vertex_color_timer w = Some t ->
      window_manager w = Some timers ->
      ~ In t timers).

(** A vertex-paint context with every member present, a brush, and no
    sampler running. *)
Definition painting (m : mesh) : world :=
  World (Some None) (Some None) (Some [3%nat]) (Some true)
        (Some (0, 0, 0)%Q) (Some None) m None true [].

Definition left_click : event := Event LEFTMOUSE PRESS false 10 20.

(** The timers the window manager holds once the sampler's old handle, if
    any, has been removed. *)
Definition held_timers (w : world) (timers : list nat) : list nat :=
  match sample_vertex_color_timer w with
  | Some t => List.filter (fun x => negb (Nat.eqb t x)) timers
  | None => timers
  end.

(** A host that numbers its timers upwards. *)
Definition next_timer (timers : list nat) : nat := S (list_max timers).

(** A face of the mesh as the host keeps it: at least one corner, its
    vertex and loop indices within the mesh, one loop per corner. *)
Definition face_wf (m : mesh) (face : polygon) : Prop :=
  vertices face <> [] /\
  (forall v, In v (vertices face) ->
             (0 <= v < Z.of_nat (length (m_vertices m)))%Z) /\
  length (loop_indices face) = length (vertices face) /\
  (forall l, In l (loop_indices face) ->
             (0 <= l < Z.of_nat (length (m_loops m)))%Z).




(** * Properties *)

(** ** Strings *)

Lemma length_append (p s : string) :
  String.length (p ++ s) = (String.length p + String.length s)%nat.
Proof. induction p as [|c p IH]; simpl; [reflexivity | now rewrite IH]. Qed.

Lemma substring_skip (p s : string) (j k : nat) :
  substring (String.length p + j) k (p ++ s) = substring j k s.
Proof. induction p as [|c p IH]; simpl; [reflexivity | exact IH]. Qed.

Lemma substring_prefix (p s : string) :
  substring 0 (String.length p) (p ++ s) = p.
Proof.
  induction p as [|c p IH]; simpl.
  - destruct s; reflexivity.
  - now rewrite IH.
Qed.

Lemma substring_split (s : string) (j : nat) :
  (j <= String.length s)%nat ->
  s = substring 0 j s ++ substring j (String.length s - j) s.
Proof.
  revert j; induction s as [|c s IH]; intros j Hj; simpl in *.
  - destruct j; [reflexivity | lia].
  - destruct j as [|j]; simpl.
    + f_equal. clear. induction s as [|d s IH]; simpl; [reflexivity | now rewrite <- IH].
    + f_equal. apply IH. lia.
Qed.

Lemma append_nil_r (s : string) : s ++ "" = s.
Proof. induction s as [|c s IH]; simpl; [reflexivity | now rewrite IH]. Qed.

Lemma append_assoc (a b c : string) : (a ++ b) ++ c = a ++ b ++ c.
Proof. induction a as [|x a IH]; simpl; [reflexivity | now rewrite IH]. Qed.

Lemma endswith_append (p t suffix : string) :
  (String.length suffix <= String.length t)%nat ->
  Py.endswith (p ++ t) suffix = Py.endswith t suffix.
Proof.
  intros Hle. unfold Py.endswith. rewrite length_append.
  replace (String.length p + String.length t - String.length suffix)%nat
    with (String.length p + (String.length t - String.length suffix))%nat by lia.
  rewrite substring_skip.
  destruct (Nat.leb_spec (String.length suffix) (String.length t)); [|lia].
  destruct (Nat.leb_spec (String.length suffix)
              (String.length p + String.length t)); [reflexivity | lia].
Qed.

Lemma endswith_true (s suffix : string) :
  Py.endswith s suffix = true -> exists p, s = p ++ suffix.
Proof.
  unfold Py.endswith. intros H. apply andb_prop in H as [Hle Heq].
  apply Nat.leb_le in Hle. apply String.eqb_eq in Heq.
  exists (substring 0 (String.length s - String.length suffix) s).
  pose proof (substring_split s (String.length s - String.length suffix)) as Hs.
  replace (String.length s - (String.length s - String.length suffix))%nat
    with (String.length suffix) in Hs by lia.
  rewrite Heq in Hs. apply Hs. lia.
Qed.

Lemma drop_last_append (p t : string) :
  Py.drop_last (String.length t) (p ++ t) = p.
Proof.
  unfold Py.drop_last. rewrite length_append.
  replace (String.length p + String.length t - String.length t)%nat
    with (String.length p) by lia.
  apply substring_prefix.
Qed.

Lemma take_last_append (p t : string) (k : nat) :
  (k <= String.length t)%nat ->
  Py.take_last k (p ++ t) = Py.take_last k t.
Proof.
  intros Hk. unfold Py.take_last. rewrite length_append.
  replace (String.length p + String.length t - k)%nat
    with (String.length p + (String.length t - k))%nat by lia.
  apply substring_skip.
Qed.

(** ** Mask names *)

Lemma drop_last_suffix (p t : string) (k : nat) :
  k = String.length t -> Py.drop_last k (p ++ t) = p.
Proof. intros ->. apply drop_last_append. Qed.

(** Decide the suffix tests of a name [base ++ t] for a literal [t]. *)
Ltac mask_suffix_eval :=
  cbn [String.append];
  unfold attr_name_is_mask, get_mask_name_parts;
  try rewrite (endswith_append _ _ "__R") by (simpl; lia);
  try rewrite (endswith_append _ _ "__G") by (simpl; lia);
  try rewrite (endswith_append _ _ "__B") by (simpl; lia);
  try rewrite (endswith_append _ _ "__A") by (simpl; lia);
  try rewrite (endswith_append _ _ "__RG") by (simpl; lia);
  try rewrite (endswith_append _ _ "__RB") by (simpl; lia);
  try rewrite (endswith_append _ _ "__GB") by (simpl; lia);
  try rewrite (endswith_append _ _ "__RGB") by (simpl; lia);
  lazy -[String.append Py.drop_last Py.take_last].

Lemma mask_name_is_mask (base code : string) :
  In code valid_codes -> attr_name_is_mask (base ++ "__" ++ code) = true.
Proof.
  intros Hc. simpl in Hc.
  repeat (destruct Hc as [<- | Hc]; [mask_suffix_eval; reflexivity |]).
  contradiction.
Qed.

Lemma mask_name_parts (base code : string) :
  In code valid_codes -> get_mask_name_parts (base ++ "__" ++ code) = (base, code).
Proof.
  intros Hc. simpl in Hc.
  repeat (destruct Hc as [<- | Hc];
          [ mask_suffix_eval;
            rewrite drop_last_suffix by reflexivity;
            rewrite take_last_append by (simpl; lia);
            reflexivity |]).
  contradiction.
Qed.

Lemma is_mask_has_code (nm : string) :
  attr_name_is_mask nm = true ->
  exists base code, In code valid_codes /\ nm = base ++ "__" ++ code.
Proof.
  unfold attr_name_is_mask. intros H.
  repeat (apply orb_prop in H as [H | H]);
    apply endswith_true in H as [p ->]; exists p;
    [ exists "R" | exists "G" | exists "B" | exists "A"
    | exists "RG" | exists "RB" | exists "GB" | exists "RGB" ];
    (split; [simpl; tauto | reflexivity]).
Qed.

(** C4: for each of the eight channel codes and each base name without an
    embedded double underscore, the name [base__code] is recognised as a
    mask name and parses to exactly [(base, code)]; and a name that does
    not end in [__] followed by one of the eight codes is not recognised
    as a mask name. *)
Theorem mask_name_round_trip (base code : string) :
  In code valid_codes ->
  has_double_underscore base = false ->
  attr_name_is_mask (base ++ "__" ++ code) = true /\
  get_mask_name_parts (base ++ "__" ++ code) = (base, code) /\
  (forall nm : string,
      (forall b c, In c valid_codes -> nm <> b ++ "__" ++ c) ->
      attr_name_is_mask nm = false).
Proof.
  intros Hc _. split; [| split].
  - now apply mask_name_is_mask.
  - now apply mask_name_parts.
  - intros nm Hno. destruct (attr_name_is_mask nm) eqn:E; [| reflexivity].
    apply is_mask_has_code in E as (b & c & Hin & ->).
    exfalso. now apply (Hno b c).
Qed.

Lemma mask_name_round_trip_witness :
  attr_name_is_mask "Col__RG" = true /\
  get_mask_name_parts "Col__RG" = ("Col", "RG") /\
  attr_name_is_mask "Col_RG" = false.
Proof.
  assert (Hc : In "RG" valid_codes) by (simpl; tauto).
  assert (Hb : has_double_underscore "Col" = false) by reflexivity.
  destruct (mask_name_round_trip "Col" "RG" Hc Hb) as (H1 & H2 & _).
  split; [exact H1 | split; [exact H2 | reflexivity]].
Defined.

(** ** Channel sets and channel codes *)

Lemma in_set_In (c : ascii) (l : list ascii) :
  Py.in_set c l = true -> In c l.
Proof.
  unfold Py.in_set. intros H. apply existsb_exists in H as (x & Hx & E).
  apply Ascii.eqb_eq in E. now subst.
Qed.

Lemma In_in_set (c : ascii) (l : list ascii) :
  In c l -> Py.in_set c l = true.
Proof.
  unfold Py.in_set. intros H. apply existsb_exists. exists c.
  split; [exact H | apply Ascii.eqb_refl].
Qed.

Lemma letter_if_in_set (c : ascii) (channels : list ascii) :
  letter_if c channels = if Py.in_set c channels then String c "" else "".
Proof.
  unfold letter_if. destruct (in_dec ascii_dec c channels) as [H | H].
  - now rewrite (In_in_set _ _ H).
  - destruct (Py.in_set c channels) eqn:E; [| reflexivity].
    contradiction H. now apply in_set_In.
Qed.

(** C5: [make_channel_str] returns exactly "A" for a set with A in it, and
    otherwise R, G, B in that order restricted to the members present
    (the empty string for the empty set); deriving the string again from
    the channel set of its own output gives the same string. *)
Theorem make_channel_str_canonical (channels : list ascii) :
  (In "A"%char channels -> make_channel_str channels = "A") /\
  (~ In "A"%char channels ->
   make_channel_str channels =
     letter_if "R" channels ++ letter_if "G" channels ++ letter_if "B" channels) /\
  make_channel_str [] = "" /\
  make_channel_str (make_channel_set (make_channel_str channels)) =
    make_channel_str channels.
Proof.
  rewrite !letter_if_in_set. unfold make_channel_str.
  split; [| split; [| split]].
  - intros H. now rewrite (In_in_set _ _ H).
  - intros H. destruct (Py.in_set "A" channels) eqn:E.
    + contradiction H. now apply in_set_In.
    + destruct (Py.in_set "R" channels), (Py.in_set "G" channels),
        (Py.in_set "B" channels); reflexivity.
  - reflexivity.
  - destruct (Py.in_set "A" channels), (Py.in_set "R" channels),
      (Py.in_set "G" channels), (Py.in_set "B" channels); reflexivity.
Qed.

Example make_channel_str_examples :
  make_channel_str ["B"; "R"]%char = "RB" /\
  make_channel_str ["G"; "A"; "R"]%char = "A" /\
  make_channel_set "RB" = ["R"; "B"]%char.
Proof. repeat split; reflexivity. Qed.

Lemma make_channel_str_valid (channels : list ascii) :
  make_channel_str channels = "" \/ In (make_channel_str channels) valid_codes.
Proof.
  unfold make_channel_str.
  destruct (Py.in_set "A" channels), (Py.in_set "R" channels),
    (Py.in_set "G" channels), (Py.in_set "B" channels); simpl; tauto.
Qed.

(** ** Conflict detection *)

Lemma first_shared_some (channels : list ascii) (code : string) (c : ascii) :
  first_shared channels code = Some c ->
  In c channels /\ Py.chr_in c code = true.
Proof.
  induction channels as [|x rest IH]; simpl; [discriminate |].
  destruct (Py.chr_in x code) eqn:E.
  - intros [= <-]. auto.
  - intros H. destruct (IH H). auto.
Qed.

Lemma first_shared_none (channels : list ascii) (code : string) :
  first_shared channels code = None <->
  (forall c, In c channels -> Py.chr_in c code = false).
Proof.
  induction channels as [|x rest IH]; simpl.
  - split; [intros _ c [] | reflexivity].
  - destruct (Py.chr_in x code) eqn:E.
    + split; [discriminate |]. intros H. rewrite (H x) in E; [discriminate | auto].
    + rewrite IH. split.
      * intros H c [<- | Hc]; auto.
      * intros H c Hc. apply H. auto.
Qed.

Lemma check_conflict_some (color_attrs : list attribute) (base_name : string)
    (channels : list ascii) (c : ascii) (a : attribute) :
  check_for_conflicting_mask color_attrs base_name channels = Some (c, a) ->
  In a color_attrs /\
  attr_name_is_mask (name a) = true /\
  fst (get_mask_name_parts (name a)) = base_name /\
  In c channels /\
  Py.chr_in c (snd (get_mask_name_parts (name a))) = true.
Proof.
  induction color_attrs as [|x rest IH]; simpl; [discriminate |].
  destruct (attr_name_is_mask (name x)) eqn:Em.
  - destruct (get_mask_name_parts (name x)) as [xb xc] eqn:Ep.
    destruct (String.eqb_spec xb base_name) as [Hb | Hb].
    + destruct (first_shared channels xc) as [c'|] eqn:Ef.
      * intros [= <- <-]. apply first_shared_some in Ef as [? ?].
        rewrite Ep. simpl. auto.
      * intros H. destruct (IH H) as (? & ?). auto.
    + intros H. destruct (IH H) as (? & ?). auto.
  - intros H. destruct (IH H) as (? & ?). auto.
Qed.

Lemma check_conflict_none (color_attrs : list attribute) (base_name : string)
    (channels : list ascii) :
  check_for_conflicting_mask color_attrs base_name channels = None <->
  (forall a, In a color_attrs -> ~ conflicts_with base_name channels a).
Proof.
  unfold conflicts_with.
  induction color_attrs as [|x rest IH]; simpl.
  - split; [intros _ a [] | reflexivity].
  - destruct (attr_name_is_mask (name x)) eqn:Em.
    + destruct (get_mask_name_parts (name x)) as [xb xc] eqn:Ep.
      destruct (String.eqb_spec xb base_name) as [Hb | Hb].
      * destruct (first_shared channels xc) as [c'|] eqn:Ef.
        -- split; [discriminate |]. intros H. exfalso.
           apply first_shared_some in Ef as [? ?].
           apply (H x); [auto |]. rewrite Em, Ep. simpl. eauto.
        -- rewrite IH. split.
           ++ intros H a [<- | Ha]; [| now apply H].
              rewrite Ep. simpl. intros (_ & _ & c & Hc & Hin).
              rewrite (proj1 (first_shared_none channels xc) Ef c Hc) in Hin.
              discriminate.
           ++ intros H a Ha. apply H. auto.
      * rewrite IH. split.
        -- intros H a [<- | Ha]; [| now apply H].
           rewrite Ep. simpl. intros (_ & Hbase & _). contradiction.
        -- intros H a Ha. apply H. auto.
    + rewrite IH. split.
      * intros H a [<- | Ha]; [| now apply H].
        intros (Hm & _). congruence.
      * intros H a Ha. apply H. auto.
Qed.

(** C3: conflict detection returns a shared channel character and an
    existing mask layer of the requested base whenever some layer is a
    mask of that base whose code shares a channel with the request, and
    no conflict otherwise; with an existing mask [Base__RG], requesting
    {G} on [Base] gives a conflict on G at [Base__RG], requesting {B}
    gives none. *)
Theorem check_for_conflicting_mask_spec (color_attrs : list attribute)
    (base_name : string) (channels : list ascii) :
  ((exists a, In a color_attrs /\ conflicts_with base_name channels a) ->
   exists c a,
     check_for_conflicting_mask color_attrs base_name channels = Some (c, a) /\
     In a color_attrs /\
     attr_name_is_mask (name a) = true /\
     fst (get_mask_name_parts (name a)) = base_name /\
     In c channels /\
     Py.chr_in c (snd (get_mask_name_parts (name a))) = true) /\
  (~ (exists a, In a color_attrs /\ conflicts_with base_name channels a) ->
   check_for_conflicting_mask color_attrs base_name channels = None) /\
  (forall d0 d1,
     check_for_conflicting_mask [layer "Base" d0; layer "Base__RG" d1]
       "Base" ["G"%char] = Some ("G"%char, layer "Base__RG" d1) /\
     check_for_conflicting_mask [layer "Base" d0; layer "Base__RG" d1]
       "Base" ["B"%char] = None).
Proof.
  split; [| split].
  - intros (a0 & Hin & Hc).
    destruct (check_for_conflicting_mask color_attrs base_name channels)
      as [[c a]|] eqn:E.
    + exists c, a. split; [reflexivity |]. now apply check_conflict_some in E.
    + exfalso. exact (proj1 (check_conflict_none _ _ _) E a0 Hin Hc).
  - intros Hno. apply check_conflict_none. intros a Hin Hc. apply Hno. eauto.
  - intros d0 d1. split; reflexivity.
Qed.

(** ** Element-wise loops *)

(** A loop whose iteration [i] rewrites element [i] from its current value
    computes the indexed map of the list. *)
Lemma for_range_elementwise (body : nat -> list rgba -> result (list rgba))
    (f : nat -> rgba -> rgba) (d : list rgba) :
  (forall i l e, l !! i = Some e -> length l = length d ->
                 body i l = Ok (<[i := f i e]> l)) ->
  for_range (length d) body d = Ok (imap f d).
Proof.
  intros Hbody. unfold for_range.
  enough (H : forall k a l,
             (a + k = length d)%nat ->
             l = (imap f (take a d) ++ drop a d)%list ->
             foldl (fun acc i => bind acc (body i)) (Ok l) (seq a k)
             = Ok (imap f d)).
  { apply (H (length d) 0%nat d); [lia | reflexivity]. }
  induction k as [|k IH]; intros a l Hlen ->; simpl.
  - rewrite Nat.add_0_r in Hlen. subst a.
    rewrite firstn_all, drop_all, app_nil_r. reflexivity.
  - destruct (lookup_lt_is_Some_2 d a) as [e He]; [lia |].
    assert (Hl : (imap f (take a d) ++ drop a d)%list !! a = Some e).
    { rewrite lookup_app_r; rewrite length_imap, length_take; [| lia].
      replace (a - a `min` length d)%nat with 0%nat by lia.
      rewrite lookup_drop, Nat.add_0_r. exact He. }
    rewrite (Hbody a _ e Hl).
    2:{ rewrite length_app, length_imap, length_take, length_drop. lia. }
    apply IH; [lia |].
    rewrite (take_S_r d a e He), (drop_S d e a He).
    rewrite imap_app. simpl.
    rewrite length_take, Nat.min_l, Nat.add_0_r by lia.
    rewrite <- app_assoc. simpl.
    replace a with (length (imap f (take a d)) + 0)%nat at 1
      by (rewrite length_imap, length_take; lia).
    rewrite insert_app_r. reflexivity.
Qed.

Lemma imap_const_map (f : rgba -> rgba) (d : list rgba) :
  imap (fun _ => f) d = map f d.
Proof.
  revert f. induction d as [|x d IH]; intros f; simpl; [reflexivity |].
  f_equal. exact (IH f).
Qed.

(** ** Swizzling *)

Lemma swizzle_slot_bound (c : ascii) (k : nat) :
  swizzle_slot c = Ok k -> (k < 6)%nat.
Proof.
  unfold swizzle_slot.
  repeat match goal with
         | |- context [Ascii.eqb c ?x] => destruct (Ascii.eqb c x)
         end; intros [= <-] || discriminate; lia.
Qed.

Lemma six_lookup (e : rgba) (k : nat) :
  (k < 6)%nat -> six e !! k = Some (nth k (six e) 0%Q).
Proof.
  intros Hk. do 6 (destruct k as [|k]; [reflexivity |]). lia.
Qed.

Lemma swizzle_step_spec (k0 k1 k2 k3 i : nat) (l : list rgba) (e : rgba) :
  (k0 < 6)%nat -> (k1 < 6)%nat -> (k2 < 6)%nat -> (k3 < 6)%nat ->
  l !! i = Some e ->
  swizzle_step k0 k1 k2 k3 i l = Ok (<[i := swizzled k0 k1 k2 k3 e]> l).
Proof.
  intros H0 H1 H2 H3 He.
  unfold swizzle_step, source_vector, read_chan, read, write.
  rewrite He. cbn [of_option bind chan].
  change [c_r e; c_g e; c_b e; c_a e; 0%Q; 1%Q] with (six e).
  rewrite !six_lookup by assumption. reflexivity.
Qed.

Lemma swizzle_channels_map (d : list rgba) (c0 c1 c2 c3 : ascii)
    (k0 k1 k2 k3 : nat) :
  swizzle_slot c0 = Ok k0 -> swizzle_slot c1 = Ok k1 ->
  swizzle_slot c2 = Ok k2 -> swizzle_slot c3 = Ok k3 ->
  swizzle_channels d (String c0 (String c1 (String c2 (String c3 ""))))
  = Ok (map (swizzled k0 k1 k2 k3) d).
Proof.
  intros H0 H1 H2 H3. unfold swizzle_channels, swizzle_source.
  cbn [String.get of_option bind Nat.eqb]. rewrite H0, H1, H2, H3.
  cbn [bind]. rewrite <- imap_const_map.
  apply for_range_elementwise. intros i l e He _.
  apply swizzle_step_spec; eauto using swizzle_slot_bound.
Qed.

Lemma map_swizzled_id (d : list rgba) : map (swizzled 0 1 2 3) d = d.
Proof.
  induction d as [|[r g b a] d IH]; simpl; [reflexivity |].
  now rewrite IH.
Qed.

Lemma get_name (nm : string) (l : list attribute) (a : attribute) :
  Attrs.get nm l = Some a -> name a = nm.
Proof.
  unfold Attrs.get. induction l as [|x l IH]; simpl; [discriminate |].
  destruct (String.eqb_spec (name x) nm) as [E | E].
  - now intros [= <-].
  - exact IH.
Qed.

Lemma set_data_same (nm : string) (l : list attribute) (a : attribute) :
  Attrs.get nm l = Some a -> Attrs.set_data nm (data a) l = l.
Proof.
  unfold Attrs.get. induction l as [|x l IH]; simpl; [reflexivity |].
  destruct (String.eqb (name x) nm).
  - intros [= <-]. now destruct x.
  - intros H. now rewrite IH.
Qed.

Lemma mesh_eta (m : mesh) :
  with_color_attrs m
    (ColorAttributes (attrs (color_attrs m)) (active_color_name (color_attrs m)))
  = m.
Proof. destruct m as [v l p [a n]]. reflexivity. Qed.

Lemma active_color_get (ca : color_attributes) (a : attribute) :
  Attrs.active_color ca = Some a -> Attrs.get (name a) (attrs ca) = Some a.
Proof.
  unfold Attrs.active_color. destruct (active_color_name ca) as [nm|];
    [| discriminate].
  intros H. now rewrite (get_name _ _ _ H).
Qed.

Lemma get_set_data_same (nm : string) (d : list rgba) (l : list attribute)
    (a : attribute) :
  Attrs.get nm l = Some a ->
  Attrs.get nm (Attrs.set_data nm d l)
  = Some (Attribute (name a) (a_data_type a) (a_domain a) d).
Proof.
  unfold Attrs.get. induction l as [|x l IH]; simpl; [discriminate |].
  destruct (String.eqb (name x) nm) eqn:E; simpl.
  - rewrite E. now intros [= <-].
  - rewrite E. exact IH.
Qed.

Lemma map_fmap {A B : Type} (f : A -> B) (l : list A) : map f l = f <$> l.
Proof. induction l as [|x l IH]; simpl; [reflexivity | now rewrite IH]. Qed.

(** C8: swizzling with the code "RGBA" leaves every element's colour
    unchanged, and for every code each element's new colour is read off
    the six-slot vector (r, g, b, a, 0, 1) built from that element's old
    colour alone, so the four channel assignments do not interfere. *)
Theorem swizzle_rgba_identity :
  (forall d : list rgba, swizzle_channels d "RGBA" = Ok d) /\
  (forall (m : mesh) (a : attribute),
      Attrs.active_color (color_attrs m) = Some a ->
      swizzle_execute "RGBA" m = Ok (Outcome m [] FINISHED)) /\
  (forall (d : list rgba) (c0 c1 c2 c3 : ascii) (k0 k1 k2 k3 : nat),
      swizzle_slot c0 = Ok k0 -> swizzle_slot c1 = Ok k1 ->
      swizzle_slot c2 = Ok k2 -> swizzle_slot c3 = Ok k3 ->
      swizzle_channels d (String c0 (String c1 (String c2 (String c3 ""))))
      = Ok (map (fun e => RGBA (nth k0 (six e) 0%Q) (nth k1 (six e) 0%Q)
                               (nth k2 (six e) 0%Q) (nth k3 (six e) 0%Q)) d)).
Proof.
  assert (Hid : forall d : list rgba, swizzle_channels d "RGBA" = Ok d).
  { intros d.
    rewrite (swizzle_channels_map d "R" "G" "B" "A" 0 1 2 3) by reflexivity.
    now rewrite map_swizzled_id. }
  split; [exact Hid | split].
  - intros m a Ha. unfold swizzle_execute.
    cbn [String.length Nat.eqb negb Py.upper].
    change (Py.upper_chr "R") with "R"%char.
    change (Py.upper_chr "G") with "G"%char.
    change (Py.upper_chr "B") with "B"%char.
    change (Py.upper_chr "A") with "A"%char.
    change (all_allowed "RGBA") with true.
    change (Py.chr_in "R" "RGBA") with true.
    change (Py.chr_in "G" "RGBA") with true.
    change (Py.chr_in "B" "RGBA") with true.
    change (Py.chr_in "A" "RGBA") with true.
    cbn [negb andb]. rewrite Ha. cbn [of_option bind].
    rewrite Hid. cbn [bind].
    rewrite (set_data_same _ _ _ (active_color_get _ _ Ha)).
    now rewrite mesh_eta.
  - intros d c0 c1 c2 c3 k0 k1 k2 k3 H0 H1 H2 H3.
    exact (swizzle_channels_map d c0 c1 c2 c3 k0 k1 k2 k3 H0 H1 H2 H3).
Qed.

(** *** Validation of the swizzle code *)

Ltac each_ascii c :=
  destruct c as [[] [] [] [] [] [] [] []]; vm_compute; try reflexivity.

Lemma upper_chr_allowed (c : ascii) :
  Py.chr_in (Py.upper_chr c) "RGBA01" = allowed_chr c.
Proof. each_ascii c. Qed.

Lemma upper_chr_slot (c : ascii) :
  allowed_chr c = true -> exists k, swizzle_slot (Py.upper_chr c) = Ok k.
Proof. each_ascii c; intros H; try discriminate H; eexists; reflexivity. Qed.

Lemma upper_names (s : string) (up lo : ascii) :
  (forall c, Ascii.eqb up (Py.upper_chr c) = Ascii.eqb up c || Ascii.eqb lo c) ->
  Py.chr_in up (Py.upper s) = names_channel s up lo.
Proof.
  intros Hc. unfold names_channel.
  induction s as [|c s IH]; simpl; [reflexivity |].
  rewrite IH, Hc.
  destruct (Ascii.eqb up c), (Ascii.eqb lo c), (Py.chr_in up s),
    (Py.chr_in lo s); reflexivity.
Qed.

Lemma upper_chr_R c :
  Ascii.eqb "R" (Py.upper_chr c) = Ascii.eqb "R" c || Ascii.eqb "r" c.
Proof. each_ascii c. Qed.

Lemma upper_chr_G c :
  Ascii.eqb "G" (Py.upper_chr c) = Ascii.eqb "G" c || Ascii.eqb "g" c.
Proof. each_ascii c. Qed.

Lemma upper_chr_B c :
  Ascii.eqb "B" (Py.upper_chr c) = Ascii.eqb "B" c || Ascii.eqb "b" c.
Proof. each_ascii c. Qed.

Lemma upper_chr_A c :
  Ascii.eqb "A" (Py.upper_chr c) = Ascii.eqb "A" c || Ascii.eqb "a" c.
Proof. each_ascii c. Qed.

Lemma upper_all_channels (s : string) :
  Py.chr_in "R" (Py.upper s) && Py.chr_in "G" (Py.upper s) &&
  Py.chr_in "B" (Py.upper s) && Py.chr_in "A" (Py.upper s)
  = names_all_channels s.
Proof.
  unfold names_all_channels.
  now rewrite (upper_names s _ _ upper_chr_R), (upper_names s _ _ upper_chr_G),
    (upper_names s _ _ upper_chr_B), (upper_names s _ _ upper_chr_A).
Qed.

Lemma all_allowed_upper (s : string) :
  all_allowed (Py.upper s) = forall_chr allowed_chr s.
Proof.
  induction s as [|c s IH]; cbn [all_allowed Py.upper forall_chr];
    [reflexivity |].
  now rewrite upper_chr_allowed, IH.
Qed.

Lemma swizzle_execute_guard (s : string) (m : mesh) :
  swizzle_code_ok s = false ->
  swizzle_execute s m =
    Ok (Outcome m [(ERROR_INVALID_INPUT, invalid_input_err_msg)] CANCELLED).
Proof.
  unfold swizzle_code_ok, swizzle_execute. rewrite all_allowed_upper.
  destruct (String.length s =? 4)%nat; simpl; [| reflexivity].
  now intros ->.
Qed.

Lemma swizzle_channels_total (s : string) (d : list rgba) :
  swizzle_code_ok s = true ->
  exists k0 k1 k2 k3,
    swizzle_channels d (Py.upper s) = Ok (map (swizzled k0 k1 k2 k3) d).
Proof.
  unfold swizzle_code_ok. intros H. apply andb_prop in H as [Hlen Hall].
  apply Nat.eqb_eq in Hlen.
  destruct s as [|c0 [|c1 [|c2 [|c3 [|c4 s]]]]]; simpl in Hlen; try lia.
  cbn [forall_chr] in Hall.
  apply andb_prop in Hall as [A0 Hall].
  apply andb_prop in Hall as [A1 Hall].
  apply andb_prop in Hall as [A2 Hall].
  apply andb_prop in Hall as [A3 _].
  destruct (upper_chr_slot c0 A0) as [k0 S0].
  destruct (upper_chr_slot c1 A1) as [k1 S1].
  destruct (upper_chr_slot c2 A2) as [k2 S2].
  destruct (upper_chr_slot c3 A3) as [k3 S3].
  exists k0, k1, k2, k3. cbn [Py.upper].
  now apply swizzle_channels_map.
Qed.

(** The slot of an allowed character holds what the character stands
    for. *)
Lemma upper_chr_slot_value (c : ascii) :
  allowed_chr c = true ->
  exists k, swizzle_slot (Py.upper_chr c) = Ok k /\
            forall e, nth k (six e) 0%Q = code_value c e.
Proof.
  each_ascii c; intros H; try discriminate H;
    eexists; (split; [reflexivity | intros e; reflexivity]).
Qed.

(** For a valid code the loop of [swizzle_channels] is the element-wise
    map of what the code's characters stand for. *)
Lemma swizzle_channels_color (s : string) (d : list rgba) :
  swizzle_code_ok s = true ->
  swizzle_channels d (Py.upper s) = Ok (map (swizzle_color s) d).
Proof.
  unfold swizzle_code_ok. intros H. apply andb_prop in H as [Hlen Hall].
  apply Nat.eqb_eq in Hlen.
  destruct s as [|c0 [|c1 [|c2 [|c3 [|c4 s]]]]]; simpl in Hlen; try lia.
  cbn [forall_chr] in Hall.
  apply andb_prop in Hall as [A0 Hall].
  apply andb_prop in Hall as [A1 Hall].
  apply andb_prop in Hall as [A2 Hall].
  apply andb_prop in Hall as [A3 _].
  destruct (upper_chr_slot_value c0 A0) as (k0 & S0 & V0).
  destruct (upper_chr_slot_value c1 A1) as (k1 & S1 & V1).
  destruct (upper_chr_slot_value c2 A2) as (k2 & S2 & V2).
  destruct (upper_chr_slot_value c3 A3) as (k3 & S3 & V3).
  cbn [Py.upper].
  rewrite (swizzle_channels_map d _ _ _ _ k0 k1 k2 k3 S0 S1 S2 S3).
  f_equal. apply map_ext. intros e. unfold swizzled, swizzle_color.
  now rewrite V0, V1, V2, V3.
Qed.

(** C2: the swizzle command fails with INVALID_INPUT and the fixed
    message, leaving the mesh and so every element of the active layer
    as it was, exactly when the code is not four characters long or has
    a character that is not one of R, G, B, A, 0, 1 in either case; for a
    valid code the command finishes without that error, every element of
    the active layer becomes the colour whose four channels are what the
    four characters of the code stand for in the element's old colour,
    and there is a warning exactly when some letter of R, G, B, A does
    not occur. *)
Theorem swizzle_execute_validation (s : string) (m : mesh) :
  (swizzle_code_ok s = false ->
   swizzle_execute s m =
     Ok (Outcome m [(ERROR_INVALID_INPUT, invalid_input_err_msg)] CANCELLED)) /\
  (swizzle_code_ok s = true ->
   forall o, swizzle_execute s m = Ok o ->
             o_status o = FINISHED /\
             ~ In (ERROR_INVALID_INPUT, invalid_input_err_msg) (o_reports o)) /\
  (swizzle_code_ok s = true ->
   forall a, Attrs.active_color (color_attrs m) = Some a ->
   exists o,
     swizzle_execute s m = Ok o /\
     o_status o = FINISHED /\
     o_reports o = (if names_all_channels s then []
                    else [(WARNING, lost_channels_msg)]) /\
     o_state o =
       with_color_attrs m
         (ColorAttributes
            (Attrs.set_data (name a) (map (swizzle_color s) (data a))
                            (attrs (color_attrs m)))
            (active_color_name (color_attrs m))) /\
     Attrs.active_color (color_attrs (o_state o)) =
       Some (Attribute (name a) (a_data_type a) (a_domain a)
                       (map (swizzle_color s) (data a))) /\
     (forall i e, data a !! i = Some e ->
        exists a', Attrs.active_color (color_attrs (o_state o)) = Some a' /\
                   data a' !! i = Some (swizzle_color s e))).
Proof.
  assert (Hrun : swizzle_code_ok s = true ->
                 forall a, Attrs.active_color (color_attrs m) = Some a ->
                 swizzle_execute s m =
                   Ok (Outcome
                         (with_color_attrs m
                            (ColorAttributes
                               (Attrs.set_data (name a)
                                  (map (swizzle_color s) (data a))
                                  (attrs (color_attrs m)))
                               (active_color_name (color_attrs m))))
                         (if names_all_channels s then []
                          else [(WARNING, lost_channels_msg)])
                         FINISHED)).
  { intros Hok a Ha.
    pose proof (swizzle_channels_color s (data a) Hok) as Hd.
    unfold swizzle_execute. unfold swizzle_code_ok in Hok.
    apply andb_prop in Hok as [Hlen Hall].
    rewrite Hlen, all_allowed_upper, Hall, upper_all_channels.
    cbn [negb]. rewrite Ha. cbn [of_option bind]. rewrite Hd. cbn [bind].
    destruct (names_all_channels s); reflexivity. }
  split; [apply swizzle_execute_guard | split].
  - intros Hok o Ho.
    destruct (Attrs.active_color (color_attrs m)) as [a|] eqn:Ha.
    + rewrite (Hrun Hok a eq_refl) in Ho. injection Ho as <-.
      split; [reflexivity |].
      simpl. destruct (names_all_channels s); simpl; [tauto |].
      intros [H | []]. discriminate H.
    + exfalso. unfold swizzle_execute in Ho. unfold swizzle_code_ok in Hok.
      apply andb_prop in Hok as [Hlen Hall].
      rewrite Hlen, all_allowed_upper, Hall, Ha in Ho. discriminate Ho.
  - intros Hok a Ha. eexists. split; [exact (Hrun Hok a Ha) |].
    assert (Hact : Attrs.active_color
                     (ColorAttributes
                        (Attrs.set_data (name a)
                           (map (swizzle_color s) (data a))
                           (attrs (color_attrs m)))
                        (active_color_name (color_attrs m)))
                   = Some (Attribute (name a) (a_data_type a) (a_domain a)
                             (map (swizzle_color s) (data a)))).
    { pose proof (active_color_get _ _ Ha) as Hget.
      unfold Attrs.active_color in Ha |- *. cbn [active_color_name attrs].
      destruct (active_color_name (color_attrs m)) as [nm|]; [| discriminate].
      rewrite <- (get_name _ _ _ Ha).
      now apply get_set_data_same. }
    cbn [o_status o_reports o_state].
    do 3 (split; [reflexivity |]).
    destruct m as [vs ls ps ca]. cbn [with_color_attrs color_attrs] in *.
    split; [exact Hact |].
    intros i e Hi. eexists. split; [exact Hact |].
    cbn [data]. rewrite map_fmap, list_lookup_fmap, Hi. reflexivity.
Qed.

Example swizzle_examples :
  swizzle_execute "bgrr" (one_vertex [col] "Col") =
    Ok (Outcome
          (one_vertex [layer "Col" [RGBA (3 # 10) (2 # 10) (1 # 10) (1 # 10)]] "Col")
          [(WARNING, lost_channels_msg)] FINISHED) /\
  swizzle_execute "RGB" (one_vertex [col] "Col") =
    Ok (Outcome (one_vertex [col] "Col")
          [(ERROR_INVALID_INPUT, invalid_input_err_msg)] CANCELLED) /\
  swizzle_execute "RGBX" (one_vertex [col] "Col") =
    Ok (Outcome (one_vertex [col] "Col")
          [(ERROR_INVALID_INPUT, invalid_input_err_msg)] CANCELLED) /\
  swizzle_channels (data col) "0000" = Ok [RGBA 0 0 0 0] /\
  swizzle_channels (data col) "A1RG" =
    Ok [RGBA (4 # 10) 1 (1 # 10) (2 # 10)].
Proof. repeat split; reflexivity. Qed.

(** ** The closest face vertex *)

Lemma lt_bound_below (dist : Q) (b : bound) :
  lt_bound dist b = true <-> below dist b.
Proof.
  destruct b as [|m]; simpl; [tauto |].
  rewrite Qlt_alt. destruct (dist ?= m)%Q; split; congruence.
Qed.

(** On numbers the comparison of floats is the comparison with the
    running minimum. *)
Lemma flt_bound (d : Q) (b : bound) :
  flt (Num d) (bound_float b) = lt_bound d b.
Proof. now destruct b. Qed.

Lemma scan_spec (ds : list Q) :
  forall (i : Z) (b : bound) (c : Z),
    (scan ds i b c = c /\ forall j x, ds !! j = Some x -> ~ below x b) \/
    (exists k x,
        scan ds i b c = (i + Z.of_nat k)%Z /\
        ds !! k = Some x /\ below x b /\
        (forall j y, ds !! j = Some y -> (x <= y)%Q) /\
        (forall j y, (j < k)%nat -> ds !! j = Some y -> (x < y)%Q)).
Proof.
  induction ds as [|d r IH]; intros i b c; simpl.
  - left. split; [reflexivity |]. intros j x H. discriminate H.
  - destruct (lt_bound d b) eqn:E.
    + apply lt_bound_below in E. right.
      destruct (IH (i + 1)%Z (Fin d) i)
        as [[Hr Hall] | (k & x & Hr & Hk & Hx & Hmin & Hfirst)].
      * exists 0%nat, d. rewrite Hr. repeat split; [f_equal; lia | exact E | |].
        -- intros [|j] y Hy; simpl in Hy.
           ++ injection Hy as <-. apply Qle_refl.
           ++ apply Qnot_lt_le. exact (Hall j y Hy).
        -- intros j y Hj. lia.
      * exists (S k), x. rewrite Hr. simpl in Hx.
        repeat split; [lia | exact Hk | | |].
        -- destruct b as [|m]; simpl in *; [exact I |].
           now apply Qlt_trans with d.
        -- intros [|j] y Hy; simpl in Hy.
           ++ injection Hy as <-. now apply Qlt_le_weak.
           ++ exact (Hmin j y Hy).
        -- intros [|j] y Hj Hy; simpl in Hy.
           ++ now injection Hy as <-.
           ++ apply (Hfirst j y); [lia | exact Hy].
    + assert (Hd : ~ below d b).
      { intros H. apply lt_bound_below in H. congruence. }
      destruct (IH (i + 1)%Z b c)
        as [[Hr Hall] | (k & x & Hr & Hk & Hx & Hmin & Hfirst)].
      * left. split; [exact Hr |].
        intros [|j] y Hy; simpl in Hy.
        -- now injection Hy as <-.
        -- exact (Hall j y Hy).
      * right. exists (S k), x. rewrite Hr.
        assert (Hxd : (x < d)%Q).
        { destruct b as [|m]; simpl in *; [tauto |].
          apply Qlt_le_trans with m; [exact Hx | now apply Qnot_lt_le]. }
        repeat split; [lia | exact Hk | exact Hx | |].
        -- intros [|j] y Hy; simpl in Hy.
           ++ injection Hy as <-. now apply Qlt_le_weak.
           ++ exact (Hmin j y Hy).
        -- intros [|j] y Hj Hy; simpl in Hy.
           ++ now injection Hy as <-.
           ++ apply (Hfirst j y); [lia | exact Hy].
Qed.

Section Closest.

Variable magnitude : vec3 -> float.

Lemma face_distances_length verts hit_loc fv ds :
  face_distances magnitude verts hit_loc fv = Ok ds -> length ds = length fv.
Proof.
  revert ds. induction fv as [|v r IH]; intros ds; simpl.
  - now intros [= <-].
  - destruct (Py.index verts v) as [p|e]; simpl; [| discriminate].
    destruct (face_distances magnitude verts hit_loc r) as [ds'|e]; simpl;
      [| discriminate].
    intros [= <-]. simpl. f_equal. now apply IH.
Qed.

(** When every distance is a number the source loop is the search over
    the numbers. *)
Lemma find_closest_scan verts hit_loc fv (ds : list Q) :
  face_distances magnitude verts hit_loc fv = Ok (map Num ds) ->
  forall i b c,
    find_closest magnitude verts hit_loc fv i (bound_float b) c
    = Ok (scan ds i b c).
Proof.
  revert ds. induction fv as [|v r IH]; intros ds; simpl.
  - destruct ds; [reflexivity | discriminate].
  - destruct (Py.index verts v) as [p|e]; simpl; [| discriminate].
    destruct (face_distances magnitude verts hit_loc r) as [ds'|e]; simpl;
      [| discriminate].
    destruct ds as [|d ds]; simpl; [discriminate |].
    intros [= Hd ->] i b c. rewrite Hd, flt_bound.
    destruct (lt_bound d b).
    + exact (IH ds eq_refl (i + 1)%Z (Fin d) i).
    + exact (IH ds eq_refl (i + 1)%Z b c).
Qed.

Lemma find_closest_ok verts hit_loc fv :
  forall i b c k,
    find_closest magnitude verts hit_loc fv i b c = Ok k ->
    exists ds, face_distances magnitude verts hit_loc fv = Ok ds.
Proof.
  induction fv as [|v r IH]; intros i b c k; simpl.
  - intros _. now exists [].
  - destruct (Py.index verts v) as [p|e]; simpl; [| discriminate].
    destruct (flt (magnitude (vsub p hit_loc)) b); intros H;
      apply IH in H as [ds ->]; simpl; eauto.
Qed.

(** The search returns either the index it started with, and then no
    distance was below the running minimum, or an index of the face,
    and then some distance was. *)
Lemma find_closest_range verts hit_loc fv :
  forall ds i b c k,
    face_distances magnitude verts hit_loc fv = Ok ds ->
    find_closest magnitude verts hit_loc fv i b c = Ok k ->
    (k = c /\ forall d, In d ds -> flt d b = false) \/
    ((i <= k < i + Z.of_nat (length fv))%Z /\
     exists d, In d ds /\ flt d b = true).
Proof.
  induction fv as [|v r IH]; intros ds i b c k; simpl.
  - intros [= <-] [= <-]. left. split; [reflexivity |]. intros d [].
  - destruct (Py.index verts v) as [p|e]; simpl; [| discriminate].
    destruct (face_distances magnitude verts hit_loc r) as [ds'|e] eqn:Er;
      simpl; [| discriminate].
    intros [= <-].
    destruct (flt (magnitude (vsub p hit_loc)) b) eqn:E; intros Hk.
    + right.
      destruct (IH ds' _ _ _ _ eq_refl Hk) as [[-> _] | [Hr _]].
      * split; [lia |]. eexists. split; [left; reflexivity | exact E].
      * split; [lia |]. eexists. split; [left; reflexivity | exact E].
    + destruct (IH ds' _ _ _ _ eq_refl Hk) as [[-> Hall] | [Hr (d & Hd & Hb)]].
      * left. split; [reflexivity |].
        intros d [<- | Hd]; [exact E | now apply Hall].
      * right. split; [lia |]. exists d. split; [now right | exact Hb].
Qed.

(** On a face with at least one vertex whose distances are all numbers
    the search returns the first index of a least distance. *)
Lemma find_closest_first_min verts hit_loc fv (ds : list Q) :
  fv <> [] ->
  face_distances magnitude verts hit_loc fv = Ok (map Num ds) ->
  exists k x,
    find_closest magnitude verts hit_loc fv 0 PosInf (-1) = Ok (Z.of_nat k) /\
    (k < length fv)%nat /\
    ds !! k = Some x /\
    (forall j y, ds !! j = Some y -> (x <= y)%Q) /\
    (forall j y, (j < k)%nat -> ds !! j = Some y -> (x < y)%Q).
Proof.
  intros Hne Hds.
  change PosInf with (bound_float Inf).
  rewrite (find_closest_scan _ _ _ _ Hds).
  pose proof (face_distances_length _ _ _ _ Hds) as Hlen.
  rewrite length_map in Hlen.
  destruct (scan_spec ds 0 Inf (-1))
    as [[_ Hall] | (k & x & Hr & Hk & _ & Hmin & Hfirst)].
  - exfalso. destruct ds as [|d ds']; [destruct fv; [congruence | discriminate] |].
    apply (Hall 0%nat d); simpl; auto.
  - exists k, x. rewrite Hr. repeat split; auto.
    rewrite <- Hlen. apply lookup_lt_is_Some. eauto.
Qed.

End Closest.

Lemma bind_pick {A : Type} (r : result A) (d : list rgba) (f : A -> Z) :
  bind (bind r (fun x => Ok (Some (f x))))
       (fun k => match k with
                 | None => Ok None
                 | Some k => bind (Py.index d k) (fun c => Ok (Some c))
                 end)
  = bind r (fun x => bind (Py.index d (f x)) (fun c => Ok (Some c))).
Proof. destruct r; reflexivity. Qed.

(** What the lookup reads once the search has returned [k]. *)
Lemma pick_reads (magnitude : vec3 -> float) (m : mesh) (hit_loc : vec3)
    (hit_face_index : Z) (a : attribute) (face : polygon) (k : Z) :
  Attrs.active_color (color_attrs m) = Some a ->
  Py.index (polygons m) hit_face_index = Ok face ->
  vertices face <> [] ->
  find_closest magnitude (m_vertices m) hit_loc (vertices face) 0 PosInf (-1)
    = Ok k ->
  (a_domain a = POINT -> length (data a) = length (m_vertices m) ->
   pick_vertex_color_from_rayhit magnitude m hit_loc hit_face_index =
     (v <- Py.index (vertices face) k ;;
      c <- Py.index (data a) v ;; Ok (Some c))) /\
  (a_domain a = CORNER -> length (data a) = length (m_loops m) ->
   pick_vertex_color_from_rayhit magnitude m hit_loc hit_face_index =
     (l <- Py.index (loop_indices face) k ;;
      c <- Py.index (data a) l ;; Ok (Some c))).
Proof.
  intros Ha Hface Hne Hk.
  assert (Hlen : (length (vertices face) =? 0)%nat = false).
  { apply Nat.eqb_neq. destruct (vertices face); [congruence | discriminate]. }
  split; intros Hdom Hcount;
    unfold pick_vertex_color_from_rayhit, picked_index;
    rewrite Ha; cbn [of_option bind]; rewrite Hface; cbn [bind];
    rewrite Hlen, Hk; cbn [bind]; rewrite Hdom, Hcount, Nat.eqb_refl;
    cbn [negb].
  - apply (bind_pick (Py.index (vertices face) k) (data a) id).
  - apply (bind_pick (Py.index (loop_indices face) k) (data a) id).
Qed.

(** C6: on a face with at least one vertex the sampler selects the face
    vertex at least distance from the hit point, the first such vertex
    in the face's order on a tie, and reads the colour at that vertex's
    mesh index for a POINT layer and at the matching face loop index for
    a CORNER layer.  The distances are the numbers [ds]. *)
Theorem closest_vertex_is_sampled (magnitude : vec3 -> float) (m : mesh)
    (hit_loc : vec3) (hit_face_index : Z) (a : attribute) (face : polygon)
    (ds : list Q) :
  Attrs.active_color (color_attrs m) = Some a ->
  Py.index (polygons m) hit_face_index = Ok face ->
  vertices face <> [] ->
  face_distances magnitude (m_vertices m) hit_loc (vertices face)
    = Ok (map Num ds) ->
  exists (k : nat) (x : Q),
    find_closest magnitude (m_vertices m) hit_loc (vertices face) 0 PosInf (-1)
      = Ok (Z.of_nat k) /\
    (k < length (vertices face))%nat /\
    ds !! k = Some x /\
    (forall j y, ds !! j = Some y -> (x <= y)%Q) /\
    (forall j y, (j < k)%nat -> ds !! j = Some y -> (x < y)%Q) /\
    (a_domain a = POINT -> length (data a) = length (m_vertices m) ->
     pick_vertex_color_from_rayhit magnitude m hit_loc hit_face_index =
       (v <- Py.index (vertices face) (Z.of_nat k) ;;
        c <- Py.index (data a) v ;; Ok (Some c))) /\
    (a_domain a = CORNER -> length (data a) = length (m_loops m) ->
     pick_vertex_color_from_rayhit magnitude m hit_loc hit_face_index =
       (l <- Py.index (loop_indices face) (Z.of_nat k) ;;
        c <- Py.index (data a) l ;; Ok (Some c))).
Proof.
  intros Ha Hface Hne Hds.
  destruct (find_closest_first_min magnitude _ _ _ _ Hne Hds)
    as (k & x & Hk & Hlt & Hx & Hmin & Hfirst).
  exists k, x. repeat (split; [assumption |]).
  exact (pick_reads magnitude m hit_loc hit_face_index a face _
           Ha Hface Hne Hk).
Qed.

Lemma closest_vertex_is_sampled_witness :
  exists (k : nat) (x : Q),
    find_closest axis_magnitude (m_vertices (triangle POINT)) (Vec3 0 0 0)
      [0; 1; 2]%Z 0 PosInf (-1) = Ok (Z.of_nat k) /\
    (k < 3)%nat /\
    [2; 1 # 2; 17 # 10]%Q !! k = Some x /\
    (forall j y, [2; 1 # 2; 17 # 10]%Q !! j = Some y -> (x <= y)%Q) /\
    (forall j y, (j < k)%nat -> [2; 1 # 2; 17 # 10]%Q !! j = Some y -> (x < y)%Q) /\
    (POINT = POINT -> 3%nat = 3%nat ->
     pick_vertex_color_from_rayhit axis_magnitude (triangle POINT)
       (Vec3 0 0 0) 0 =
       (v <- Py.index [0; 1; 2]%Z (Z.of_nat k) ;;
        c <- Py.index [RGBA 1 0 0 1; RGBA 0 1 0 1; RGBA 0 0 1 1] v ;;
        Ok (Some c))) /\
    (POINT = CORNER -> 3%nat = 3%nat ->
     pick_vertex_color_from_rayhit axis_magnitude (triangle POINT)
       (Vec3 0 0 0) 0 =
       (l <- Py.index [0; 1; 2]%Z (Z.of_nat k) ;;
        c <- Py.index [RGBA 1 0 0 1; RGBA 0 1 0 1; RGBA 0 0 1 1] l ;;
        Ok (Some c))).
Proof.
  apply (closest_vertex_is_sampled axis_magnitude (triangle POINT)
           (Vec3 0 0 0) 0
           (Attribute "Col" FLOAT_COLOR POINT
              [RGBA 1 0 0 1; RGBA 0 1 0 1; RGBA 0 0 1 1])
           (Polygon [0; 1; 2]%Z [0; 1; 2]%Z)
           [2; 1 # 2; 17 # 10]%Q).
  - reflexivity.
  - reflexivity.
  - discriminate.
  - reflexivity.
Defined.

Example closest_of_three :
  find_closest axis_magnitude (m_vertices (triangle POINT)) (Vec3 0 0 0)
    [0; 1; 2]%Z 0 PosInf (-1) = Ok 1%Z /\
  pick_vertex_color_from_rayhit axis_magnitude (triangle POINT) (Vec3 0 0 0) 0
    = Ok (Some (RGBA 0 1 0 1)) /\
  pick_vertex_color_from_rayhit axis_magnitude (triangle CORNER) (Vec3 0 0 0) 0
    = Ok (Some (RGBA 0 1 0 1)) /\
  scan [2; 1 # 2; 1 # 2]%Q 0 Inf (-1) = 1%Z.
Proof. repeat split; reflexivity. Qed.

(** C10: a hit on a face without vertices gives no colour, as a ray miss
    does.  For a face with vertices the index found by the search lies
    within the face's vertex list when some distance is below [inf];
    when none is (each is [inf] or [nan]) the search leaves the initial
    index -1 and the colour is read at [face.vertices[-1]] or
    [face.loop_indices[-1]], the face's last corner, as on the triangle
    whose coordinates are [nan]. *)
Theorem sentinel_index_is_read (magnitude : vec3 -> float) (m : mesh)
    (hit_loc : vec3) (hit_face_index : Z) :
  (forall a face,
      Attrs.active_color (color_attrs m) = Some a ->
      Py.index (polygons m) hit_face_index = Ok face ->
      vertices face = [] ->
      pick_vertex_color_from_rayhit magnitude m hit_loc hit_face_index
      = Ok None) /\
  (forall (ray_cast : world -> Z * Z -> option (vec3 * Z)) w coord,
      ray_cast w coord = None ->
      pick_vertex_color_from_mouse_coord magnitude ray_cast w coord = Ok None) /\
  (forall c,
      pick_vertex_color_from_rayhit magnitude m hit_loc hit_face_index
      = Ok (Some c) ->
      exists face k ds,
        Py.index (polygons m) hit_face_index = Ok face /\
        vertices face <> [] /\
        face_distances magnitude (m_vertices m) hit_loc (vertices face)
          = Ok ds /\
        find_closest magnitude (m_vertices m) hit_loc (vertices face)
          0 PosInf (-1) = Ok k /\
        ((exists d, In d ds /\ below_inf d) ->
         (0 <= k < Z.of_nat (length (vertices face)))%Z) /\
        ((forall d, In d ds -> ~ below_inf d) -> k = (-1)%Z)) /\
  (forall a face ds,
      Attrs.active_color (color_attrs m) = Some a ->
      Py.index (polygons m) hit_face_index = Ok face ->
      vertices face <> [] ->
      face_distances magnitude (m_vertices m) hit_loc (vertices face)
        = Ok ds ->
      (forall d, In d ds -> ~ below_inf d) ->
      find_closest magnitude (m_vertices m) hit_loc (vertices face)
        0 PosInf (-1) = Ok (-1)%Z /\
      (a_domain a = POINT -> length (data a) = length (m_vertices m) ->
       pick_vertex_color_from_rayhit magnitude m hit_loc hit_face_index =
         (v <- Py.index (vertices face) (-1) ;;
          c <- Py.index (data a) v ;; Ok (Some c))) /\
      (a_domain a = CORNER -> length (data a) = length (m_loops m) ->
       pick_vertex_color_from_rayhit magnitude m hit_loc hit_face_index =
         (l <- Py.index (loop_indices face) (-1) ;;
          c <- Py.index (data a) l ;; Ok (Some c)))) /\
  find_closest axis_magnitude (m_vertices (nan_triangle POINT)) (Vec3 0 0 0)
    [0; 1; 2]%Z 0 PosInf (-1) = Ok (-1)%Z /\
  pick_vertex_color_from_rayhit axis_magnitude (nan_triangle POINT)
    (Vec3 0 0 0) 0 = Ok (Some (RGBA 0 0 1 1)) /\
  pick_vertex_color_from_rayhit axis_magnitude (nan_triangle CORNER)
    (Vec3 0 0 0) 0 = Ok (Some (RGBA 0 0 1 1)).
Proof.
  assert (Hnone : forall face ds k,
             face_distances magnitude (m_vertices m) hit_loc (vertices face)
               = Ok ds ->
             find_closest magnitude (m_vertices m) hit_loc (vertices face)
               0 PosInf (-1) = Ok k ->
             (forall d, In d ds -> ~ below_inf d) -> k = (-1)%Z).
  { intros face ds k Hds Hk Hall.
    destruct (find_closest_range magnitude _ _ _ _ _ _ _ _ Hds Hk)
      as [[-> _] | [_ (d & Hd & Hb)]]; [reflexivity |].
    now destruct (Hall d Hd). }
  split; [| split; [| split; [| split; [| repeat split; reflexivity]]]].
  - intros a face Ha Hface Hnil.
    unfold pick_vertex_color_from_rayhit, picked_index.
    rewrite Ha. cbn [of_option bind]. rewrite Hface. cbn [bind].
    now rewrite Hnil.
  - intros ray_cast w coord Hmiss.
    unfold pick_vertex_color_from_mouse_coord. now rewrite Hmiss.
  - intros c. unfold pick_vertex_color_from_rayhit, picked_index.
    destruct (Attrs.active_color (color_attrs m)) as [a|];
      cbn [of_option bind]; [| discriminate].
    destruct (Py.index (polygons m) hit_face_index) as [face|e];
      cbn [bind]; [| discriminate].
    destruct (length (vertices face) =? 0)%nat eqn:Hlen;
      cbn [bind]; [discriminate |].
    destruct (find_closest magnitude (m_vertices m) hit_loc (vertices face)
                0 PosInf (-1)) as [k|e] eqn:Hk; cbn [bind]; [| discriminate].
    intros _.
    destruct (find_closest_ok magnitude _ _ _ _ _ _ _ Hk) as [ds Hds].
    exists face, k, ds. split; [reflexivity |].
    split; [intros E; rewrite E in Hlen; discriminate Hlen |].
    split; [exact Hds | split; [exact Hk | split]].
    + intros (d & Hd & Hb).
      destruct (find_closest_range magnitude _ _ _ _ _ _ _ _ Hds Hk)
        as [[_ Hall] | [Hr _]]; [| lia].
      unfold below_inf in Hb. rewrite (Hall d Hd) in Hb. discriminate Hb.
    + exact (Hnone face ds k Hds Hk).
  - intros a face ds Ha Hface Hne Hds Hall.
    assert (Hk : find_closest magnitude (m_vertices m) hit_loc (vertices face)
                   0 PosInf (-1) = Ok (-1)%Z).
    { destruct (find_closest magnitude (m_vertices m) hit_loc (vertices face)
                  0 PosInf (-1)) as [k|e] eqn:Hk.
      - now rewrite (Hnone face ds k Hds Hk Hall).
      - exfalso. revert Hk Hds. generalize 0%Z PosInf (-1)%Z. clear.
        generalize (vertices face). intros fv. revert ds.
        induction fv as [|v r IH]; intros ds i b c; simpl; [discriminate |].
        destruct (Py.index (m_vertices m) v) as [p|e']; simpl; [| discriminate].
        destruct (face_distances magnitude (m_vertices m) hit_loc r)
          as [ds'|e'] eqn:Er; simpl; [| discriminate].
        intros Hk _.
        destruct (flt (magnitude (vsub p hit_loc)) b);
          exact (IH ds' _ _ _ Hk eq_refl). }
    split; [exact Hk |].
    exact (pick_reads magnitude m hit_loc hit_face_index a face _
             Ha Hface Hne Hk).
Qed.

Example empty_face_example :
  pick_vertex_color_from_rayhit axis_magnitude
    (Mesh [] [] [Polygon [] []]
          (ColorAttributes [Attribute "Col" FLOAT_COLOR POINT []] (Some "Col")))
    (Vec3 0 0 0) 0 = Ok None.
Proof. reflexivity. Qed.

(** ** Cleanup of the sampler *)

Lemma filter_absent (t : nat) (timers : list nat) :
  existsb (Nat.eqb t) timers = false ->
  List.filter (fun x => negb (Nat.eqb t x)) timers = timers.
Proof.
  induction timers as [|x r IH]; simpl; [reflexivity |].
  destruct (Nat.eqb t x); simpl; [discriminate |].
  intros H. now rewrite IH.
Qed.

(** What [sample_vertex_color_end] leaves of each resource: a function of
    that resource alone (and, for the timer, of the handle and the
    window manager), whatever else the context is missing. *)
Lemma sample_vertex_color_end_fields (w : world) :
  let w' := sample_vertex_color_end w in
  window w' = match window w with Some _ => Some None | None => None end /\
  area w' = match area w with Some _ => Some None | None => None end /\
  vertex_paint w' =
    match vertex_paint w with
    | Some _ => Some (prev_show_brush w)
    | None => None
    end /\
  workspace w' = match workspace w with Some _ => Some None | None => None end /\
  sample_vertex_color_timer w' =
    match sample_vertex_color_timer w, window_manager w with
    | None, _ => None
    | Some t, Some timers =>
        if existsb (Nat.eqb t) timers then None else Some t
    | Some t, None => Some t
    end /\
  window_manager w' =
    match sample_vertex_color_timer w, window_manager w with
    | Some t, Some timers =>
        Some (List.filter (fun x => negb (Nat.eqb t x)) timers)
    | _, wm => wm
    end /\
  brush w' = brush w /\
  active_object w' = active_object w /\
  prev_show_brush w' = prev_show_brush w /\
  info_log w' = info_log w.
Proof.
  destruct w as [win ar wm vp br ws ob timer psb log].
  unfold sample_vertex_color_end, end_steps. cbn [foldl].
  unfold try_pass, cursor_modal_restore, header_text_set, end_timer_step,
    set_show_brush, status_text_set, event_timer_remove.
  destruct win, ar, vp, ws, timer as [t|], wm as [timers|];
    cbn; try (destruct (existsb (Nat.eqb t) timers) eqn:E; cbn);
    repeat split; try reflexivity.
  all: f_equal; symmetry; now apply filter_absent.
Qed.

Lemma world_eta (w : world) : set_timer w (sample_vertex_color_timer w) = w.
Proof. now destruct w. Qed.

(** Each guarded step does nothing, and does not fail, when its resource
    is absent. *)
Lemma end_steps_tolerant (w : world) :
  (window w = None -> try_pass cursor_modal_restore w = w) /\
  (area w = None -> try_pass (header_text_set None) w = w) /\
  (sample_vertex_color_timer w = None -> try_pass end_timer_step w = w) /\
  (window_manager w = None -> try_pass end_timer_step w = w) /\
  (vertex_paint w = None ->
   try_pass (fun w => set_show_brush (prev_show_brush w) w) w = w) /\
  (workspace w = None -> try_pass (status_text_set None) w = w).
Proof.
  unfold try_pass, cursor_modal_restore, header_text_set, end_timer_step,
    set_show_brush, status_text_set, event_timer_remove.
  repeat split; intros H; rewrite ?H; try reflexivity.
  - cbn. rewrite <- H. apply world_eta.
  - destruct (sample_vertex_color_timer w) eqn:E; cbn; [reflexivity |].
    rewrite <- E. apply world_eta.
Qed.

(** C9: when the sampling step of a tick raises, [modal] runs the whole of
    [sample_vertex_color_end] on the world as the failed step left it
    and only then lets the exception through; the cleanup is its five
    guarded steps in order, each of which leaves the world alone when
    its resource is absent, and each resource that is present is
    restored whatever else is missing. *)
Theorem sampler_error_runs_cleanup (magnitude : vec3 -> float)
    (color_srgb : rgba -> rgba)
    (ray_cast : world -> Z * Z -> option (vec3 * Z))
    (first_modal : bool) (w : world) (ev : event) (w1 : world) (e : exn) :
  sample_tick first_modal ev = true ->
  do_sample magnitude color_srgb ray_cast w ev = (w1, Raise e) ->
  modal magnitude color_srgb ray_cast first_modal w ev
    = (sample_vertex_color_end w1, false, Raise e) /\
  sample_vertex_color_end w1 =
    try_pass (status_text_set None)
      (try_pass (fun w => set_show_brush (prev_show_brush w) w)
         (try_pass end_timer_step
            (try_pass (header_text_set None)
               (try_pass cursor_modal_restore w1)))) /\
  (forall w0 : world,
      (window w0 = None -> try_pass cursor_modal_restore w0 = w0) /\
      (area w0 = None -> try_pass (header_text_set None) w0 = w0) /\
      (sample_vertex_color_timer w0 = None -> try_pass end_timer_step w0 = w0) /\
      (window_manager w0 = None -> try_pass end_timer_step w0 = w0) /\
      (vertex_paint w0 = None ->
       try_pass (fun w => set_show_brush (prev_show_brush w) w) w0 = w0) /\
      (workspace w0 = None -> try_pass (status_text_set None) w0 = w0)) /\
  (let w' := sample_vertex_color_end w1 in
   window w' = match window w1 with Some _ => Some None | None => None end /\
   area w' = match area w1 with Some _ => Some None | None => None end /\
   vertex_paint w' =
     match vertex_paint w1 with
     | Some _ => Some (prev_show_brush w1)
     | None => None
     end /\
   workspace w' =
     match workspace w1 with Some _ => Some None | None => None end /\
   sample_vertex_color_timer w' =
     match sample_vertex_color_timer w1, window_manager w1 with
     | None, _ => None
     | Some t, Some timers =>
         if existsb (Nat.eqb t) timers then None else Some t
     | Some t, None => Some t
     end).
Proof.
  intros Htick Hsample. split; [| split; [| split]].
  - unfold modal. now rewrite Htick, Hsample.
  - reflexivity.
  - intros w0. apply end_steps_tolerant.
  - destruct (sample_vertex_color_end_fields w1) as (H1 & H2 & H3 & H4 & H5 & _).
    cbn zeta. auto.
Qed.

Lemma sampler_error_runs_cleanup_witness :
  modal axis_magnitude id hit_face_0 false (session broken_mesh) timer_tick
  = (World (Some None) None (Some []) (Some true) None (Some None)
           broken_mesh None true [],
     false,
     Raise (Exception (point_count_msg 0 3))).
Proof.
  exact (proj1 (sampler_error_runs_cleanup axis_magnitude id hit_face_0 false
                  (session broken_mesh) timer_tick (session broken_mesh)
                  (Exception (point_count_msg 0 3)) eq_refl eq_refl)).
Defined.

(** ** Formatting of the sampled colour *)

Lemma round_between (q : Q) (lo hi : Z) :
  (inject_Z lo <= q)%Q -> (q <= inject_Z hi)%Q ->
  (lo <= Py.round q <= hi)%Z.
Proof.
  intros Hlo Hhi.
  assert (Hf1 : (lo <= Qfloor q)%Z).
  { rewrite <- (Qfloor_Z lo). now apply Qfloor_resp_le. }
  assert (Hf2 : (Qfloor q <= hi)%Z).
  { rewrite <- (Qfloor_Z hi). now apply Qfloor_resp_le. }
  assert (Hup : (1 # 2 <= q - inject_Z (Qfloor q))%Q -> (Qfloor q + 1 <= hi)%Z).
  { intros Hd.
    destruct (Z_lt_le_dec (Qfloor q) hi) as [Hlt | Hge]; [lia |].
    exfalso. rewrite Zle_Qle in Hge. lra. }
  unfold Py.round.
  destruct (q - inject_Z (Qfloor q) ?= 1 # 2)%Q eqn:E.
  - apply Qeq_alt in E.
    destruct (Z.even (Qfloor q)); [lia |].
    split; [lia | apply Hup; lra].
  - lia.
  - apply Qgt_alt in E. split; [lia | apply Hup; lra].
Qed.

Lemma below_bound (P : Z -> bool) (n : nat) :
  forallb (fun k => P (Z.of_nat k)) (seq 0 (S n)) = true ->
  forall z, (0 <= z <= Z.of_nat n)%Z -> P z = true.
Proof.
  intros H z Hz. rewrite forallb_forall in H.
  rewrite <- (Z2Nat.id z) by lia. apply H. apply in_seq. lia.
Qed.

Lemma format_3f_shape (m : Z) :
  (0 <= m <= 1000)%Z ->
  three_decimals
    (Py.str_of_Z (m / 1000) ++ "." ++
     String (digit (m / 100 mod 10))
       (String (digit (m / 10 mod 10)) (String (digit (m mod 10)) "")))
  = true.
Proof.
  intros Hm.
  apply (below_bound
           (fun m => three_decimals
              (Py.str_of_Z (m / 1000) ++ "." ++
               String (digit (m / 100 mod 10))
                 (String (digit (m / 10 mod 10))
                    (String (digit (m mod 10)) ""))))
           1000); [vm_compute; reflexivity | exact Hm].
Qed.

Lemma format_02X_byte (b : Z) :
  (0 <= b <= 255)%Z -> hex2_value (format_02X b) = Some b.
Proof.
  intros Hb.
  assert (H : hex_round_trip b = true).
  { apply (below_bound hex_round_trip 255); [vm_compute; reflexivity | exact Hb]. }
  unfold hex_round_trip in H.
  destruct (hex2_value (format_02X b)) as [v|]; [| discriminate].
  apply Z.eqb_eq in H. now subst.
Qed.

Lemma f2s_unit (v : Q) :
  (0 <= v <= 1)%Q ->
  if Py.is_integer v
  then Py.chr_in "." (f2s v) = false /\ (f2s v = "0" \/ f2s v = "1")
  else three_decimals (f2s v) = true.
Proof.
  intros [H0 H1]. unfold f2s.
  assert (Hpos : Qle_bool 0 v = true) by now apply Qle_bool_iff.
  destruct (Py.is_integer v).
  - unfold Py.int. rewrite Hpos.
    assert (Hf : (0 <= Qfloor v <= 1)%Z).
    { split.
      - rewrite <- (Qfloor_Z 0). now apply Qfloor_resp_le.
      - rewrite <- (Qfloor_Z 1). now apply Qfloor_resp_le. }
    assert (E : Qfloor v = 0%Z \/ Qfloor v = 1%Z) by lia.
    destruct E as [-> | ->]; split; auto.
  - unfold format_3f. rewrite Hpos.
    apply format_3f_shape. apply round_between.
    + pose proof (Qabs_nonneg v). change (inject_Z 0) with 0%Q. lra.
    + assert (Habs : (Qabs v <= 1)%Q) by (apply Qabs_Qle_condition; lra).
      change (inject_Z 1000) with 1000%Q. lra.
Qed.

(** [round] gives the nearest integer, the even one of the two at a
    half. *)
Lemma round_nearest (q : Q) : nearest_even q (Py.round q).
Proof.
  unfold nearest_even, Py.round.
  pose proof (Qfloor_le q) as Hlo.
  pose proof (Qlt_floor q) as Hhi.
  rewrite inject_Z_plus in Hhi. change (inject_Z 1) with 1%Q in Hhi.
  destruct (q - inject_Z (Qfloor q) ?= 1 # 2)%Q eqn:E.
  - apply Qeq_alt in E.
    destruct (Z.even (Qfloor q)) eqn:Ev.
    + split; [apply Qabs_Qle_condition; lra | intros _; exact Ev].
    + rewrite inject_Z_plus. change (inject_Z 1) with 1%Q.
      split; [apply Qabs_Qle_condition; lra |].
      intros _. rewrite Z.even_add, Ev. reflexivity.
  - apply Qlt_alt in E. split; [apply Qabs_Qle_condition; lra |].
    intros H. exfalso.
    assert (Hlt : (Qabs (q - inject_Z (Qfloor q)) < 1 # 2)%Q)
      by (apply Qabs_Qlt_condition; lra).
    lra.
  - apply Qgt_alt in E. rewrite inject_Z_plus. change (inject_Z 1) with 1%Q.
    split; [apply Qabs_Qle_condition; lra |].
    intros H. exfalso.
    assert (Hlt : (Qabs (q - (inject_Z (Qfloor q) + 1)) < 1 # 2)%Q)
      by (apply Qabs_Qlt_condition; lra).
    lra.
Qed.

Lemma format_3f_value (m : Z) :
  (0 <= m <= 1000)%Z ->
  thousandths
    (Py.str_of_Z (m / 1000) ++ "." ++
     String (digit (m / 100 mod 10))
       (String (digit (m / 10 mod 10)) (String (digit (m mod 10)) "")))
  = Some m.
Proof.
  intros Hm.
  assert (H : thousandths_round_trip m = true).
  { apply (below_bound thousandths_round_trip 1000);
      [vm_compute; reflexivity | exact Hm]. }
  unfold thousandths_round_trip in H.
  destruct (thousandths _) as [v|]; [| discriminate].
  apply Z.eqb_eq in H. now subst.
Qed.

(** What [f2s] prints for a component in [0,1]: [0] and [1] as such,
    anything else as the nearest number of thousandths. *)
Lemma f2s_value (v : Q) :
  (0 <= v <= 1)%Q ->
  (v == 0 -> f2s v = "0")%Q /\
  (v == 1 -> f2s v = "1")%Q /\
  (~ v == 0 -> ~ v == 1 ->
   exists n, thousandths (f2s v) = Some n /\ nearest_even (v * 1000) n)%Q.
Proof.
  intros [H0 H1].
  assert (Hpos : Qle_bool 0 v = true) by now apply Qle_bool_iff.
  assert (Hf : (0 <= Qfloor v <= 1)%Z).
  { split.
    - rewrite <- (Qfloor_Z 0). now apply Qfloor_resp_le.
    - rewrite <- (Qfloor_Z 1). now apply Qfloor_resp_le. }
  assert (Hint : forall k : Z, (v == inject_Z k)%Q ->
                               f2s v = Py.str_of_Z k).
  { intros k Hk.
    assert (Hfl : Qfloor v = k) by (rewrite Hk; apply Qfloor_Z).
    unfold f2s, Py.is_integer, Py.int. rewrite Hpos, Hfl.
    now rewrite (proj2 (Qeq_bool_iff _ _) Hk). }
  split; [| split].
  - intros E. exact (Hint 0%Z E).
  - intros E. exact (Hint 1%Z E).
  - intros N0 N1. unfold f2s.
    destruct (Py.is_integer v) eqn:Ei.
    + exfalso. unfold Py.is_integer in Ei. apply Qeq_bool_iff in Ei.
      assert (E : Qfloor v = 0%Z \/ Qfloor v = 1%Z) by lia.
      destruct E as [E | E]; rewrite E in Ei; [now apply N0 | now apply N1].
    + unfold format_3f. rewrite Hpos.
      assert (Habs : (Qabs v == v)%Q) by now apply Qabs_pos.
      exists (Py.round (Qabs v * 1000)). split.
      * apply format_3f_value. apply round_between.
        -- change (inject_Z 0) with 0%Q. lra.
        -- change (inject_Z 1000) with 1000%Q. lra.
      * pose proof (round_nearest (Qabs v * 1000)) as [Hn He].
        unfold nearest_even.
        assert (Ha : (Qabs (v * 1000 - inject_Z (Py.round (Qabs v * 1000))) ==
                      Qabs (Qabs v * 1000 - inject_Z (Py.round (Qabs v * 1000))))%Q)
          by (apply Qabs_wd; lra).
        split.
        -- apply Qle_trans with (2 := Hn). apply Qle_lteq. now right.
        -- intros H. apply He.
           apply Qeq_trans with (2 := H). now apply Qeq_sym.
Qed.

Lemma scaled_byte (v : Q) :
  (0 <= v <= 1)%Q -> (0 <= Py.round (v * 255) <= 255)%Z.
Proof.
  intros [H0 H1]. apply round_between.
  - change (inject_Z 0) with 0%Q. lra.
  - change (inject_Z 255) with 255%Q. lra.
Qed.

Lemma col_to_hex_components (c : rgba) :
  col_to_hex (components c) =
    Ok ("#" ++ format_02X (Py.round (c_r c * 255)) ++
               format_02X (Py.round (c_g c * 255)) ++
               format_02X (Py.round (c_b c * 255)) ++
        (if (Py.round (c_a c * 255) =? 255)%Z then ""
         else format_02X (Py.round (c_a c * 255)))).
Proof.
  unfold col_to_hex, components. cbn [map length Nat.eqb].
  generalize (Py.round (c_r c * 255)) (Py.round (c_g c * 255))
    (Py.round (c_b c * 255)) (Py.round (c_a c * 255)).
  intros R G B A.
  change (Py.index [R; G; B; A] 0) with (Ok R).
  change (Py.index [R; G; B; A] 1) with (Ok G).
  change (Py.index [R; G; B; A] 2) with (Ok B).
  change (Py.index [R; G; B; A] 3) with (Ok A).
  cbn [bind].
  destruct (A =? 255)%Z; cbn [negb]; f_equal.
  - now rewrite !append_nil_r.
  - now rewrite !append_assoc.
Qed.

(** C7: for colours with components in [0,1], every component prints
    without a decimal point when it is an integer ([0] and [1] print as
    such) and otherwise as one digit, a point and exactly three
    decimals that read as the number of thousandths nearest to the
    component; the hex string is [#RRGGBB] of the components scaled to
    0..255 and rounded, with a two-digit alpha appended exactly when the
    rounded alpha is not 255; the decimal string of a colour is its four
    printed components joined by a comma and a space; and the report is
    one combined line when the linear and display decimal strings
    agree, two labelled ones otherwise. *)
Theorem sampled_color_formatting (lin srgb : rgba) :
  unit_color lin ->
  unit_color srgb ->
  (forall v, In v (components lin ++ components srgb)%list ->
             (if Py.is_integer v
              then Py.chr_in "." (f2s v) = false
              else three_decimals (f2s v) = true) /\
             (Qeq v 0 -> f2s v = "0") /\
             (Qeq v 1 -> f2s v = "1") /\
             (~ Qeq v 0 -> ~ Qeq v 1 ->
              three_decimals (f2s v) = true /\
              exists n, thousandths (f2s v) = Some n /\
                        nearest_even (v * 1000) n)) /\
  (forall c, c = lin \/ c = srgb ->
     let R := Py.round (c_r c * 255) in
     let G := Py.round (c_g c * 255) in
     let B := Py.round (c_b c * 255) in
     let A := Py.round (c_a c * 255) in
     (0 <= R <= 255)%Z /\ (0 <= G <= 255)%Z /\
     (0 <= B <= 255)%Z /\ (0 <= A <= 255)%Z /\
     hex2_value (format_02X R) = Some R /\
     hex2_value (format_02X G) = Some G /\
     hex2_value (format_02X B) = Some B /\
     hex2_value (format_02X A) = Some A /\
     col_to_hex (components c) =
       Ok ("#" ++ format_02X R ++ format_02X G ++ format_02X B ++
           (if (A =? 255)%Z then "" else format_02X A))) /\
  (forall c,
     col_to_str (components c) =
       f2s (c_r c) ++ ", " ++ f2s (c_g c) ++ ", " ++
       f2s (c_b c) ++ ", " ++ f2s (c_a c)) /\
  (exists hex_lin hex_srgb,
     col_to_hex (components lin) = Ok hex_lin /\
     col_to_hex (components srgb) = Ok hex_srgb /\
     (col_to_str (components lin) = col_to_str (components srgb) ->
      report_line (components lin) (components srgb) =
        Ok ("Color is  " ++ hex_lin ++ " (" ++
            col_to_str (components lin) ++ ")")) /\
     (col_to_str (components lin) <> col_to_str (components srgb) ->
      report_line (components lin) (components srgb) =
        Ok ("Linear color is  " ++ hex_lin ++ " (" ++
            col_to_str (components lin) ++ ")  |  SRGB color is " ++
            hex_srgb ++ " (" ++ col_to_str (components srgb) ++ ")"))).
Proof.
  intros Hlin Hsrgb.
  assert (Hunit : forall c, c = lin \/ c = srgb -> unit_color c)
    by (intros c [-> | ->]; assumption).
  split; [| split; [| split]].
  - intros v Hv.
    assert (Hb : (0 <= v <= 1)%Q).
    { apply in_app_or in Hv as [Hv | Hv];
        [ exact (proj1 (List.Forall_forall _ _) Hlin v Hv)
        | exact (proj1 (List.Forall_forall _ _) Hsrgb v Hv) ]. }
    pose proof (f2s_unit v Hb) as H.
    destruct (f2s_value v Hb) as (V0 & V1 & Vn).
    split; [destruct (Py.is_integer v); [exact (proj1 H) | exact H] |].
    split; [exact V0 | split; [exact V1 |]].
    intros N0 N1. split; [| exact (Vn N0 N1)].
    destruct (Py.is_integer v) eqn:Ei; [| exact H].
    exfalso. destruct H as [_ [E | E]].
    + destruct (Vn N0 N1) as (n & Hn & _). rewrite E in Hn. discriminate Hn.
    + destruct (Vn N0 N1) as (n & Hn & _). rewrite E in Hn. discriminate Hn.
  - intros c Hc. specialize (Hunit c Hc). unfold unit_color, components in Hunit.
    inversion Hunit as [| ? ? Hr Hu1]; subst.
    inversion Hu1 as [| ? ? Hg Hu2]; subst.
    inversion Hu2 as [| ? ? Hbl Hu3]; subst.
    inversion Hu3 as [| ? ? Hal _]; subst.
    cbv zeta.
    pose proof (scaled_byte _ Hr). pose proof (scaled_byte _ Hg).
    pose proof (scaled_byte _ Hbl). pose proof (scaled_byte _ Hal).
    repeat (split; [assumption |]).
    repeat (split; [now apply format_02X_byte |]).
    apply col_to_hex_components.
  - intros c. reflexivity.
  - eexists. eexists.
    split; [apply col_to_hex_components |].
    split; [apply col_to_hex_components |].
    unfold report_line. rewrite !col_to_hex_components. cbn [bind].
    split; intros H.
    + rewrite H, String.eqb_refl. reflexivity.
    + apply String.eqb_neq in H. rewrite H. reflexivity.
Qed.

Lemma unit_half_red : unit_color (RGBA (1 # 2) 0 0 1).
Proof.
  repeat constructor; unfold Qle; simpl; lia.
Defined.

Lemma unit_display_red : unit_color (RGBA (188 # 255) 0 0 1).
Proof.
  repeat constructor; unfold Qle; simpl; lia.
Defined.

Lemma sampled_color_formatting_witness :
  three_decimals (f2s (1 # 2)) = true /\
  (exists n, thousandths (f2s (1 # 2)) = Some n /\
             nearest_even ((1 # 2) * 1000) n) /\
  f2s 1 = "1" /\
  f2s 0 = "0" /\
  col_to_hex (components (RGBA (1 # 2) 0 0 1)) = Ok "#800000" /\
  exists hex_lin hex_srgb,
    report_line (components (RGBA (1 # 2) 0 0 1))
                (components (RGBA (188 # 255) 0 0 1)) =
      Ok ("Linear color is  " ++ hex_lin ++ " (" ++
          col_to_str (components (RGBA (1 # 2) 0 0 1)) ++
          ")  |  SRGB color is " ++ hex_srgb ++ " (" ++
          col_to_str (components (RGBA (188 # 255) 0 0 1)) ++ ")").
Proof.
  destruct (sampled_color_formatting (RGBA (1 # 2) 0 0 1)
              (RGBA (188 # 255) 0 0 1) unit_half_red unit_display_red)
    as (Hdec & Hhex & Hstr & hl & hs & _ & _ & _ & Hrep).
  assert (Hhalf : In (1 # 2)%Q (components (RGBA (1 # 2) 0 0 1) ++
                              components (RGBA (188 # 255) 0 0 1))%list)
    by (simpl; tauto).
  assert (Hone : In 1%Q (components (RGBA (1 # 2) 0 0 1) ++
                         components (RGBA (188 # 255) 0 0 1))%list)
    by (simpl; tauto).
  assert (Hzero : In 0%Q (components (RGBA (1 # 2) 0 0 1) ++
                          components (RGBA (188 # 255) 0 0 1))%list)
    by (simpl; tauto).
  assert (Hn0 : ~ Qeq (1 # 2) 0) by discriminate.
  assert (Hn1 : ~ Qeq (1 # 2) 1) by discriminate.
  split; [exact (proj1 (proj2 (proj2 (proj2 (Hdec _ Hhalf))) Hn0 Hn1)) |].
  split; [exact (proj2 (proj2 (proj2 (proj2 (Hdec _ Hhalf))) Hn0 Hn1)) |].
  split; [exact (proj1 (proj2 (proj2 (Hdec _ Hone))) (Qeq_refl 1)) |].
  split; [exact (proj1 (proj2 (Hdec _ Hzero)) (Qeq_refl 0)) |].
  split; [reflexivity |].
  exists hl, hs. apply Hrep. discriminate.
Defined.

Example format_examples :
  col_to_hex (components (RGBA 1 1 1 1)) = Ok "#FFFFFF" /\
  col_to_hex (components (RGBA 1 0 0 (1 # 2))) = Ok "#FF000080" /\
  report_line (components (RGBA 1 1 1 1)) (components (RGBA 1 1 1 1)) =
    Ok "Color is  #FFFFFF (1, 1, 1, 1)" /\
  report_line (components (RGBA (1 # 2) 0 0 1))
              (components (RGBA (188 # 255) 0 0 1)) =
    Ok "Linear color is  #800000 (0.500, 0, 0, 1)  |  SRGB color is #BC0000 (0.737, 0, 0, 1)".
Proof. repeat split; reflexivity. Qed.

(** ** Masks: copy to the mask, copy back *)

Lemma to_mask_loop (base mask : list rgba) (mk : rgba -> rgba) :
  length base = length mask ->
  for_range (length base) (to_mask_step base mk) mask = Ok (map mk base).
Proof.
  intros Hlen. rewrite Hlen.
  rewrite (for_range_elementwise _
             (fun i e => match base !! i with Some b => mk b | None => e end)).
  - f_equal. apply list_eq. intros i.
    rewrite list_lookup_imap, map_fmap, list_lookup_fmap.
    destruct (base !! i) as [b|] eqn:Eb.
    + destruct (lookup_lt_is_Some_2 mask i) as [e ->]; [| reflexivity].
      rewrite <- Hlen. apply lookup_lt_is_Some. eauto.
    + rewrite (lookup_ge_None_2 mask i); [reflexivity |].
      rewrite <- Hlen. now apply lookup_ge_None.
  - intros i l e He Hl. unfold to_mask_step, read, write.
    destruct (lookup_lt_is_Some_2 base i) as [b Hb].
    { rewrite Hlen, <- Hl. apply lookup_lt_is_Some. eauto. }
    rewrite Hb, He. reflexivity.
Qed.

Lemma from_mask_step_spec (mask : list rgba) (moves : list (nat * nat))
    (i : nat) (mc : rgba) :
  mask !! i = Some mc ->
  forall (l : list rgba) (e : rgba),
    l !! i = Some e ->
    from_mask_step mask moves i l = Ok (<[i := apply_moves mc moves e]> l).
Proof.
  intros Hm. induction moves as [|[dst src] rest IH]; intros l e He; simpl.
  - now rewrite list_insert_id.
  - unfold from_mask_assign, read, write_chan. rewrite Hm, He. cbn [of_option bind].
    rewrite (IH _ (set_chan e dst (chan mc src))).
    + now rewrite list_insert_insert_eq.
    + apply list_lookup_insert_eq. apply lookup_lt_is_Some. eauto.
Qed.

Lemma from_mask_loop (base mask : list rgba) (moves : list (nat * nat)) :
  length base = length mask ->
  for_range (length base) (from_mask_step mask moves) base
  = Ok (imap (fun i e => match mask !! i with
                         | Some mc => apply_moves mc moves e
                         | None => e
                         end) base).
Proof.
  intros Hlen. apply for_range_elementwise. intros i l e He Hl.
  destruct (lookup_lt_is_Some_2 mask i) as [mc Hm].
  { rewrite <- Hlen, <- Hl. apply lookup_lt_is_Some. eauto. }
  rewrite Hm. now apply from_mask_step_spec.
Qed.

Lemma copy_to_mask_spec (base mask : attribute) (ch : string) :
  In ch valid_codes ->
  length (data base) = length (data mask) ->
  copy_to_mask base mask ch = Ok (map (masked ch) (data base)).
Proof.
  intros Hch Hlen. unfold copy_to_mask.
  rewrite Hlen, Nat.eqb_refl. cbn [negb]. rewrite <- Hlen.
  simpl in Hch.
  repeat (destruct Hch as [<- | Hch];
          [ cbn [String.eqb Ascii.eqb Bool.eqb andb];
            rewrite to_mask_loop by exact Hlen; reflexivity |]).
  contradiction.
Qed.

Lemma copy_from_mask_spec (base mask : attribute) (ch : string) :
  In ch valid_codes ->
  length (data base) = length (data mask) ->
  copy_from_mask base mask ch =
    Ok (imap (fun i e => match data mask !! i with
                         | Some mc => unmasked ch mc e
                         | None => e
                         end) (data base)).
Proof.
  intros Hch Hlen. unfold copy_from_mask.
  rewrite Hlen, Nat.eqb_refl. cbn [negb]. rewrite <- Hlen.
  simpl in Hch.
  repeat (destruct Hch as [<- | Hch];
          [ cbn [String.eqb Ascii.eqb Bool.eqb andb];
            rewrite from_mask_loop by exact Hlen; reflexivity |]).
  contradiction.
Qed.

(** Copying back what was copied out changes nothing in the base. *)
Lemma unmasked_masked (ch : string) (b : rgba) :
  In ch valid_codes -> unmasked ch (masked ch b) b = b.
Proof.
  intros Hch. simpl in Hch. destruct b as [r g bl a].
  repeat (destruct Hch as [<- | Hch]; [reflexivity |]).
  contradiction.
Qed.

(** Copying a mask back gives the code's channels the values the mask
    took from [b] and keeps the other channels of [e]. *)
Lemma unmasked_channels (ch : string) (b e : rgba) (k : nat) :
  In ch valid_codes ->
  chan (unmasked ch (masked ch b) e) k =
    if in_code ch k then chan b k else chan e k.
Proof.
  intros Hch. simpl in Hch.
  repeat (destruct Hch as [<- | Hch];
          [ destruct k as [|[|[|[|k]]]]; reflexivity |]).
  contradiction.
Qed.

(** A mask made from [base] and copied back into a layer [edited] of the
    same size: the code's channels are those of [base], the others those
    of [edited]. *)
Lemma copy_round_trip (base mask edited : attribute) (ch : string) :
  In ch valid_codes ->
  length (data base) = length (data mask) ->
  length (data edited) = length (data base) ->
  exists md d,
    copy_to_mask base mask ch = Ok md /\
    copy_from_mask edited
      (Attribute (name mask) (a_data_type mask) (a_domain mask) md) ch = Ok d /\
    length d = length (data base) /\
    forall i b e,
      data base !! i = Some b -> data edited !! i = Some e ->
      exists r, d !! i = Some r /\
                forall k, chan r k = if in_code ch k then chan b k else chan e k.
Proof.
  intros Hch Hlen Hed.
  exists (map (masked ch) (data base)). eexists.
  split; [now apply copy_to_mask_spec |].
  split.
  { apply copy_from_mask_spec; [exact Hch |].
    cbn [data]. now rewrite length_map. }
  split; [now rewrite length_imap |].
  intros i b e Hb He. cbn [data].
  rewrite list_lookup_imap, He, map_fmap, list_lookup_fmap, Hb. cbn.
  eexists. split; [reflexivity |].
  intros k. now apply unmasked_channels.
Qed.

Lemma copy_round_trip_same (base : attribute) (ch : string)
    (nm : string) (t : data_type) (dm : domain) :
  In ch valid_codes ->
  copy_from_mask base (Attribute nm t dm (map (masked ch) (data base))) ch
  = Ok (data base).
Proof.
  intros Hch.
  rewrite copy_from_mask_spec; [| exact Hch | cbn [data]; now rewrite length_map].
  f_equal. apply list_eq. intros i. cbn [data].
  rewrite list_lookup_imap, map_fmap, list_lookup_fmap.
  destruct (data base !! i) as [b|]; cbn; [| reflexivity].
  now rewrite unmasked_masked.
Qed.

(** ** Layer collections *)

Lemma get_in (nm : string) (l : list attribute) (a : attribute) :
  Attrs.get nm l = Some a -> In a l.
Proof. unfold Attrs.get. intros H. now apply find_some in H. Qed.

Lemma get_app_l (nm : string) (l r : list attribute) (a : attribute) :
  Attrs.get nm l = Some a -> Attrs.get nm (l ++ r)%list = Some a.
Proof.
  unfold Attrs.get. induction l as [|x l IH]; simpl; [discriminate |].
  destruct (String.eqb (name x) nm); [trivial | exact IH].
Qed.

Lemma get_app_r (nm : string) (l r : list attribute) :
  Attrs.get nm l = None -> Attrs.get nm (l ++ r)%list = Attrs.get nm r.
Proof.
  unfold Attrs.get. induction l as [|x l IH]; simpl; [reflexivity |].
  destruct (String.eqb (name x) nm); [discriminate | exact IH].
Qed.

Lemma set_data_app_r (nm : string) (d : list rgba) (l r : list attribute) :
  Attrs.get nm l = None ->
  Attrs.set_data nm d (l ++ r)%list = (l ++ Attrs.set_data nm d r)%list.
Proof.
  unfold Attrs.get. induction l as [|x l IH]; simpl; [reflexivity |].
  destruct (String.eqb (name x) nm); [discriminate |].
  intros H. now rewrite IH.
Qed.

Lemma set_data_app_l (nm : string) (d : list rgba) (l r : list attribute)
    (a : attribute) :
  Attrs.get nm l = Some a ->
  Attrs.set_data nm d (l ++ r)%list = (Attrs.set_data nm d l ++ r)%list.
Proof.
  unfold Attrs.get. induction l as [|x l IH]; simpl; [discriminate |].
  destruct (String.eqb (name x) nm); [reflexivity |].
  intros H. now rewrite IH.
Qed.

Lemma get_set_data_none (nm nm' : string) (d : list rgba) (l : list attribute) :
  Attrs.get nm' l = None -> Attrs.get nm' (Attrs.set_data nm d l) = None.
Proof.
  unfold Attrs.get. induction l as [|x l IH]; simpl; [reflexivity |].
  destruct (String.eqb (name x) nm') eqn:E'; [discriminate |].
  intros H. destruct (String.eqb (name x) nm); simpl; rewrite E'.
  - exact H.
  - now apply IH.
Qed.

Lemma set_data_twice (nm : string) (d1 d2 : list rgba) (l : list attribute) :
  Attrs.set_data nm d2 (Attrs.set_data nm d1 l) = Attrs.set_data nm d2 l.
Proof.
  induction l as [|x l IH]; simpl; [reflexivity |].
  destruct (String.eqb (name x) nm) eqn:E; simpl; rewrite E.
  - reflexivity.
  - now rewrite IH.
Qed.

Lemma remove_app_r (nm : string) (l r : list attribute) :
  Attrs.get nm l = None ->
  Attrs.remove nm (l ++ r)%list = (l ++ Attrs.remove nm r)%list.
Proof.
  unfold Attrs.get. induction l as [|x l IH]; simpl; [reflexivity |].
  destruct (String.eqb (name x) nm); [discriminate |].
  intros H. now rewrite IH.
Qed.

Lemma contains_get (nm : string) (l : list attribute) :
  Attrs.contains nm l = false <-> Attrs.get nm l = None.
Proof.
  unfold Attrs.contains, Attrs.get.
  induction l as [|x l IH]; simpl; [tauto |].
  destruct (String.eqb (name x) nm); simpl; [split; discriminate | exact IH].
Qed.

(** A non-empty code names a channel of the request. *)
Lemma make_channel_str_shares (channels : list ascii) :
  make_channel_str channels <> "" ->
  exists c, In c channels /\ Py.chr_in c (make_channel_str channels) = true.
Proof.
  unfold make_channel_str.
  destruct (Py.in_set "A" channels) eqn:EA.
  { intros _. exists "A"%char. split; [now apply in_set_In | reflexivity]. }
  destruct (Py.in_set "R" channels) eqn:ER.
  { intros _. exists "R"%char. split; [now apply in_set_In | reflexivity]. }
  destruct (Py.in_set "G" channels) eqn:EG.
  { intros _. exists "G"%char. split; [now apply in_set_In | reflexivity]. }
  destruct (Py.in_set "B" channels) eqn:EB.
  { intros _. exists "B"%char. split; [now apply in_set_In | reflexivity]. }
  intros H. now contradiction H.
Qed.

(** Without a conflict there is no layer with the name of the new mask. *)
Lemma no_conflict_no_mask (l : list attribute) (base_name : string)
    (channels : list ascii) :
  make_channel_str channels <> "" ->
  check_for_conflicting_mask l base_name channels = None ->
  Attrs.get (base_name ++ "__" ++ make_channel_str channels) l = None.
Proof.
  intros Hne Hno.
  destruct (Attrs.get (base_name ++ "__" ++ make_channel_str channels) l)
    as [x|] eqn:E; [| reflexivity].
  exfalso.
  assert (Hv : In (make_channel_str channels) valid_codes).
  { destruct (make_channel_str_valid channels); [contradiction | assumption]. }
  apply (proj1 (check_conflict_none _ _ _) Hno x (get_in _ _ _ E)).
  unfold conflicts_with. rewrite (get_name _ _ _ E).
  rewrite mask_name_is_mask, mask_name_parts by exact Hv. cbn [fst snd].
  split; [reflexivity | split; [reflexivity |]].
  now apply make_channel_str_shares.
Qed.

(** ** Create a mask, then apply it *)

Lemma valid_set_code (channels : list ascii) :
  valid_channel_set channels -> In (make_channel_str channels) valid_codes.
Proof.
  intros (Hne & Hsub & _).
  destruct (make_channel_str_valid channels) as [E | H]; [| exact H].
  exfalso. destruct channels as [|c rest]; [congruence |].
  assert (Hc : In c (c :: rest)) by (simpl; auto).
  pose proof (In_in_set c _ Hc) as Hin.
  unfold make_channel_str in E.
  destruct (Hsub c Hc) as [<- | [<- | [<- | [<- | []]]]];
    rewrite ?Hin in E;
    repeat match type of E with
           | context [Py.in_set ?x ?l] => destruct (Py.in_set x l)
           end; discriminate.
Qed.

Lemma valid_code_nonempty (code : string) : In code valid_codes -> code <> "".
Proof.
  intros H ->. simpl in H.
  repeat (destruct H as [H | H]; [discriminate H |]). contradiction.
Qed.

Lemma resolve_base_get (l : list attribute) (nm : string)
    (act base : attribute) :
  Attrs.get nm l = Some act ->
  resolve_base l act = Some base ->
  Attrs.get (name base) l = Some base.
Proof.
  unfold resolve_base. intros Hact.
  destruct (attr_name_is_mask (name act)).
  - intros H. now rewrite (get_name _ _ _ H).
  - intros [= <-]. now rewrite (get_name _ _ _ Hact).
Qed.

Section CreateApply.

Variable fill : rgba.
Variables (channels : list ascii) (m : mesh) (act base : attribute).

Hypothesis Hvalid : valid_channel_set channels.
Hypothesis Hact : Attrs.active_color (color_attrs m) = Some act.
Hypothesis Hbase : resolve_base (attrs (color_attrs m)) act = Some base.
Hypothesis Hsize : length (data base) = domain_size m (a_domain base).
Hypothesis Hfree :
  check_for_conflicting_mask (attrs (color_attrs m)) (name base) channels
  = None.

Lemma base_is_first : Attrs.get (name base) (attrs (color_attrs m)) = Some base.
Proof.
  unfold Attrs.active_color in Hact.
  destruct (active_color_name (color_attrs m)) as [nm|]; [| discriminate].
  exact (resolve_base_get _ _ _ _ Hact Hbase).
Qed.

Lemma mask_name_free :
  Attrs.get (name base ++ "__" ++ make_channel_str channels)
            (attrs (color_attrs m)) = None.
Proof.
  apply no_conflict_no_mask; [| exact Hfree].
  apply valid_code_nonempty, valid_set_code, Hvalid.
Qed.

Lemma create_mask_execute_creates :
  create_mask_execute fill channels m =
    Ok (Outcome
          (with_color_attrs m
             (ColorAttributes
                (attrs (color_attrs m) ++ [mask_of base channels])%list
                (Some (name base ++ "__" ++ make_channel_str channels))),
           channels)
          [] FINISHED).
Proof.
  pose proof (valid_set_code _ Hvalid) as Hv.
  pose proof base_is_first as Hget.
  pose proof mask_name_free as Hnone.
  unfold create_mask_execute.
  rewrite (proj2 (String.eqb_neq _ _) (valid_code_nonempty _ Hv)).
  rewrite Hact. cbn [of_option bind].
  assert (Hres :
    (if attr_name_is_mask (name act)
     then
       let '(base_name, _) := get_mask_name_parts (name act) in
       match Attrs.get base_name (attrs (color_attrs m)) with
       | Some b => inl b
       | None =>
           inr (ERROR_INVALID_INPUT,
                "Active vertex color attribute '" ++ name act ++
                "' appears to already be a mask, and no base color attribute '" ++
                base_name ++ "' can be found.")
       end
     else inl act) = inl base).
  { unfold resolve_base in Hbase.
    destruct (attr_name_is_mask (name act)).
    - destruct (get_mask_name_parts (name act)) as [bn c]. cbn [fst] in Hbase.
      now rewrite Hbase.
    - now injection Hbase as <-. }
  rewrite Hres, Hfree.
  unfold create_color_channel_mask.
  rewrite Hnone. unfold new_attribute, with_color_attrs.
  cbn [color_attrs attrs active_color_name name a_data_type a_domain data].
  rewrite (get_app_l _ _ _ _ Hget). cbn [of_option bind].
  rewrite copy_to_mask_spec;
    [| exact Hv | cbn [data]; now rewrite length_replicate].
  cbn [bind]. rewrite set_data_app_r by exact Hnone.
  cbn [Attrs.set_data name]. rewrite String.eqb_refl.
  reflexivity.
Qed.

Lemma apply_mask_execute_restores :
  apply_mask_execute
    (with_color_attrs m
       (ColorAttributes
          (attrs (color_attrs m) ++ [mask_of base channels])%list
          (Some (name base ++ "__" ++ make_channel_str channels))))
  = Ok (Outcome
          (with_color_attrs m (ColorAttributes (attrs (color_attrs m)) None))
          [] FINISHED).
Proof.
  pose proof (valid_set_code _ Hvalid) as Hv.
  pose proof base_is_first as Hget.
  pose proof mask_name_free as Hnone.
  unfold mask_of.
  unfold apply_mask_execute, Attrs.active_color, with_color_attrs.
  cbn [color_attrs active_color_name attrs m_vertices m_loops polygons].
  rewrite (get_app_r _ _ _ Hnone).
  unfold Attrs.get at 1. cbn [find name]. rewrite String.eqb_refl.
  cbn [of_option bind name].
  rewrite mask_name_is_mask, mask_name_parts by exact Hv. cbn [negb].
  rewrite (get_app_l _ _ _ _ Hget).
  rewrite copy_round_trip_same by exact Hv.
  cbn [bind].
  rewrite (set_data_app_l _ _ _ _ _ Hget), (set_data_same _ _ _ Hget).
  unfold remove_attribute, with_color_attrs.
  cbn [color_attrs attrs active_color_name name m_vertices m_loops polygons].
  rewrite remove_app_r by exact Hnone.
  cbn [Attrs.remove name]. rewrite !String.eqb_refl.
  now rewrite app_nil_r.
Qed.

(** The base layer may be painted between the two operators: applying
    the mask then gives the channels of the set their values from when
    the mask was created and keeps the painted values of the others. *)
Lemma apply_mask_execute_after_edit (edited : list rgba) :
  length edited = length (data base) ->
  exists d,
    apply_mask_execute
      (with_color_attrs m
         (ColorAttributes
            (Attrs.set_data (name base) edited (attrs (color_attrs m))
             ++ [mask_of base channels])%list
            (Some (name base ++ "__" ++ make_channel_str channels))))
    = Ok (Outcome
            (with_color_attrs m
               (ColorAttributes
                  (Attrs.set_data (name base) d (attrs (color_attrs m))) None))
            [] FINISHED) /\
    length d = length (data base) /\
    forall i b e,
      data base !! i = Some b -> edited !! i = Some e ->
      exists r, d !! i = Some r /\
                forall k, chan r k =
                          if in_code (make_channel_str channels) k
                          then chan b k else chan e k.
Proof.
  intros Hlen.
  pose proof (valid_set_code _ Hvalid) as Hv.
  pose proof base_is_first as Hget.
  pose proof mask_name_free as Hnone.
  pose proof (get_set_data_none (name base) _ edited _ Hnone) as Hnone'.
  pose proof (get_set_data_same _ edited _ _ Hget) as Hget'.
  eexists. split; [| split].
  - unfold mask_of.
    unfold apply_mask_execute, Attrs.active_color, with_color_attrs.
    cbn [color_attrs active_color_name attrs m_vertices m_loops polygons].
    rewrite (get_app_r _ _ _ Hnone').
    unfold Attrs.get at 1. cbn [find name]. rewrite String.eqb_refl.
    cbn [of_option bind name].
    rewrite mask_name_is_mask, mask_name_parts by exact Hv. cbn [negb].
    rewrite (get_app_l _ _ _ _ Hget').
    rewrite copy_from_mask_spec;
      [| exact Hv | cbn [data]; now rewrite length_map].
    cbn [bind data].
    rewrite (set_data_app_l _ _ _ _ _ Hget'), set_data_twice.
    unfold remove_attribute, with_color_attrs.
    cbn [color_attrs attrs active_color_name name m_vertices m_loops polygons].
    rewrite remove_app_r by (now apply get_set_data_none).
    cbn [Attrs.remove name]. rewrite !String.eqb_refl.
    now rewrite app_nil_r.
  - now rewrite length_imap.
  - intros i b e Hb He.
    rewrite list_lookup_imap, He, map_fmap, list_lookup_fmap, Hb. cbn.
    eexists. split; [reflexivity |].
    intros k. now apply unmasked_channels.
Qed.

End CreateApply.

(** C1 (amended): for a valid channel set, a base layer with as many
    elements as the host allocates for its domain, and no existing mask
    of that base sharing a channel with the set, creating the mask and
    applying it both finish, every layer of the mesh (so the base, on
    the channels of the set and on the others, at every element) is as
    before, and no layer with the mask's name is left. *)
Theorem create_then_apply_restores_base (fill : rgba) (channels : list ascii)
    (m : mesh) (act base : attribute) :
  valid_channel_set channels ->
  Attrs.active_color (color_attrs m) = Some act ->
  resolve_base (attrs (color_attrs m)) act = Some base ->
  length (data base) = domain_size m (a_domain base) ->
  check_for_conflicting_mask (attrs (color_attrs m)) (name base) channels
    = None ->
  exists o1 o2,
    create_mask_execute fill channels m = Ok o1 /\
    o_status o1 = FINISHED /\
    Attrs.active_color (color_attrs (fst (o_state o1)))
      = Some (mask_of base channels) /\
    apply_mask_execute (fst (o_state o1)) = Ok o2 /\
    o_status o2 = FINISHED /\
    attrs (color_attrs (o_state o2)) = attrs (color_attrs m) /\
    Attrs.get (name base) (attrs (color_attrs (o_state o2))) = Some base /\
    Attrs.contains (name base ++ "__" ++ make_channel_str channels)
                   (attrs (color_attrs (o_state o2))) = false.
Proof.
  intros Hvalid Hact Hbase Hsize Hfree.
  pose proof (create_mask_execute_creates fill channels m act base
                Hvalid Hact Hbase Hsize Hfree) as Hc.
  pose proof (apply_mask_execute_restores channels m act base
                Hvalid Hact Hbase Hfree) as Ha.
  pose proof (mask_name_free channels m base Hvalid Hfree) as Hnone.
  eexists. eexists.
  split; [exact Hc |]. cbn [o_status o_state fst].
  split; [reflexivity |].
  split.
  { unfold Attrs.active_color, with_color_attrs.
    cbn [color_attrs active_color_name attrs].
    rewrite (get_app_r _ _ _ Hnone).
    unfold Attrs.get, mask_of. cbn [find name]. now rewrite String.eqb_refl. }
  split; [exact Ha |]. cbn [o_status o_state color_attrs attrs with_color_attrs].
  split; [reflexivity |].
  split; [reflexivity |].
  split; [exact (base_is_first m act base Hact Hbase) |].
  now apply contains_get.
Qed.

Lemma valid_set_R : valid_channel_set ["R"%char].
Proof.
  split; [discriminate | split].
  - intros c [<- | []]. simpl. auto.
  - intros [H | []]. discriminate H.
Defined.

Lemma create_then_apply_restores_base_witness :
  exists o1 o2,
    create_mask_execute (RGBA 1 1 1 1) ["R"%char] (one_vertex [col] "Col")
      = Ok o1 /\
    o_status o1 = FINISHED /\
    Attrs.active_color (color_attrs (fst (o_state o1)))
      = Some (mask_of col ["R"%char]) /\
    apply_mask_execute (fst (o_state o1)) = Ok o2 /\
    o_status o2 = FINISHED /\
    attrs (color_attrs (o_state o2)) = [col] /\
    Attrs.get "Col" (attrs (color_attrs (o_state o2))) = Some col /\
    Attrs.contains "Col__R" (attrs (color_attrs (o_state o2))) = false.
Proof.
  exact (create_then_apply_restores_base (RGBA 1 1 1 1) ["R"%char]
           (one_vertex [col] "Col") col col
           valid_set_R eq_refl eq_refl eq_refl eq_refl).
Defined.

(** C1 as stated fails when a mask of the base already shares a channel
    with the request: the create operator selects that mask instead of
    making one, and applying it writes its red and green into the base. *)
Lemma create_then_apply_conflict :
  valid_channel_set ["R"%char] /\
  Attrs.active_color (color_attrs (one_vertex [col; col_rg] "Col")) = Some col /\
  resolve_base [col; col_rg] col = Some col /\
  length (data col) = domain_size (one_vertex [col; col_rg] "Col") (a_domain col) /\
  length (data col) = length (data col_rg) /\
  (exists o1 o2,
      create_mask_execute (RGBA 1 1 1 1) ["R"%char]
        (one_vertex [col; col_rg] "Col") = Ok o1 /\
      apply_mask_execute (fst (o_state o1)) = Ok o2 /\
      attrs (color_attrs (o_state o2)) =
        [layer "Col" [RGBA (9 # 10) (8 # 10) (3 # 10) (4 # 10)]]) /\
  ~ (9 # 10 == 1 # 10)%Q /\
  ~ (8 # 10 == 2 # 10)%Q /\
  ~ create_then_apply_restores (RGBA 1 1 1 1) ["R"%char]
      (one_vertex [col; col_rg] "Col") col.
Proof.
  split; [exact valid_set_R |].
  repeat (split; [reflexivity |]).
  split; [eexists; eexists; repeat split; reflexivity |].
  split; [discriminate |]. split; [discriminate |].
  intros (o1 & o2 & H1 & H2 & H3 & _).
  vm_compute in H1. injection H1 as <-.
  vm_compute in H2. injection H2 as <-.
  vm_compute in H3. discriminate H3.
Qed.

(** * Further properties of the code *)

(** ** Mask names, read back *)

Lemma not_mask_parts (nm : string) :
  attr_name_is_mask nm = false -> get_mask_name_parts nm = (nm, "").
Proof.
  unfold attr_name_is_mask, get_mask_name_parts. intros H.
  repeat (apply orb_false_elim in H as [H ?]).
  repeat match goal with
         | E : Py.endswith nm _ = false |- _ => rewrite E; clear E
         end.
  reflexivity.
Qed.

(** X1: parsing is the inverse of naming: the two parts of a mask name
    joined by [__] give the name back and the second part is one of the
    eight codes, while a name that is not a mask name parses to itself
    with the empty code; so the parsed code is empty exactly for the
    names that are not mask names. *)
Theorem mask_name_parts_reassemble (nm : string) :
  (attr_name_is_mask nm = true ->
   nm = fst (get_mask_name_parts nm) ++ "__" ++ snd (get_mask_name_parts nm) /\
   In (snd (get_mask_name_parts nm)) valid_codes) /\
  (attr_name_is_mask nm = false -> get_mask_name_parts nm = (nm, "")) /\
  (snd (get_mask_name_parts nm) = "" <-> attr_name_is_mask nm = false).
Proof.
  assert (Hyes : attr_name_is_mask nm = true ->
                 nm = fst (get_mask_name_parts nm) ++ "__" ++
                      snd (get_mask_name_parts nm) /\
                 In (snd (get_mask_name_parts nm)) valid_codes).
  { intros H. apply is_mask_has_code in H as (b & c & Hc & ->).
    rewrite mask_name_parts by exact Hc. cbn [fst snd]. auto. }
  split; [exact Hyes | split; [apply not_mask_parts |]].
  split.
  - intros E. destruct (attr_name_is_mask nm) eqn:Hm; [| reflexivity].
    destruct (Hyes eq_refl) as [_ Hin]. rewrite E in Hin.
    exfalso. now apply (valid_code_nonempty "").
  - intros H. now rewrite not_mask_parts.
Qed.

(** ** Channel sets and codes, both ways *)

Lemma make_channel_set_members (s : string) (c : ascii) :
  In c (make_channel_set s) <->
  In c ["R"; "G"; "B"; "A"]%char /\ Py.chr_in c s = true.
Proof.
  unfold make_channel_set.
  destruct (Py.chr_in "R" s) eqn:ER, (Py.chr_in "G" s) eqn:EG,
    (Py.chr_in "B" s) eqn:EB, (Py.chr_in "A" s) eqn:EA;
    cbn [Py.set_add Py.in_set existsb Ascii.eqb Bool.eqb andb orb app];
    (split;
     [ intros H; simpl in H;
       repeat (destruct H as [<- | H]; [split; [simpl; tauto | assumption] |]);
       contradiction
     | intros [Hc Hin]; simpl in Hc;
       destruct Hc as [<- | [<- | [<- | [<- | []]]]];
       first [ congruence | simpl; tauto ] ]).
Qed.

(** X2: the channel code and the channel set determine each other: the
    code of the set of any of the eight codes is that code, and for a
    channel set within R, G, B, A in which A stands alone, the set of
    its code has exactly its members. *)
Theorem channel_code_round_trip :
  (forall code, In code valid_codes ->
                make_channel_str (make_channel_set code) = code) /\
  (forall channels,
      channel_subset channels ->
      (In "A"%char channels -> forall c, In c channels -> c = "A"%char) ->
      forall c, In c (make_channel_set (make_channel_str channels)) <->
                In c channels).
Proof.
  split.
  - intros code H. simpl in H.
    repeat (destruct H as [<- | H]; [reflexivity |]). contradiction.
  - intros channels Hsub Hex c.
    rewrite make_channel_set_members.
    destruct (Py.in_set "A" channels) eqn:EA.
    + pose proof (in_set_In _ _ EA) as HA.
      unfold make_channel_str. rewrite EA. split.
      * intros [_ H]. cbn in H. rewrite orb_false_r in H.
        apply Ascii.eqb_eq in H. now subst.
      * intros H. rewrite (Hex HA c H). split; [simpl; tauto | reflexivity].
    + assert (HnA : ~ In "A"%char channels).
      { intros H. apply In_in_set in H. congruence. }
      split.
      * intros [Hc Hin]. unfold make_channel_str in Hin. rewrite EA in Hin.
        destruct Hc as [<- | [<- | [<- | [<- | []]]]].
        -- destruct (Py.in_set "R" channels) eqn:E; [now apply in_set_In |].
           destruct (Py.in_set "G" channels), (Py.in_set "B" channels);
             discriminate Hin.
        -- destruct (Py.in_set "G" channels) eqn:E; [now apply in_set_In |].
           destruct (Py.in_set "R" channels), (Py.in_set "B" channels);
             discriminate Hin.
        -- destruct (Py.in_set "B" channels) eqn:E; [now apply in_set_In |].
           destruct (Py.in_set "R" channels), (Py.in_set "G" channels);
             discriminate Hin.
        -- destruct (Py.in_set "R" channels), (Py.in_set "G" channels),
             (Py.in_set "B" channels); discriminate Hin.
      * intros H. split; [now apply Hsub |].
        pose proof (In_in_set _ _ H) as Hin.
        unfold make_channel_str. rewrite EA.
        destruct (Hsub c H) as [<- | [<- | [<- | [<- | []]]]];
          [ | | | contradiction ];
          rewrite Hin;
          destruct (Py.in_set "R" channels), (Py.in_set "G" channels),
            (Py.in_set "B" channels); try reflexivity; discriminate Hin.
Qed.

(** ** The channel property keeps alpha on its own *)

(** X3: the update of the operator's channel property leaves a set in
    which A, when present, is the only member; it does not change the
    channel code of the set, changes nothing when A is absent, gives a
    valid channel set for every non-empty set within R, G, B, A, releases
    its guard, repeats to the same set, and does nothing when it runs
    inside itself. *)
Theorem channels_prop_update_exclusive (channels : list ascii) :
  fst (channels_prop_update false channels) = false /\
  (In "A"%char (snd (channels_prop_update false channels)) ->
   snd (channels_prop_update false channels) = ["A"%char]) /\
  make_channel_str (snd (channels_prop_update false channels))
    = make_channel_str channels /\
  (~ In "A"%char channels ->
   snd (channels_prop_update false channels) = channels) /\
  (channels <> [] -> channel_subset channels ->
   valid_channel_set (snd (channels_prop_update false channels))) /\
  channels_prop_update false (snd (channels_prop_update false channels))
    = channels_prop_update false channels /\
  channels_prop_update true channels = (true, channels).
Proof.
  unfold channels_prop_update. cbn [negb fst snd].
  assert (Hone : forall l : list ascii,
             In "A"%char l -> (1 <? length l)%nat = false -> l = ["A"%char]).
  { intros l HA Hlen. apply Nat.ltb_ge in Hlen.
    destruct l as [|x [|y r]]; simpl in *; [contradiction | | lia].
    destruct HA as [-> | []]. reflexivity. }
  assert (Hvalid : valid_channel_set ["A"%char]).
  { split; [discriminate | split].
    - intros c [<- | []]. simpl. tauto.
    - intros _ c [<- | []]. reflexivity. }
  destruct (Py.in_set "A" channels) eqn:EA.
  - pose proof (in_set_In _ _ EA) as HA.
    assert (Hstr : make_channel_str ["A"%char] = make_channel_str channels).
    { unfold make_channel_str. now rewrite EA. }
    destruct (1 <? length channels)%nat eqn:El; cbn [andb].
    + split; [reflexivity |]. split; [reflexivity |].
      split; [exact Hstr |]. split; [tauto |].
      split; [intros _ _; exact Hvalid |]. split; reflexivity.
    + rewrite (Hone _ HA El) in *.
      split; [reflexivity |]. split; [reflexivity |].
      split; [reflexivity |]. split; [tauto |].
      split; [intros _ _; exact Hvalid |]. split; reflexivity.
  - cbn [andb].
    assert (HnA : ~ In "A"%char channels).
    { intros HA. apply In_in_set in HA. congruence. }
    split; [reflexivity |]. split; [tauto |].
    split; [reflexivity |]. split; [reflexivity |].
    split.
    { intros Hne Hsub. split; [exact Hne | split; [exact Hsub | tauto]]. }
    split; [| reflexivity]. now rewrite EA.
Qed.

(** ** The first conflict *)

Lemma first_shared_split (channels : list ascii) (code : string) (c : ascii) :
  first_shared channels code = Some c ->
  exists cb ca,
    channels = (cb ++ c :: ca)%list /\
    Py.chr_in c code = true /\
    forall c', In c' cb -> Py.chr_in c' code = false.
Proof.
  induction channels as [|x rest IH]; simpl; [discriminate |].
  destruct (Py.chr_in x code) eqn:E.
  - intros [= <-]. exists [], rest. repeat split; auto. intros c' [].
  - intros H. destruct (IH H) as (cb & ca & -> & Hc & Hb).
    exists (x :: cb), ca. repeat split; auto.
    intros c' [<- | Hin]; auto.
Qed.

Lemma check_conflict_first (color_attrs : list attribute) (base_name : string)
    (channels : list ascii) (c : ascii) (a : attribute) :
  check_for_conflicting_mask color_attrs base_name channels = Some (c, a) ->
  exists before after cb ca,
    color_attrs = (before ++ a :: after)%list /\
    (forall x, In x before -> ~ conflicts_with base_name channels x) /\
    conflicts_with base_name channels a /\
    channels = (cb ++ c :: ca)%list /\
    Py.chr_in c (snd (get_mask_name_parts (name a))) = true /\
    (forall c', In c' cb ->
                Py.chr_in c' (snd (get_mask_name_parts (name a))) = false).
Proof.
  induction color_attrs as [|x rest IH]; simpl; [discriminate |].
  assert (Hrest :
    check_for_conflicting_mask rest base_name channels = Some (c, a) ->
    ~ conflicts_with base_name channels x ->
    exists before after cb ca,
      x :: rest = (before ++ a :: after)%list /\
      (forall y, In y before -> ~ conflicts_with base_name channels y) /\
      conflicts_with base_name channels a /\
      channels = (cb ++ c :: ca)%list /\
      Py.chr_in c (snd (get_mask_name_parts (name a))) = true /\
      (forall c', In c' cb ->
                  Py.chr_in c' (snd (get_mask_name_parts (name a))) = false)).
  { intros H Hx.
    destruct (IH H) as (before & after & cb & ca & -> & Hb & Hrestc).
    exists (x :: before), after, cb, ca.
    split; [reflexivity |]. split; [| exact Hrestc].
    intros y [<- | Hy]; auto. }
  unfold conflicts_with in *.
  destruct (attr_name_is_mask (name x)) eqn:Em.
  - destruct (get_mask_name_parts (name x)) as [xb xc] eqn:Ep.
    destruct (String.eqb_spec xb base_name) as [Hb | Hb].
    + destruct (first_shared channels xc) as [c'|] eqn:Ef.
      * intros [= <- <-].
        destruct (first_shared_split _ _ _ Ef) as (cb & ca & Hch & Hc & Hcb).
        exists [], rest, cb, ca. rewrite Em, Ep. cbn [fst snd].
        split; [reflexivity |].
        split; [intros y [] |].
        split.
        { split; [reflexivity | split; [exact Hb |]].
          exists c'. split; [| exact Hc]. rewrite Hch.
          apply in_or_app. right. simpl. auto. }
        split; [exact Hch |]. split; [exact Hc | exact Hcb].
      * intros H. apply Hrest; [exact H |].
        cbn [fst snd]. intros (_ & _ & c0 & Hc0 & Hin).
        rewrite (proj1 (first_shared_none channels xc) Ef c0 Hc0) in Hin.
        discriminate.
    + intros H. apply Hrest; [exact H |].
      cbn [fst snd]. intros (_ & Hbase & _). contradiction.
  - intros H. apply Hrest; [exact H |]. intros (Hm & _). congruence.
Qed.

(** X4: the conflict reported is the first one: the layer returned is
    the first layer, in the collection's order, that is a mask of the
    base sharing a channel with the request, and the character returned
    is the first one, in the order the channel set is iterated, that
    occurs in that mask's code. *)
Theorem conflict_is_first (color_attrs : list attribute) (base_name : string)
    (channels : list ascii) (c : ascii) (a : attribute) :
  check_for_conflicting_mask color_attrs base_name channels = Some (c, a) ->
  exists before after cb ca,
    color_attrs = (before ++ a :: after)%list /\
    (forall x, In x before -> ~ conflicts_with base_name channels x) /\
    conflicts_with base_name channels a /\
    channels = (cb ++ c :: ca)%list /\
    Py.chr_in c (snd (get_mask_name_parts (name a))) = true /\
    (forall c', In c' cb ->
                Py.chr_in c' (snd (get_mask_name_parts (name a))) = false).
Proof. apply check_conflict_first. Qed.

Lemma conflict_is_first_witness :
  exists before after cb ca,
    [layer "Base" []; layer "Base__RG" []; layer "Base__G" []]
      = (before ++ layer "Base__RG" [] :: after)%list /\
    (forall x, In x before ->
               ~ conflicts_with "Base" ["B"; "G"; "R"]%char x) /\
    conflicts_with "Base" ["B"; "G"; "R"]%char (layer "Base__RG" []) /\
    ["B"; "G"; "R"]%char = (cb ++ "G"%char :: ca)%list /\
    Py.chr_in "G" (snd (get_mask_name_parts "Base__RG")) = true /\
    (forall c', In c' cb ->
                Py.chr_in c' (snd (get_mask_name_parts "Base__RG")) = false).
Proof.
  exact (conflict_is_first
           [layer "Base" []; layer "Base__RG" []; layer "Base__G" []]
           "Base" ["B"; "G"; "R"]%char "G" (layer "Base__RG" []) eq_refl).
Defined.

(** ** The two copies: what they refuse and what they write *)

Lemma invalid_code_tests (ch : string) :
  ~ In ch valid_codes ->
  String.eqb ch "R" = false /\ String.eqb ch "G" = false /\
  String.eqb ch "B" = false /\ String.eqb ch "A" = false /\
  String.eqb ch "RG" = false /\ String.eqb ch "RB" = false /\
  String.eqb ch "GB" = false /\ String.eqb ch "RGB" = false.
Proof.
  intros H. repeat split; apply String.eqb_neq; intros ->; apply H;
    simpl; tauto.
Qed.

Lemma copy_to_mask_invalid (base mask : attribute) (ch : string) :
  length (data base) = length (data mask) ->
  ~ In ch valid_codes ->
  copy_to_mask base mask ch = Raise (invalid_channel ch).
Proof.
  intros Hlen Hch. unfold copy_to_mask.
  rewrite Hlen, Nat.eqb_refl. cbn [negb].
  destruct (invalid_code_tests ch Hch)
    as (E1 & E2 & E3 & E4 & E5 & E6 & E7 & E8).
  now rewrite E1, E2, E3, E4, E5, E6, E7, E8.
Qed.

Lemma copy_from_mask_invalid (base mask : attribute) (ch : string) :
  length (data base) = length (data mask) ->
  ~ In ch valid_codes ->
  copy_from_mask base mask ch = Raise (invalid_channel ch).
Proof.
  intros Hlen Hch. unfold copy_from_mask.
  rewrite Hlen, Nat.eqb_refl. cbn [negb].
  destruct (invalid_code_tests ch Hch)
    as (E1 & E2 & E3 & E4 & E5 & E6 & E7 & E8).
  now rewrite E1, E2, E3, E4, E5, E6, E7, E8.
Qed.

Lemma copy_mismatch (base mask : attribute) (ch : string) :
  length (data base) <> length (data mask) ->
  copy_to_mask base mask ch = Raise (length_mismatch base mask) /\
  copy_from_mask base mask ch = Raise (length_mismatch base mask).
Proof.
  intros Hlen. apply Nat.eqb_neq in Hlen.
  unfold copy_to_mask, copy_from_mask. now rewrite Hlen.
Qed.

Lemma valid_code_dec (ch : string) : {In ch valid_codes} + {~ In ch valid_codes}.
Proof. apply in_dec, string_dec. Qed.

(** X5: both copies check the element counts first and the channel code
    second: with different counts they raise the count error whatever
    the code, with equal counts and a code that is not one of the eight
    they raise the code error, and they return new data exactly when the
    counts agree and the code is one of the eight. *)
Theorem copy_checks (base mask : attribute) (ch : string) :
  (length (data base) <> length (data mask) ->
   copy_to_mask base mask ch = Raise (length_mismatch base mask) /\
   copy_from_mask base mask ch = Raise (length_mismatch base mask)) /\
  (length (data base) = length (data mask) -> ~ In ch valid_codes ->
   copy_to_mask base mask ch = Raise (invalid_channel ch) /\
   copy_from_mask base mask ch = Raise (invalid_channel ch)) /\
  ((exists d, copy_to_mask base mask ch = Ok d) <->
   length (data base) = length (data mask) /\ In ch valid_codes) /\
  ((exists d, copy_from_mask base mask ch = Ok d) <->
   length (data base) = length (data mask) /\ In ch valid_codes).
Proof.
  split; [apply copy_mismatch |].
  split.
  { intros Hlen Hch. split;
      [now apply copy_to_mask_invalid | now apply copy_from_mask_invalid]. }
  split; split.
  - intros [d Hd].
    destruct (Nat.eq_dec (length (data base)) (length (data mask))) as [Hl | Hl].
    + split; [exact Hl |].
      destruct (valid_code_dec ch) as [Hv | Hv]; [exact Hv |].
      rewrite (copy_to_mask_invalid _ _ _ Hl Hv) in Hd. discriminate.
    + rewrite (proj1 (copy_mismatch _ _ ch Hl)) in Hd. discriminate.
  - intros [Hl Hv]. eexists. now apply copy_to_mask_spec.
  - intros [d Hd].
    destruct (Nat.eq_dec (length (data base)) (length (data mask))) as [Hl | Hl].
    + split; [exact Hl |].
      destruct (valid_code_dec ch) as [Hv | Hv]; [exact Hv |].
      rewrite (copy_from_mask_invalid _ _ _ Hl Hv) in Hd. discriminate.
    + rewrite (proj2 (copy_mismatch _ _ ch Hl)) in Hd. discriminate.
  - intros [Hl Hv]. eexists. now apply copy_from_mask_spec.
Qed.

Lemma masked_channels (ch : string) (b : rgba) :
  In ch valid_codes ->
  c_a (masked ch b) = 1%Q /\
  (ch <> "A" ->
   forall k, (k < 3)%nat ->
             chan (masked ch b) k = if in_code ch k then chan b k else 0%Q) /\
  (ch = "A" ->
   c_r (masked ch b) = c_a b /\ c_g (masked ch b) = c_a b /\
   c_b (masked ch b) = c_a b).
Proof.
  intros Hch. simpl in Hch.
  repeat (destruct Hch as [<- | Hch];
          [ split; [reflexivity |]; split;
            [ intros Hne k Hk; try (now contradiction Hne);
              destruct k as [|[|[|k]]]; try lia; reflexivity
            | intros E; try discriminate E; repeat split ] |]).
  contradiction.
Qed.

(** X6: a mask filled from a base layer has the base's element count,
    alpha 1 everywhere, and at each element the base's value in the
    channels of the code and 0 in the other colour channels; an alpha
    mask shows the base's alpha as a grey.  What the mask held before
    does not matter. *)
Theorem copy_to_mask_shape (base mask : attribute) (ch : string) :
  In ch valid_codes ->
  length (data base) = length (data mask) ->
  exists d,
    copy_to_mask base mask ch = Ok d /\
    length d = length (data base) /\
    (forall mask', length (data mask') = length (data mask) ->
                   copy_to_mask base mask' ch = Ok d) /\
    forall i b,
      data base !! i = Some b ->
      exists r,
        d !! i = Some r /\
        c_a r = 1%Q /\
        (ch <> "A" ->
         forall k, (k < 3)%nat ->
                   chan r k = if in_code ch k then chan b k else 0%Q) /\
        (ch = "A" -> c_r r = c_a b /\ c_g r = c_a b /\ c_b r = c_a b).
Proof.
  intros Hch Hlen. exists (map (masked ch) (data base)).
  split; [now apply copy_to_mask_spec |].
  split; [apply length_map |].
  split.
  { intros mask' Hl. apply copy_to_mask_spec; [exact Hch | congruence]. }
  intros i b Hb. exists (masked ch b).
  split; [rewrite map_fmap, list_lookup_fmap, Hb; reflexivity |].
  now apply masked_channels.
Qed.

Lemma copy_to_mask_shape_witness :
  exists d,
    copy_to_mask col (layer "Col__GB" [RGBA 1 1 1 1]) "GB" = Ok d /\
    d = [RGBA 0 (2 # 10) (3 # 10) 1].
Proof.
  assert (Hc : In "GB" valid_codes) by (simpl; tauto).
  destruct (copy_to_mask_shape col (layer "Col__GB" [RGBA 1 1 1 1]) "GB"
              Hc eq_refl) as (d & Hd & _).
  exists d. split; [exact Hd |].
  vm_compute in Hd. now injection Hd as <-.
Defined.

(** ** Applying a painted mask *)

Lemma unmasked_source (ch : string) (mc b : rgba) (k : nat) :
  In ch valid_codes ->
  chan (unmasked ch mc b) k =
    if in_code ch k then chan mc (mask_source ch k) else chan b k.
Proof.
  intros Hch. simpl in Hch.
  repeat (destruct Hch as [<- | Hch];
          [ destruct k as [|[|[|[|k]]]]; reflexivity |]).
  contradiction.
Qed.

Lemma get_remove_other (nm nm' : string) (l : list attribute) :
  nm <> nm' -> Attrs.get nm (Attrs.remove nm' l) = Attrs.get nm l.
Proof.
  intros Hne. unfold Attrs.get.
  induction l as [|x l IH]; simpl; [reflexivity |].
  destruct (String.eqb_spec (name x) nm') as [E' | E']; simpl.
  - destruct (String.eqb_spec (name x) nm) as [E | E]; [congruence | reflexivity].
  - destruct (String.eqb (name x) nm); [reflexivity | exact IH].
Qed.

Lemma get_set_data_other (nm nm' : string) (d : list rgba) (l : list attribute) :
  nm <> nm' -> Attrs.get nm (Attrs.set_data nm' d l) = Attrs.get nm l.
Proof.
  intros Hne. unfold Attrs.get.
  induction l as [|x l IH]; simpl; [reflexivity |].
  destruct (String.eqb_spec (name x) nm') as [E' | E']; simpl.
  - destruct (String.eqb_spec (name x) nm) as [E | E]; [congruence | reflexivity].
  - destruct (String.eqb (name x) nm); [reflexivity | exact IH].
Qed.

Lemma names_set_data (nm : string) (d : list rgba) (l : list attribute) :
  map name (Attrs.set_data nm d l) = map name l.
Proof.
  induction l as [|x l IH]; simpl; [reflexivity |].
  destruct (String.eqb (name x) nm); simpl; [reflexivity | now rewrite IH].
Qed.

Lemma get_none_names (nm : string) (l : list attribute) :
  Attrs.get nm l = None <-> ~ In nm (map name l).
Proof.
  unfold Attrs.get. induction l as [|x l IH]; simpl; [tauto |].
  destruct (String.eqb_spec (name x) nm) as [E | E].
  - split; [discriminate | intros H; exfalso; auto].
  - rewrite IH. tauto.
Qed.

Lemma get_remove_same (nm : string) (l : list attribute) :
  List.NoDup (map name l) -> Attrs.get nm (Attrs.remove nm l) = None.
Proof.
  induction l as [|x l IH]; simpl; [reflexivity |].
  intros Hnd. inversion Hnd as [| ? ? Hnot Hrest]; subst.
  destruct (String.eqb_spec (name x) nm) as [E | E].
  - apply get_none_names. now rewrite <- E.
  - unfold Attrs.get in *. simpl.
    destruct (String.eqb_spec (name x) nm); [contradiction | now apply IH].
Qed.

Lemma mask_name_longer (base code : string) : base <> base ++ "__" ++ code.
Proof.
  intros E. apply (f_equal String.length) in E.
  rewrite length_append in E. simpl in E. lia.
Qed.

(** X7: applying a mask that has been painted, to a base with as many
    elements: the operator finishes without a report; at each element
    the base takes the mask's value in the channels of the code (the
    mask's red for an alpha mask) and keeps its own value in the others;
    the base keeps its element count, type and domain; every other layer
    is as before; and with layer names unique no layer is left under
    the mask's name. *)
Theorem apply_mask_execute_applies (m : mesh) (mk base : attribute)
    (base_name code : string) :
  Attrs.active_color (color_attrs m) = Some mk ->
  name mk = base_name ++ "__" ++ code ->
  In code valid_codes ->
  Attrs.get base_name (attrs (color_attrs m)) = Some base ->
  length (data base) = length (data mk) ->
  exists d o,
    apply_mask_execute m = Ok o /\
    o_status o = FINISHED /\ o_reports o = [] /\
    Attrs.get base_name (attrs (color_attrs (o_state o)))
      = Some (Attribute (name base) (a_data_type base) (a_domain base) d) /\
    length d = length (data base) /\
    (forall i b mc,
        data base !! i = Some b -> data mk !! i = Some mc ->
        exists r, d !! i = Some r /\
                  forall k, chan r k =
                            if in_code code k
                            then chan mc (mask_source code k)
                            else chan b k) /\
    (forall nm, nm <> base_name -> nm <> name mk ->
                Attrs.get nm (attrs (color_attrs (o_state o)))
                = Attrs.get nm (attrs (color_attrs m))) /\
    (List.NoDup (map name (attrs (color_attrs m))) ->
     Attrs.contains (name mk) (attrs (color_attrs (o_state o))) = false) /\
    m_vertices (o_state o) = m_vertices m /\
    m_loops (o_state o) = m_loops m /\
    polygons (o_state o) = polygons m.
Proof.
  intros Hact Hname Hcode Hbase Hlen.
  assert (Hne : base_name <> name mk).
  { rewrite Hname. apply mask_name_longer. }
  eexists. eexists. split.
  { unfold apply_mask_execute. rewrite Hact. cbn [of_option bind].
    rewrite Hname.
    rewrite mask_name_is_mask, mask_name_parts by exact Hcode. cbn [negb].
    rewrite Hbase.
    rewrite copy_from_mask_spec by assumption. cbn [bind]. reflexivity. }
  cbn [o_status o_reports o_state].
  split; [reflexivity |]. split; [reflexivity |].
  unfold remove_attribute, with_color_attrs.
  cbn [color_attrs attrs active_color_name m_vertices m_loops polygons].
  split.
  { rewrite get_remove_other by exact Hne.
    apply get_set_data_same. exact Hbase. }
  split; [apply length_imap |].
  split.
  { intros i b mc Hb Hm. rewrite list_lookup_imap, Hb. cbn. rewrite Hm.
    eexists. split; [reflexivity |].
    intros k. now apply unmasked_source. }
  split.
  { intros nm H1 H2. rewrite get_remove_other by exact H2.
    now apply get_set_data_other. }
  split; [| repeat split].
  intros Hnd. apply contains_get. apply get_remove_same.
  now rewrite names_set_data.
Qed.

Lemma apply_mask_execute_applies_witness :
  exists d o,
    apply_mask_execute (one_vertex [col; col_rg] "Col__RG") = Ok o /\
    o_status o = FINISHED /\
    Attrs.get "Col" (attrs (color_attrs (o_state o)))
      = Some (layer "Col" d) /\
    d = [RGBA (9 # 10) (8 # 10) (3 # 10) (4 # 10)].
Proof.
  assert (Hc : In "RG" valid_codes) by (simpl; tauto).
  destruct (apply_mask_execute_applies (one_vertex [col; col_rg] "Col__RG")
              col_rg col "Col" "RG" eq_refl eq_refl Hc eq_refl eq_refl)
    as (d & o & Ho & Hs & _ & Hg & _).
  exists d, o. split; [exact Ho |]. split; [exact Hs |]. split; [exact Hg |].
  vm_compute in Ho. injection Ho as <-.
  vm_compute in Hg. now injection Hg as <-.
Defined.

(** X8: the apply operator declines without touching the mesh: when the
    active layer's name is not a mask name, or when no layer has the
    base name recorded in it, it reports one input error and cancels;
    whenever it cancels the mesh is the one it was given; and it either
    cancels or finishes. *)
Theorem apply_mask_execute_declines (m : mesh) :
  (forall a,
      Attrs.active_color (color_attrs m) = Some a ->
      attr_name_is_mask (name a) = false ->
      apply_mask_execute m =
        Ok (Outcome m
              [(ERROR_INVALID_INPUT,
                "Active vertex color attribute '" ++ name a ++
                "' does not appear to be a mask.")]
              CANCELLED)) /\
  (forall a,
      Attrs.active_color (color_attrs m) = Some a ->
      attr_name_is_mask (name a) = true ->
      Attrs.get (fst (get_mask_name_parts (name a))) (attrs (color_attrs m))
        = None ->
      apply_mask_execute m =
        Ok (Outcome m
              [(ERROR_INVALID_INPUT,
                "No base color attribute '" ++
                fst (get_mask_name_parts (name a)) ++
                "' can be found to apply the mask to.")]
              CANCELLED)) /\
  (Attrs.active_color (color_attrs m) = None ->
   apply_mask_execute m = Raise AttributeError) /\
  (forall o,
      apply_mask_execute m = Ok o ->
      (o_status o = CANCELLED /\ o_state o = m /\
       exists msg, o_reports o = [(ERROR_INVALID_INPUT, msg)]) \/
      (o_status o = FINISHED /\ o_reports o = [])).
Proof.
  split; [| split; [| split]].
  - intros a Ha Hm. unfold apply_mask_execute. rewrite Ha. cbn [of_option bind].
    now rewrite Hm.
  - intros a Ha Hm Hg. unfold apply_mask_execute. rewrite Ha.
    cbn [of_option bind]. rewrite Hm. cbn [negb].
    destruct (get_mask_name_parts (name a)) as [bn ch]. cbn [fst] in *.
    now rewrite Hg.
  - intros Ha. unfold apply_mask_execute. now rewrite Ha.
  - intros o. unfold apply_mask_execute.
    destruct (Attrs.active_color (color_attrs m)) as [a|];
      cbn [of_option bind]; [| discriminate].
    destruct (attr_name_is_mask (name a)); cbn [negb].
    + destruct (get_mask_name_parts (name a)) as [bn ch].
      destruct (Attrs.get bn (attrs (color_attrs m))) as [b|].
      * destruct (copy_from_mask b a ch) as [d|e]; cbn [bind]; [| discriminate].
        intros [= <-]. right. split; reflexivity.
      * intros [= <-]. left. cbn. eauto.
    + intros [= <-]. left. cbn. eauto.
Qed.

(** ** What the create operator does to the layers *)

Lemma resolved_is_first (m : mesh) (act : attribute) :
  Attrs.active_color (color_attrs m) = Some act ->
  Attrs.get (name act) (attrs (color_attrs m)) = Some act.
Proof. apply active_color_get. Qed.

Lemma copy_to_mask_ok (base mask : attribute) (ch : string) (d : list rgba) :
  copy_to_mask base mask ch = Ok d ->
  length (data base) = length (data mask) /\
  In ch valid_codes /\
  d = map (masked ch) (data base).
Proof.
  intros Hd.
  destruct (Nat.eq_dec (length (data base)) (length (data mask))) as [Hl | Hl].
  - destruct (valid_code_dec ch) as [Hv | Hv].
    + rewrite copy_to_mask_spec in Hd by assumption. injection Hd as <-. auto.
    + rewrite (copy_to_mask_invalid _ _ _ Hl Hv) in Hd. discriminate.
  - rewrite (proj1 (copy_mismatch _ _ ch Hl)) in Hd. discriminate.
Qed.

(** Every outcome of the create operator: the layers are those it was
    given, or those with the new mask of a base layer at the end. *)
Lemma create_mask_execute_cases (fill : rgba) (channels : list ascii)
    (m : mesh) (o : outcome (mesh * list ascii)) :
  create_mask_execute fill channels m = Ok o ->
  m_vertices (fst (o_state o)) = m_vertices m /\
  m_loops (fst (o_state o)) = m_loops m /\
  polygons (fst (o_state o)) = polygons m /\
  (attrs (color_attrs (fst (o_state o))) = attrs (color_attrs m) \/
   exists base,
     Attrs.get (name base) (attrs (color_attrs m)) = Some base /\
     Attrs.get (name base ++ "__" ++ make_channel_str channels)
               (attrs (color_attrs m)) = None /\
     length (data base) = domain_size m (a_domain base) /\
     In (make_channel_str channels) valid_codes /\
     o_status o = FINISHED /\ o_reports o = [] /\
     active_color_name (color_attrs (fst (o_state o)))
       = Some (name base ++ "__" ++ make_channel_str channels) /\
     attrs (color_attrs (fst (o_state o)))
       = (attrs (color_attrs m) ++ [mask_of base channels])%list).
Proof.
  unfold create_mask_execute.
  destruct (String.eqb (make_channel_str channels) "") eqn:Ecode.
  { intros [= <-]. cbn. auto. }
  destruct (Attrs.active_color (color_attrs m)) as [act|] eqn:Hact;
    cbn [of_option bind]; [| discriminate].
  pose proof (resolved_is_first m act Hact) as Hfirst.
  assert (Hres :
    forall r,
      (if attr_name_is_mask (name act)
       then
         let '(base_name, _) := get_mask_name_parts (name act) in
         match Attrs.get base_name (attrs (color_attrs m)) with
         | Some b => inl b
         | None =>
             inr (ERROR_INVALID_INPUT,
                  "Active vertex color attribute '" ++ name act ++
                  "' appears to already be a mask, and no base color attribute '" ++
                  base_name ++ "' can be found.")
         end
       else inl act) = inl r ->
      Attrs.get (name r) (attrs (color_attrs m)) = Some r).
  { intros r. destruct (attr_name_is_mask (name act)).
    - destruct (get_mask_name_parts (name act)) as [bn c].
      destruct (Attrs.get bn (attrs (color_attrs m))) as [b|] eqn:Eb;
        [| discriminate].
      intros [= <-]. now rewrite (get_name _ _ _ Eb).
    - now intros [= <-]. }
  destruct (if attr_name_is_mask (name act)
            then
              let '(base_name, _) := get_mask_name_parts (name act) in
              match Attrs.get base_name (attrs (color_attrs m)) with
              | Some b => inl b
              | None =>
                  inr (ERROR_INVALID_INPUT,
                       "Active vertex color attribute '" ++ name act ++
                       "' appears to already be a mask, and no base color attribute '" ++
                       base_name ++ "' can be found.")
              end
            else inl act) as [base | r] eqn:Eres.
  2:{ intros [= <-]. cbn. auto. }
  specialize (Hres base eq_refl).
  destruct (check_for_conflicting_mask (attrs (color_attrs m)) (name base)
              channels) as [[c a]|].
  { destruct (get_mask_name_parts (name a)) as [ab ach].
    intros [= <-]. cbn. auto. }
  unfold create_color_channel_mask.
  destruct (Attrs.get (name base ++ "__" ++ make_channel_str channels)
              (attrs (color_attrs m))) as [existing|] eqn:Enew.
  { cbn [bind]. intros [= <-]. cbn. auto. }
  unfold new_attribute, with_color_attrs.
  cbn [color_attrs attrs active_color_name name a_data_type a_domain data].
  rewrite (get_app_l _ _ _ _ Hres). cbn [of_option bind].
  destruct (copy_to_mask base _ (make_channel_str channels)) as [d|e] eqn:Ecopy;
    cbn [bind]; [| discriminate].
  apply copy_to_mask_ok in Ecopy as (Hlen & Hv & ->).
  cbn [data] in Hlen. rewrite length_replicate in Hlen.
  intros [= <-]. cbn [o_state fst o_status o_reports set_active with_color_attrs
                      m_vertices m_loops polygons color_attrs attrs
                      active_color_name name].
  repeat (split; [reflexivity |]).
  right. exists base.
  repeat (split; [first [assumption | reflexivity] |]).
  rewrite set_data_app_r by exact Enew.
  cbn [Attrs.set_data name]. now rewrite String.eqb_refl.
Qed.

(** X9: the create operator never alters or removes a layer: in every
    outcome each layer that was there is still there under its name with
    the same data, the geometry is untouched, and at most one layer, a
    mask, is added at the end under a name no layer had. *)
Theorem create_mask_execute_keeps_layers (fill : rgba) (channels : list ascii)
    (m : mesh) (o : outcome (mesh * list ascii)) :
  create_mask_execute fill channels m = Ok o ->
  (forall nm a,
      Attrs.get nm (attrs (color_attrs m)) = Some a ->
      Attrs.get nm (attrs (color_attrs (fst (o_state o)))) = Some a) /\
  (attrs (color_attrs (fst (o_state o))) = attrs (color_attrs m) \/
   exists mask,
     attrs (color_attrs (fst (o_state o)))
       = (attrs (color_attrs m) ++ [mask])%list /\
     attr_name_is_mask (name mask) = true /\
     Attrs.get (name mask) (attrs (color_attrs m)) = None) /\
  m_vertices (fst (o_state o)) = m_vertices m /\
  m_loops (fst (o_state o)) = m_loops m /\
  polygons (fst (o_state o)) = polygons m.
Proof.
  intros Ho.
  destruct (create_mask_execute_cases _ _ _ _ Ho) as (Hv & Hl & Hp & Hcases).
  split; [| split; [| auto]].
  - intros nm a Ha.
    destruct Hcases as [-> | (base & _ & _ & _ & _ & _ & _ & _ & ->)];
      [exact Ha | now apply get_app_l].
  - destruct Hcases as [E | (base & _ & Hnone & _ & Hvalid & _ & _ & _ & E)];
      [now left | right].
    exists (mask_of base channels). split; [exact E |].
    unfold mask_of. cbn [name]. split; [now apply mask_name_is_mask | exact Hnone].
Qed.

Lemma create_mask_execute_keeps_layers_witness :
  exists o,
    create_mask_execute (RGBA 1 1 1 1) ["B"%char]
      (one_vertex [col; col_rg] "Col") = Ok o /\
    Attrs.get "Col" (attrs (color_attrs (fst (o_state o)))) = Some col /\
    Attrs.get "Col__RG" (attrs (color_attrs (fst (o_state o)))) = Some col_rg /\
    Attrs.get "Col__B" (attrs (color_attrs (fst (o_state o))))
      = Some (layer "Col__B" [RGBA 0 0 (3 # 10) 1]).
Proof.
  eexists. split; [reflexivity |].
  destruct (create_mask_execute_keeps_layers (RGBA 1 1 1 1) ["B"%char]
              (one_vertex [col; col_rg] "Col") _ eq_refl) as (Hkeep & _).
  split; [exact (Hkeep "Col" col eq_refl) |].
  split; [exact (Hkeep "Col__RG" col_rg eq_refl) | reflexivity].
Defined.

(** X10: the create operator's outcomes without a new mask: an empty
    channel set finishes at once with nothing changed, even without an
    active layer; with channels chosen and no active layer the operator
    raises; an active mask whose recorded base is missing is reported
    and cancelled; and whenever the operator cancels, the mesh and its
    channel property are as they were. *)
Theorem create_mask_execute_declines (fill : rgba) (channels : list ascii)
    (m : mesh) :
  (make_channel_str channels = "" ->
   create_mask_execute fill channels m = Ok (Outcome (m, channels) [] FINISHED)) /\
  (make_channel_str channels <> "" ->
   Attrs.active_color (color_attrs m) = None ->
   create_mask_execute fill channels m = Raise AttributeError) /\
  (forall act,
      make_channel_str channels <> "" ->
      Attrs.active_color (color_attrs m) = Some act ->
      resolve_base (attrs (color_attrs m)) act = None ->
      attr_name_is_mask (name act) = true /\
      create_mask_execute fill channels m =
        Ok (Outcome (m, channels)
              [(ERROR_INVALID_INPUT,
                "Active vertex color attribute '" ++ name act ++
                "' appears to already be a mask, and no base color attribute '" ++
                fst (get_mask_name_parts (name act)) ++ "' can be found.")]
              CANCELLED)) /\
  (forall o,
      create_mask_execute fill channels m = Ok o ->
      o_status o = CANCELLED ->
      o_state o = (m, channels) /\
      exists msg, o_reports o = [(ERROR_INVALID_INPUT, msg)]).
Proof.
  split; [| split; [| split]].
  - intros E. unfold create_mask_execute. now rewrite E.
  - intros Hne Ha. unfold create_mask_execute.
    rewrite (proj2 (String.eqb_neq _ _) Hne), Ha. reflexivity.
  - intros act Hne Ha Hres. unfold resolve_base in Hres.
    destruct (attr_name_is_mask (name act)) eqn:Em; [| discriminate].
    split; [reflexivity |].
    unfold create_mask_execute.
    rewrite (proj2 (String.eqb_neq _ _) Hne), Ha. cbn [of_option bind].
    rewrite Em.
    destruct (get_mask_name_parts (name act)) as [bn c]. cbn [fst] in *.
    now rewrite Hres.
  - intros o. unfold create_mask_execute.
    destruct (String.eqb (make_channel_str channels) "").
    { intros [= <-]. discriminate. }
    destruct (Attrs.active_color (color_attrs m)) as [act|];
      cbn [of_option bind]; [| discriminate].
    destruct (if attr_name_is_mask (name act)
              then
                let '(base_name, _) := get_mask_name_parts (name act) in
                match Attrs.get base_name (attrs (color_attrs m)) with
                | Some b => inl b
                | None =>
                    inr (ERROR_INVALID_INPUT,
                         "Active vertex color attribute '" ++ name act ++
                         "' appears to already be a mask, and no base color attribute '" ++
                         base_name ++ "' can be found.")
                end
              else inl act) as [base | r] eqn:Eres.
    + destruct (check_for_conflicting_mask (attrs (color_attrs m)) (name base)
                  channels) as [[c a]|].
      * destruct (get_mask_name_parts (name a)) as [ab ach].
        intros [= <-]. discriminate.
      * destruct (create_color_channel_mask fill m base
                    (make_channel_str channels)) as [[m1 mk]|e];
          cbn [bind]; [| discriminate].
        intros [= <-]. discriminate.
    + intros [= <-] _. split; [reflexivity |].
      destruct (attr_name_is_mask (name act)); [| discriminate].
      destruct (get_mask_name_parts (name act)) as [bn c].
      destruct (Attrs.get bn (attrs (color_attrs m))); [discriminate |].
      injection Eres as <-. cbn. eauto.
Qed.

Lemma chr_in_valid_code (code : string) (c : ascii) :
  In code valid_codes -> Py.chr_in c code = true ->
  In c ["R"; "G"; "B"; "A"]%char.
Proof.
  intros Hc H. simpl in Hc.
  repeat (destruct Hc as [<- | Hc];
          [ cbn in H;
            repeat match type of H with
                   | (_ || _) = true => apply orb_prop in H as [H | H]
                   end;
            first [ discriminate H
                  | apply Ascii.eqb_eq in H; subst; simpl; tauto ] |]).
  contradiction.
Qed.

Lemma conflict_layer_first (l : list attribute) (base_name : string)
    (channels : list ascii) (c : ascii) (a : attribute) :
  check_for_conflicting_mask l base_name channels = Some (c, a) ->
  Attrs.get (name a) l = Some a.
Proof.
  intros H.
  destruct (check_conflict_first _ _ _ _ _ H)
    as (before & after & cb & ca & -> & Hb & Ha & _).
  assert (Hnone : Attrs.get (name a) before = None).
  { destruct (Attrs.get (name a) before) as [x|] eqn:E; [| reflexivity].
    exfalso. apply (Hb x (get_in _ _ _ E)).
    unfold conflicts_with in *. now rewrite (get_name _ _ _ E). }
  rewrite (get_app_r _ _ _ Hnone). unfold Attrs.get. cbn [find].
  now rewrite String.eqb_refl.
Qed.

(** X11: on a conflict the create operator makes nothing: it finishes
    with one warning, leaves the layers as they are, makes the
    conflicting mask the active layer, and sets its channel property to
    the channels of that mask's code, among them the shared channel. *)
Theorem create_mask_execute_conflict (fill : rgba) (channels : list ascii)
    (m : mesh) (act base : attribute) (c : ascii) (a : attribute) :
  make_channel_str channels <> "" ->
  Attrs.active_color (color_attrs m) = Some act ->
  resolve_base (attrs (color_attrs m)) act = Some base ->
  check_for_conflicting_mask (attrs (color_attrs m)) (name base) channels
    = Some (c, a) ->
  exists o msg,
    create_mask_execute fill channels m = Ok o /\
    o_status o = FINISHED /\
    o_reports o = [(WARNING, msg)] /\
    attrs (color_attrs (fst (o_state o))) = attrs (color_attrs m) /\
    Attrs.active_color (color_attrs (fst (o_state o))) = Some a /\
    snd (o_state o) = make_channel_set (snd (get_mask_name_parts (name a))) /\
    make_channel_str (snd (o_state o)) = snd (get_mask_name_parts (name a)) /\
    In c channels /\ In c (snd (o_state o)).
Proof.
  intros Hne Hact Hbase Hconf.
  pose proof (check_conflict_some _ _ _ _ _ Hconf) as (Hin & Hm & _ & Hc & Hshare).
  pose proof (conflict_layer_first _ _ _ _ _ Hconf) as Hfirst.
  assert (Hv : In (snd (get_mask_name_parts (name a))) valid_codes).
  { apply is_mask_has_code in Hm as (b & code & Hcode & E). rewrite E.
    now rewrite mask_name_parts. }
  destruct (get_mask_name_parts (name a)) as [ab ach] eqn:Ep.
  cbn [fst snd] in *.
  eexists. eexists. split.
  { unfold create_mask_execute.
    rewrite (proj2 (String.eqb_neq _ _) Hne), Hact. cbn [of_option bind].
    assert (Hres :
      (if attr_name_is_mask (name act)
       then
         let '(base_name, _) := get_mask_name_parts (name act) in
         match Attrs.get base_name (attrs (color_attrs m)) with
         | Some b => inl b
         | None =>
             inr (ERROR_INVALID_INPUT,
                  "Active vertex color attribute '" ++ name act ++
                  "' appears to already be a mask, and no base color attribute '" ++
                  base_name ++ "' can be found.")
         end
       else inl act) = inl base).
    { unfold resolve_base in Hbase.
      destruct (attr_name_is_mask (name act)).
      - destruct (get_mask_name_parts (name act)) as [bn c0]. cbn [fst] in Hbase.
        now rewrite Hbase.
      - now injection Hbase as <-. }
    rewrite Hres, Hconf, Ep. reflexivity. }
  cbn [o_status o_reports o_state fst snd].
  split; [reflexivity |]. split; [reflexivity |]. split; [reflexivity |].
  split; [exact Hfirst |].
  split; [reflexivity |].
  split.
  { simpl in Hv.
    repeat (destruct Hv as [<- | Hv]; [reflexivity |]). contradiction. }
  split; [exact Hc |].
  apply make_channel_set_members. split; [| exact Hshare].
  now apply (chr_in_valid_code ach).
Qed.

Lemma create_mask_execute_conflict_witness :
  exists o msg,
    create_mask_execute (RGBA 1 1 1 1) ["R"%char]
      (one_vertex [col; col_rg] "Col") = Ok o /\
    o_status o = FINISHED /\
    o_reports o = [(WARNING, msg)] /\
    attrs (color_attrs (fst (o_state o))) = [col; col_rg] /\
    Attrs.active_color (color_attrs (fst (o_state o))) = Some col_rg /\
    snd (o_state o) = ["R"; "G"]%char.
Proof.
  destruct (create_mask_execute_conflict (RGBA 1 1 1 1) ["R"%char]
              (one_vertex [col; col_rg] "Col") col col "R" col_rg
              ltac:(discriminate) eq_refl eq_refl eq_refl)
    as (o & msg & Ho & Hs & Hr & Ha & Hac & Hch & _).
  exists o, msg. repeat (split; [assumption |]). exact Hch.
Defined.

(** ** Creating the same mask again *)

Lemma check_conflict_app (l r : list attribute) (base_name : string)
    (channels : list ascii) :
  check_for_conflicting_mask l base_name channels = None ->
  check_for_conflicting_mask (l ++ r)%list base_name channels
  = check_for_conflicting_mask r base_name channels.
Proof.
  induction l as [|x l IH]; simpl; [reflexivity |].
  destruct (attr_name_is_mask (name x)); [| exact IH].
  destruct (get_mask_name_parts (name x)) as [xb xc].
  destruct (String.eqb xb base_name); [| exact IH].
  destruct (first_shared channels xc); [discriminate | exact IH].
Qed.

Lemma first_shared_own_code (channels : list ascii) :
  make_channel_str channels <> "" ->
  exists c, first_shared channels (make_channel_str channels) = Some c.
Proof.
  intros Hne.
  destruct (first_shared channels (make_channel_str channels)) as [c|] eqn:E;
    [eauto |].
  exfalso. destruct (make_channel_str_shares channels Hne) as (c & Hc & Hin).
  rewrite (proj1 (first_shared_none _ _) E c Hc) in Hin. discriminate.
Qed.

(** X12: creating the same mask a second time makes no second layer: the
    operator, now started from the new mask, finds that mask as the
    conflict, warns, and leaves the mesh exactly as the first run left
    it, with a channel property of the same code. *)
Theorem create_mask_execute_twice (fill : rgba) (channels : list ascii)
    (m : mesh) (act base : attribute) :
  valid_channel_set channels ->
  Attrs.active_color (color_attrs m) = Some act ->
  resolve_base (attrs (color_attrs m)) act = Some base ->
  length (data base) = domain_size m (a_domain base) ->
  check_for_conflicting_mask (attrs (color_attrs m)) (name base) channels
    = None ->
  exists o1 o2 msg,
    create_mask_execute fill channels m = Ok o1 /\
    create_mask_execute fill (snd (o_state o1)) (fst (o_state o1)) = Ok o2 /\
    fst (o_state o2) = fst (o_state o1) /\
    o_status o2 = FINISHED /\
    o_reports o2 = [(WARNING, msg)] /\
    make_channel_str (snd (o_state o2)) = make_channel_str channels.
Proof.
  intros Hvalid Hact Hbase Hsize Hfree.
  pose proof (create_mask_execute_creates fill channels m act base
                Hvalid Hact Hbase Hsize Hfree) as Hc.
  pose proof (mask_name_free channels m base Hvalid Hfree) as Hnone.
  pose proof (base_is_first m act base Hact Hbase) as Hget.
  pose proof (valid_set_code _ Hvalid) as Hv.
  pose proof (valid_code_nonempty _ Hv) as Hne.
  destruct (first_shared_own_code channels Hne) as [c Hshared].
  eexists. eexists. eexists.
  split; [exact Hc |]. cbn [o_state fst snd].
  split.
  { unfold create_mask_execute.
    rewrite (proj2 (String.eqb_neq _ _) Hne).
    unfold Attrs.active_color, with_color_attrs.
    cbn [color_attrs active_color_name attrs].
    rewrite (get_app_r _ _ _ Hnone).
    unfold Attrs.get at 1. unfold mask_of at 1. cbn [find name].
    rewrite String.eqb_refl. cbn [of_option bind].
    unfold mask_of at 1 2 3. cbn [name].
    rewrite mask_name_is_mask, mask_name_parts by exact Hv.
    rewrite (get_app_l _ _ _ _ Hget).
    rewrite (check_conflict_app _ _ _ _ Hfree).
    unfold check_for_conflicting_mask, mask_of. cbn [name].
    rewrite mask_name_is_mask, mask_name_parts by exact Hv.
    rewrite String.eqb_refl, Hshared. cbn [name].
    rewrite mask_name_parts by exact Hv.
    reflexivity. }
  cbn [o_state fst snd o_status o_reports].
  split; [reflexivity |]. split; [reflexivity |]. split; [reflexivity |].
  simpl in Hv.
  repeat (destruct Hv as [Hv | Hv]; [rewrite <- Hv; reflexivity |]).
  contradiction.
Qed.

Lemma create_mask_execute_twice_witness :
  exists o1 o2 msg,
    create_mask_execute (RGBA 1 1 1 1) ["R"%char] (one_vertex [col] "Col")
      = Ok o1 /\
    create_mask_execute (RGBA 1 1 1 1) (snd (o_state o1)) (fst (o_state o1))
      = Ok o2 /\
    fst (o_state o2) = fst (o_state o1) /\
    o_status o2 = FINISHED /\
    o_reports o2 = [(WARNING, msg)] /\
    make_channel_str (snd (o_state o2)) = "R".
Proof.
  exact (create_mask_execute_twice (RGBA 1 1 1 1) ["R"%char]
           (one_vertex [col] "Col") col col
           valid_set_R eq_refl eq_refl eq_refl eq_refl).
Defined.

(** ** The mesh stays well-formed *)

Lemma swizzle_source_bound (s : string) (k n : nat) :
  swizzle_source s k = Ok n -> (n < 6)%nat.
Proof.
  unfold swizzle_source. destruct (String.get k s) as [c|];
    cbn [of_option bind]; [apply swizzle_slot_bound | discriminate].
Qed.

Lemma swizzle_channels_ok (d d' : list rgba) (s : string) :
  swizzle_channels d s = Ok d' ->
  exists k0 k1 k2 k3,
    swizzle_source s 0 = Ok k0 /\ swizzle_source s 1 = Ok k1 /\
    swizzle_source s 2 = Ok k2 /\ swizzle_source s 3 = Ok k3 /\
    d' = map (swizzled k0 k1 k2 k3) d.
Proof.
  unfold swizzle_channels.
  destruct (swizzle_source s 0) as [k0|] eqn:E0; cbn [bind]; [| discriminate].
  destruct (swizzle_source s 1) as [k1|] eqn:E1; cbn [bind]; [| discriminate].
  destruct (swizzle_source s 2) as [k2|] eqn:E2; cbn [bind]; [| discriminate].
  destruct (swizzle_source s 3) as [k3|] eqn:E3; cbn [bind]; [| discriminate].
  rewrite (for_range_elementwise _ (fun _ => swizzled k0 k1 k2 k3)).
  - intros [= <-]. exists k0, k1, k2, k3. rewrite imap_const_map. auto.
  - intros i l e He _.
    apply swizzle_step_spec; eauto using swizzle_source_bound.
Qed.

Lemma copy_from_mask_ok (base mask : attribute) (ch : string) (d : list rgba) :
  copy_from_mask base mask ch = Ok d -> length d = length (data base).
Proof.
  intros Hd.
  destruct (Nat.eq_dec (length (data base)) (length (data mask))) as [Hl | Hl].
  - destruct (valid_code_dec ch) as [Hv | Hv].
    + rewrite copy_from_mask_spec in Hd by assumption. injection Hd as <-.
      apply length_imap.
    + rewrite (copy_from_mask_invalid _ _ _ Hl Hv) in Hd. discriminate.
  - rewrite (proj2 (copy_mismatch _ _ ch Hl)) in Hd. discriminate.
Qed.

Lemma in_remove (nm : string) (l : list attribute) (a : attribute) :
  In a (Attrs.remove nm l) -> In a l.
Proof.
  induction l as [|x l IH]; simpl; [tauto |].
  destruct (String.eqb (name x) nm); simpl; [tauto |].
  intros [H | H]; auto.
Qed.

Lemma names_remove (nm : string) (l : list attribute) :
  List.NoDup (map name l) -> List.NoDup (map name (Attrs.remove nm l)).
Proof.
  induction l as [|x l IH]; simpl; [trivial |].
  intros Hnd. inversion Hnd as [| ? ? Hnot Hrest]; subst.
  destruct (String.eqb (name x) nm); simpl; [exact Hrest |].
  constructor; [| now apply IH].
  intros Hin. apply Hnot. apply in_map_iff in Hin as (y & Hy & Hin).
  apply in_map_iff. exists y. split; [exact Hy | now apply in_remove in Hin].
Qed.

Lemma in_set_data (nm : string) (d : list rgba) (l : list attribute)
    (a : attribute) :
  In a (Attrs.set_data nm d l) ->
  In a l \/
  exists x, Attrs.get nm l = Some x /\
            a = Attribute (name x) (a_data_type x) (a_domain x) d.
Proof.
  unfold Attrs.get. induction l as [|x l IH]; simpl; [tauto |].
  destruct (String.eqb (name x) nm); simpl.
  - intros [<- | H]; [right; eauto | left; auto].
  - intros [<- | H]; [left; auto |].
    destruct (IH H) as [H' | H']; [left; auto | right; exact H'].
Qed.

Lemma layers_wf_set_data (m : mesh) (nm : string) (d : list rgba)
    (x : attribute) :
  mesh_wf m ->
  Attrs.get nm (attrs (color_attrs m)) = Some x ->
  length d = length (data x) ->
  mesh_wf (with_color_attrs m
             (ColorAttributes (Attrs.set_data nm d (attrs (color_attrs m)))
                              (active_color_name (color_attrs m)))).
Proof.
  intros [Hnd Hlen] Hx Hd. split; cbn [with_color_attrs color_attrs attrs].
  - now rewrite names_set_data.
  - intros a Ha. apply in_set_data in Ha as [Ha | (y & Hy & ->)].
    + exact (Hlen a Ha).
    + rewrite Hx in Hy. injection Hy as <-. cbn [data a_domain].
      rewrite Hd. exact (Hlen x (get_in _ _ _ Hx)).
Qed.

Lemma nodup_snoc (l : list string) (x : string) :
  List.NoDup l -> ~ In x l -> List.NoDup (l ++ [x])%list.
Proof.
  induction l as [|y l IH]; simpl; intros Hnd Hx.
  - constructor; [intros [] | constructor].
  - inversion Hnd as [| ? ? Hy Hrest]; subst. constructor.
    + intros Hin. apply in_app_or in Hin as [Hin | [<- | []]]; auto.
    + apply IH; auto.
Qed.

Lemma mesh_wf_same_shape (m m' : mesh) :
  m_vertices m' = m_vertices m -> m_loops m' = m_loops m ->
  forall d, domain_size m' d = domain_size m d.
Proof. intros Hv Hl [| |nm]; simpl; congruence. Qed.

(** X13: the three operators keep a mesh well-formed: if layer names are
    unique and every layer has one element per vertex or loop of its
    domain, the same holds of the mesh each of create, apply and swizzle
    returns, whatever its outcome. *)
Theorem operators_keep_mesh_wf (m : mesh) :
  mesh_wf m ->
  (forall fill channels o,
      create_mask_execute fill channels m = Ok o -> mesh_wf (fst (o_state o))) /\
  (forall o, apply_mask_execute m = Ok o -> mesh_wf (o_state o)) /\
  (forall s o, swizzle_execute s m = Ok o -> mesh_wf (o_state o)).
Proof.
  intros Hwf. pose proof Hwf as [Hnd Hlen].
  split; [| split].
  - intros fill channels o Ho.
    destruct (create_mask_execute_cases _ _ _ _ Ho)
      as (Hv & Hl & _ & [E | (base & Hget & Hnone & Hsize & Hcode & _ & _ & _ & E)]).
    + split; rewrite E; [exact Hnd |].
      intros a Ha. rewrite (mesh_wf_same_shape _ _ Hv Hl). now apply Hlen.
    + split; rewrite E.
      * rewrite map_app. cbn [map mask_of name].
        apply nodup_snoc; [exact Hnd |].
        exact (proj1 (get_none_names _ _) Hnone).
      * intros a Ha. rewrite (mesh_wf_same_shape _ _ Hv Hl).
        apply in_app_or in Ha as [Ha | [<- | []]]; [now apply Hlen |].
        cbn [mask_of data a_domain]. now rewrite length_map.
  - intros o. unfold apply_mask_execute.
    destruct (Attrs.active_color (color_attrs m)) as [a|];
      cbn [of_option bind]; [| discriminate].
    destruct (attr_name_is_mask (name a)); cbn [negb];
      [| intros [= <-]; exact Hwf].
    destruct (get_mask_name_parts (name a)) as [bn ch].
    destruct (Attrs.get bn (attrs (color_attrs m))) as [b|] eqn:Hb;
      [| intros [= <-]; exact Hwf].
    destruct (copy_from_mask b a ch) as [d|e] eqn:Hd; cbn [bind]; [| discriminate].
    intros [= <-]. cbn [o_state].
    apply copy_from_mask_ok in Hd.
    destruct (layers_wf_set_data m bn d b Hwf Hb Hd) as [Hnd' Hlen'].
    unfold remove_attribute. split;
      cbn [with_color_attrs color_attrs attrs] in *.
    + now apply names_remove.
    + intros x Hx. apply in_remove in Hx. exact (Hlen' x Hx).
  - intros s o. unfold swizzle_execute.
    destruct (negb (String.length s =? 4)%nat); [intros [= <-]; exact Hwf |].
    destruct (negb (all_allowed (Py.upper s))); [intros [= <-]; exact Hwf |].
    destruct (Attrs.active_color (color_attrs m)) as [a|] eqn:Ha;
      cbn [of_option bind]; [| discriminate].
    destruct (swizzle_channels (data a) (Py.upper s)) as [d|e] eqn:Hd;
      cbn [bind]; [| discriminate].
    intros [= <-]. cbn [o_state].
    apply (layers_wf_set_data m (name a) d a Hwf (active_color_get _ _ Ha)).
    apply swizzle_channels_ok in Hd as (k0 & k1 & k2 & k3 & _ & _ & _ & _ & ->).
    apply length_map.
Qed.

Lemma wf_two_layers : mesh_wf (one_vertex [col; col_rg] "Col__RG").
Proof.
  split.
  - cbn. repeat constructor; simpl; intuition discriminate.
  - intros a [<- | [<- | []]]; reflexivity.
Defined.

Lemma operators_keep_mesh_wf_witness :
  exists o, apply_mask_execute (one_vertex [col; col_rg] "Col__RG") = Ok o /\
            mesh_wf (o_state o).
Proof.
  eexists. split; [reflexivity |].
  exact (proj1 (proj2 (operators_keep_mesh_wf _ wf_two_layers)) _ eq_refl).
Defined.

(** ** What can and cannot fail in a well-formed mesh *)

Lemma create_color_channel_mask_total (fill : rgba) (m : mesh)
    (base : attribute) (channels : list ascii) :
  Attrs.get (name base) (attrs (color_attrs m)) = Some base ->
  length (data base) = domain_size m (a_domain base) ->
  make_channel_str channels <> "" ->
  exists r, create_color_channel_mask fill m base (make_channel_str channels)
            = Ok r.
Proof.
  intros Hget Hsize Hne. unfold create_color_channel_mask.
  destruct (Attrs.get (name base ++ "__" ++ make_channel_str channels)
              (attrs (color_attrs m))) as [x|]; [eauto |].
  unfold new_attribute, with_color_attrs.
  cbn [color_attrs attrs active_color_name name a_data_type a_domain data].
  rewrite (get_app_l _ _ _ _ Hget). cbn [of_option bind].
  rewrite copy_to_mask_spec.
  - cbn [bind]. eauto.
  - destruct (make_channel_str_valid channels); [contradiction | assumption].
  - cbn [data]. now rewrite length_replicate.
Qed.

(** X14: in a well-formed mesh with an active layer the create and the
    swizzle operators always return an outcome, never an exception; the
    apply operator can only raise the element-count error, and only
    when the mask and its base lie on different domains. *)
Theorem operators_raise_only_on_domain_mismatch (m : mesh) (act : attribute) :
  mesh_wf m ->
  Attrs.active_color (color_attrs m) = Some act ->
  (forall fill channels, exists o, create_mask_execute fill channels m = Ok o) /\
  (forall s, exists o, swizzle_execute s m = Ok o) /\
  (forall e,
      apply_mask_execute m = Raise e ->
      exists base,
        Attrs.get (fst (get_mask_name_parts (name act))) (attrs (color_attrs m))
          = Some base /\
        e = length_mismatch base act /\
        length (data base) <> length (data act) /\
        a_domain base <> a_domain act).
Proof.
  intros [Hnd Hlen] Hact. split; [| split].
  - intros fill channels. unfold create_mask_execute.
    destruct (String.eqb_spec (make_channel_str channels) "") as [E | Hne];
      [eauto |].
    rewrite Hact. cbn [of_option bind].
    pose proof (active_color_get _ _ Hact) as Hfirst.
    destruct (if attr_name_is_mask (name act)
              then
                let '(base_name, _) := get_mask_name_parts (name act) in
                match Attrs.get base_name (attrs (color_attrs m)) with
                | Some b => inl b
                | None =>
                    inr (ERROR_INVALID_INPUT,
                         "Active vertex color attribute '" ++ name act ++
                         "' appears to already be a mask, and no base color attribute '" ++
                         base_name ++ "' can be found.")
                end
              else inl act) as [base | r] eqn:Eres; [| eauto].
    assert (Hget : Attrs.get (name base) (attrs (color_attrs m)) = Some base).
    { destruct (attr_name_is_mask (name act)).
      - destruct (get_mask_name_parts (name act)) as [bn c].
        destruct (Attrs.get bn (attrs (color_attrs m))) as [b|] eqn:Eb;
          [| discriminate].
        injection Eres as <-. now rewrite (get_name _ _ _ Eb).
      - now injection Eres as <-. }
    destruct (check_for_conflicting_mask (attrs (color_attrs m)) (name base)
                channels) as [[c a]|].
    { destruct (get_mask_name_parts (name a)) as [ab ach]. eauto. }
    destruct (create_color_channel_mask_total fill m base channels Hget
                (Hlen base (get_in _ _ _ Hget)) Hne) as [[m1 mk] ->].
    cbn [bind]. eauto.
  - intros s. unfold swizzle_execute.
    destruct (String.length s =? 4)%nat eqn:El; cbn [negb]; [| eauto].
    destruct (all_allowed (Py.upper s)) eqn:Ea; cbn [negb]; [| eauto].
    rewrite Hact. cbn [of_option bind].
    assert (Hok : swizzle_code_ok s = true).
    { unfold swizzle_code_ok. now rewrite El, <- all_allowed_upper, Ea. }
    destruct (swizzle_channels_total s (data act) Hok)
      as (k0 & k1 & k2 & k3 & ->).
    cbn [bind]. eauto.
  - intros e. unfold apply_mask_execute. rewrite Hact. cbn [of_option bind].
    destruct (attr_name_is_mask (name act)) eqn:Em; cbn [negb]; [| discriminate].
    pose proof Em as Hcode.
    apply is_mask_has_code in Hcode as (b & code & Hv & E).
    rewrite E, mask_name_parts by exact Hv. cbn [fst].
    destruct (Attrs.get b (attrs (color_attrs m))) as [base|] eqn:Hb;
      [| discriminate].
    destruct (Nat.eq_dec (length (data base)) (length (data act))) as [Hl | Hl].
    { rewrite copy_from_mask_spec by assumption. discriminate. }
    rewrite (proj2 (copy_mismatch base act code Hl)). cbn [bind].
    intros [= <-]. exists base. repeat split; auto.
    intros Hd. apply Hl.
    rewrite (Hlen base (get_in _ _ _ Hb)).
    rewrite (Hlen act (get_in _ _ _ (active_color_get _ _ Hact))).
    now rewrite Hd.
Qed.

Lemma operators_raise_only_on_domain_mismatch_witness :
  let m := Mesh [Vec3 0 0 0] [] []
             (ColorAttributes
                [col; Attribute "Col__R" FLOAT_COLOR CORNER []]
                (Some "Col__R")) in
  apply_mask_execute m =
    Raise (length_mismatch col (Attribute "Col__R" FLOAT_COLOR CORNER [])) /\
  exists o, swizzle_execute "rgb1" m = Ok o.
Proof.
  intros m.
  assert (Hwf : mesh_wf m).
  { split.
    - cbn. repeat constructor; simpl; intuition discriminate.
    - intros a [<- | [<- | []]]; reflexivity. }
  destruct (operators_raise_only_on_domain_mismatch m
              (Attribute "Col__R" FLOAT_COLOR CORNER []) Hwf eq_refl)
    as (_ & Hs & _).
  split; [reflexivity | exact (Hs "rgb1")].
Defined.

(** ** Swizzles compose *)

Lemma allowed_slot (c : ascii) :
  Py.chr_in c "RGBA01" = true ->
  exists k, swizzle_slot c = Ok k /\ (k < 6)%nat.
Proof.
  each_ascii c; intros H; try discriminate H; eexists; split;
    try reflexivity; lia.
Qed.

Lemma refused_slot (c : ascii) :
  Py.chr_in c "RGBA01" = false -> swizzle_slot c = Raise KeyError.
Proof. each_ascii c; intros H; discriminate H. Qed.

Lemma slot_allowed (c : ascii) (k : nat) :
  swizzle_slot c = Ok k -> Py.chr_in c "RGBA01" = true.
Proof.
  intros H. destruct (Py.chr_in c "RGBA01") eqn:E; [reflexivity |].
  rewrite (refused_slot c E) in H. discriminate.
Qed.

Lemma four_allowed (s : string) :
  String.length s = 4%nat -> all_allowed s = true ->
  exists c0 c1 c2 c3 k0 k1 k2 k3,
    s = String c0 (String c1 (String c2 (String c3 ""))) /\
    swizzle_slot c0 = Ok k0 /\ swizzle_slot c1 = Ok k1 /\
    swizzle_slot c2 = Ok k2 /\ swizzle_slot c3 = Ok k3 /\
    (k0 < 6)%nat /\ (k1 < 6)%nat /\ (k2 < 6)%nat /\ (k3 < 6)%nat.
Proof.
  intros Hlen Hall.
  destruct s as [|c0 [|c1 [|c2 [|c3 [|c4 s]]]]]; simpl in Hlen; try lia.
  cbn [all_allowed] in Hall.
  apply andb_prop in Hall as [A0 Hall].
  apply andb_prop in Hall as [A1 Hall].
  apply andb_prop in Hall as [A2 Hall].
  apply andb_prop in Hall as [A3 _].
  destruct (allowed_slot c0 A0) as (k0 & S0 & B0).
  destruct (allowed_slot c1 A1) as (k1 & S1 & B1).
  destruct (allowed_slot c2 A2) as (k2 & S2 & B2).
  destruct (allowed_slot c3 A3) as (k3 & S3 & B3).
  exists c0, c1, c2, c3, k0, k1, k2, k3. repeat split; assumption.
Qed.

Lemma six_through (k0 k1 k2 k3 j : nat) (e : rgba) :
  (j < 6)%nat ->
  nth j (six (swizzled k0 k1 k2 k3 e)) 0%Q
  = nth (through k0 k1 k2 k3 j) (six e) 0%Q.
Proof.
  intros Hj. do 6 (destruct j as [|j]; [reflexivity |]). lia.
Qed.

Lemma swizzled_through (k0 k1 k2 k3 j0 j1 j2 j3 : nat) (e : rgba) :
  (j0 < 6)%nat -> (j1 < 6)%nat -> (j2 < 6)%nat -> (j3 < 6)%nat ->
  swizzled j0 j1 j2 j3 (swizzled k0 k1 k2 k3 e)
  = swizzled (through k0 k1 k2 k3 j0) (through k0 k1 k2 k3 j1)
             (through k0 k1 k2 k3 j2) (through k0 k1 k2 k3 j3) e.
Proof.
  intros H0 H1 H2 H3. unfold swizzled at 1 3.
  now rewrite !six_through by assumption.
Qed.

Lemma compose_chr_slot (c0 c1 c2 c3 x : ascii) (k0 k1 k2 k3 j : nat) :
  swizzle_slot c0 = Ok k0 -> swizzle_slot c1 = Ok k1 ->
  swizzle_slot c2 = Ok k2 -> swizzle_slot c3 = Ok k3 ->
  swizzle_slot x = Ok j ->
  swizzle_slot
    (compose_chr (String c0 (String c1 (String c2 (String c3 "")))) x)
  = Ok (through k0 k1 k2 k3 j).
Proof.
  intros S0 S1 S2 S3 Sx. unfold compose_chr. rewrite Sx.
  pose proof (swizzle_slot_bound _ _ Sx) as Hj.
  do 4 (destruct j as [|j]; [cbn; assumption |]).
  cbn. exact Sx.
Qed.

(** X15: two swizzles in a row are one swizzle: for valid upper-case
    codes, swizzling by [first] and then by [second] gives the layer
    what the single code [compose_swizzle first second] gives, which is
    again a valid code; swapping red and blue twice composes to the
    identity code, and the identity after "0000" to "0000". *)
Theorem swizzle_channels_compose (d : list rgba) (first second : string) :
  String.length first = 4%nat -> all_allowed first = true ->
  String.length second = 4%nat -> all_allowed second = true ->
  (d1 <- swizzle_channels d first ;; swizzle_channels d1 second)
    = swizzle_channels d (compose_swizzle first second) /\
  String.length (compose_swizzle first second) = 4%nat /\
  all_allowed (compose_swizzle first second) = true /\
  compose_swizzle "BGRA" "BGRA" = "RGBA" /\
  compose_swizzle "0000" "RGBA" = "0000".
Proof.
  intros L1 A1 L2 A2.
  destruct (four_allowed first L1 A1)
    as (a0 & a1 & a2 & a3 & k0 & k1 & k2 & k3 & -> & Sa0 & Sa1 & Sa2 & Sa3 & _).
  destruct (four_allowed second L2 A2)
    as (b0 & b1 & b2 & b3 & j0 & j1 & j2 & j3 & -> & Sb0 & Sb1 & Sb2 & Sb3
        & B0 & B1 & B2 & B3).
  pose proof (compose_chr_slot a0 a1 a2 a3 b0 _ _ _ _ _ Sa0 Sa1 Sa2 Sa3 Sb0) as C0.
  pose proof (compose_chr_slot a0 a1 a2 a3 b1 _ _ _ _ _ Sa0 Sa1 Sa2 Sa3 Sb1) as C1.
  pose proof (compose_chr_slot a0 a1 a2 a3 b2 _ _ _ _ _ Sa0 Sa1 Sa2 Sa3 Sb2) as C2.
  pose proof (compose_chr_slot a0 a1 a2 a3 b3 _ _ _ _ _ Sa0 Sa1 Sa2 Sa3 Sb3) as C3.
  split; [| split; [reflexivity | split; [| split; reflexivity]]].
  - rewrite (swizzle_channels_map d a0 a1 a2 a3 k0 k1 k2 k3) by assumption.
    cbn [bind].
    rewrite (swizzle_channels_map _ b0 b1 b2 b3 j0 j1 j2 j3) by assumption.
    cbn [compose_swizzle].
    rewrite (swizzle_channels_map d _ _ _ _ _ _ _ _ C0 C1 C2 C3).
    f_equal. rewrite map_map. apply map_ext. intros e.
    now apply swizzled_through.
  - cbn [compose_swizzle all_allowed].
    rewrite (slot_allowed _ _ C0), (slot_allowed _ _ C1),
      (slot_allowed _ _ C2), (slot_allowed _ _ C3). reflexivity.
Qed.

Lemma swizzle_channels_compose_witness :
  (d1 <- swizzle_channels (data col) "GBRA" ;; swizzle_channels d1 "1RRG")
    = swizzle_channels (data col) "1GGB" /\
  compose_swizzle "GBRA" "1RRG" = "1GGB".
Proof.
  split;
    [ exact (proj1 (swizzle_channels_compose (data col) "GBRA" "1RRG"
                      eq_refl eq_refl eq_refl eq_refl))
    | reflexivity ].
Defined.

(** ** The swizzle function called directly *)

(** X16: [swizzle_channels] itself accepts exactly the strings whose
    first four characters are upper-case R, G, B, A, 0 or 1, ignores
    what follows them, and keeps the element count; a first character
    outside the table (a lower-case letter, say) raises the key error
    and an allowed string of fewer than four characters the index
    error. *)
Theorem swizzle_channels_domain (d : list rgba) (s : string) :
  ((exists d', swizzle_channels d s = Ok d') <->
   exists c0 c1 c2 c3 rest,
     s = String c0 (String c1 (String c2 (String c3 rest))) /\
     all_allowed (String c0 (String c1 (String c2 (String c3 "")))) = true) /\
  (forall c0 c1 c2 c3 rest,
      swizzle_channels d (String c0 (String c1 (String c2 (String c3 rest))))
      = swizzle_channels d (String c0 (String c1 (String c2 (String c3 ""))))) /\
  (forall d', swizzle_channels d s = Ok d' -> length d' = length d) /\
  (forall c rest,
      Py.chr_in c "RGBA01" = false ->
      swizzle_channels d (String c rest) = Raise KeyError) /\
  ((String.length s < 4)%nat -> all_allowed s = true ->
   swizzle_channels d s = Raise IndexError) /\
  swizzle_channels d "rgba" = Raise KeyError.
Proof.
  split; [| split; [| split; [| split; [| split]]]].
  - split.
    + intros [d' Hd].
      apply swizzle_channels_ok in Hd as (k0 & k1 & k2 & k3 & S0 & S1 & S2 & S3 & _).
      unfold swizzle_source in *.
      destruct s as [|c0 [|c1 [|c2 [|c3 rest]]]];
        cbn [String.get of_option bind Nat.eqb] in *; try discriminate.
      exists c0, c1, c2, c3, rest. split; [reflexivity |].
      cbn [all_allowed].
      now rewrite (slot_allowed _ _ S0), (slot_allowed _ _ S1),
        (slot_allowed _ _ S2), (slot_allowed _ _ S3).
    + intros (c0 & c1 & c2 & c3 & rest & -> & Hall).
      destruct (four_allowed (String c0 (String c1 (String c2 (String c3 ""))))
                  eq_refl Hall)
        as (a0 & a1 & a2 & a3 & k0 & k1 & k2 & k3 & E & S0 & S1 & S2 & S3 & _).
      injection E as <- <- <- <-.
      exists (map (swizzled k0 k1 k2 k3) d).
      unfold swizzle_channels, swizzle_source.
      cbn [String.get of_option bind Nat.eqb]. rewrite S0, S1, S2, S3.
      cbn [bind]. rewrite <- imap_const_map.
      apply for_range_elementwise. intros i l e He _.
      apply swizzle_step_spec; eauto using swizzle_slot_bound.
  - reflexivity.
  - intros d' Hd.
    apply swizzle_channels_ok in Hd as (k0 & k1 & k2 & k3 & _ & _ & _ & _ & ->).
    apply length_map.
  - intros c rest Hc. unfold swizzle_channels, swizzle_source.
    cbn [String.get of_option bind]. now rewrite (refused_slot c Hc).
  - intros Hlen Hall. unfold swizzle_channels, swizzle_source.
    destruct s as [|c0 [|c1 [|c2 [|c3 rest]]]]; simpl in Hlen; try lia;
      cbn [all_allowed] in Hall;
      repeat match type of Hall with
             | (_ && _) = true =>
                 let A := fresh "A" in apply andb_prop in Hall as [A Hall]
             end;
      cbn [String.get of_option bind Nat.eqb];
      repeat match goal with
             | A : Py.chr_in ?c "RGBA01" = true |- _ =>
                 destruct (allowed_slot c A) as (? & -> & _); clear A;
                 cbn [bind]
             end;
      reflexivity.
  - reflexivity.
Qed.

(** ** The swizzle operator: case and reach *)

Lemma upper_chr_idem (c : ascii) : Py.upper_chr (Py.upper_chr c) = Py.upper_chr c.
Proof. each_ascii c. Qed.

Lemma upper_idem (s : string) : Py.upper (Py.upper s) = Py.upper s.
Proof.
  induction s as [|c s IH]; cbn [Py.upper]; [reflexivity |].
  now rewrite upper_chr_idem, IH.
Qed.

Lemma upper_length (s : string) : String.length (Py.upper s) = String.length s.
Proof. induction s as [|c s IH]; cbn; [reflexivity | now rewrite IH]. Qed.

(** X17: the swizzle operator does not tell the case of its code: a
    code and its upper-case form give the same outcome on every mesh,
    error, warning and data alike. *)
Theorem swizzle_execute_ignores_case (s : string) (m : mesh) :
  swizzle_execute s m = swizzle_execute (Py.upper s) m.
Proof.
  unfold swizzle_execute. now rewrite upper_length, upper_idem.
Qed.

(** X18: the swizzle operator reaches only the data of the active layer:
    in every outcome the layers keep their names and order, the active
    name and the geometry are as before, every layer other than the
    active one is unchanged, and the active layer keeps its element
    count, type and domain. *)
Theorem swizzle_execute_reach (s : string) (m : mesh) (o : outcome mesh) :
  swizzle_execute s m = Ok o ->
  map name (attrs (color_attrs (o_state o))) = map name (attrs (color_attrs m)) /\
  active_color_name (color_attrs (o_state o))
    = active_color_name (color_attrs m) /\
  m_vertices (o_state o) = m_vertices m /\
  m_loops (o_state o) = m_loops m /\
  polygons (o_state o) = polygons m /\
  (forall nm, active_color_name (color_attrs m) <> Some nm ->
              Attrs.get nm (attrs (color_attrs (o_state o)))
              = Attrs.get nm (attrs (color_attrs m))) /\
  (forall a, Attrs.active_color (color_attrs m) = Some a ->
             exists d,
               Attrs.active_color (color_attrs (o_state o))
                 = Some (Attribute (name a) (a_data_type a) (a_domain a) d) /\
               length d = length (data a)).
Proof.
  unfold swizzle_execute.
  assert (Hsame : forall r st,
             (Ok (Outcome m r st) : result (outcome mesh)) = Ok o ->
             map name (attrs (color_attrs (o_state o)))
               = map name (attrs (color_attrs m)) /\
             active_color_name (color_attrs (o_state o))
               = active_color_name (color_attrs m) /\
             m_vertices (o_state o) = m_vertices m /\
             m_loops (o_state o) = m_loops m /\
             polygons (o_state o) = polygons m /\
             (forall nm, active_color_name (color_attrs m) <> Some nm ->
                         Attrs.get nm (attrs (color_attrs (o_state o)))
                         = Attrs.get nm (attrs (color_attrs m))) /\
             (forall a, Attrs.active_color (color_attrs m) = Some a ->
                        exists d,
                          Attrs.active_color (color_attrs (o_state o))
                            = Some (Attribute (name a) (a_data_type a)
                                              (a_domain a) d) /\
                          length d = length (data a))).
  { intros r st [= <-]. cbn [o_state].
    do 5 (split; [reflexivity |]). split; [reflexivity |].
    intros a Ha. exists (data a). split; [| reflexivity].
    rewrite Ha. now destruct a. }
  destruct (negb (String.length s =? 4)%nat); [apply Hsame |].
  destruct (negb (all_allowed (Py.upper s))); [apply Hsame |].
  destruct (Attrs.active_color (color_attrs m)) as [a|] eqn:Ha;
    cbn [of_option bind]; [| discriminate].
  destruct (swizzle_channels (data a) (Py.upper s)) as [d|e] eqn:Hd;
    cbn [bind]; [| discriminate].
  intros [= <-].
  cbn [o_state with_color_attrs color_attrs attrs active_color_name
       m_vertices m_loops polygons].
  pose proof (active_color_get _ _ Ha) as Hget.
  assert (Hnm : active_color_name (color_attrs m) = Some (name a)).
  { unfold Attrs.active_color in Ha.
    destruct (active_color_name (color_attrs m)) as [nm|]; [| discriminate].
    now rewrite (get_name _ _ _ Ha). }
  split; [apply names_set_data |].
  do 4 (split; [reflexivity |]).
  split.
  - intros nm Hne. apply get_set_data_other. intros ->. now apply Hne.
  - intros a' [= <-]. exists d. split.
    + unfold Attrs.active_color. cbn [active_color_name attrs]. rewrite Hnm.
      now apply get_set_data_same.
    + apply swizzle_channels_ok in Hd as (k0 & k1 & k2 & k3 & _ & _ & _ & _ & ->).
      apply length_map.
Qed.

Lemma swizzle_execute_reach_witness :
  exists o,
    swizzle_execute "bgra" (one_vertex [col; col_rg] "Col") = Ok o /\
    Attrs.get "Col__RG" (attrs (color_attrs (o_state o))) = Some col_rg /\
    Attrs.get "Col" (attrs (color_attrs (o_state o)))
      = Some (layer "Col" [RGBA (3 # 10) (2 # 10) (1 # 10) (4 # 10)]).
Proof.
  eexists. split; [reflexivity |].
  destruct (swizzle_execute_reach "bgra" (one_vertex [col; col_rg] "Col") _
              eq_refl) as (_ & _ & _ & _ & _ & Hother & _).
  split; [| reflexivity].
  apply (Hother "Col__RG"). discriminate.
Defined.

(** ** The cleanup: what it leaves, and leaving the loop *)

Lemma existsb_eqb_in (t : nat) (timers : list nat) :
  existsb (Nat.eqb t) timers = true <-> In t timers.
Proof.
  rewrite existsb_exists. split.
  - intros (x & Hx & E). apply Nat.eqb_eq in E. now subst.
  - intros H. exists t. split; [exact H | apply Nat.eqb_refl].
Qed.

Lemma end_cleaned (w : world) : cleaned (sample_vertex_color_end w).
Proof.
  destruct (sample_vertex_color_end_fields w)
    as (Hw & Ha & Hv & Hs & Ht & Hm & _ & _ & Hp & _).
  cbv zeta in *. unfold cleaned.
  rewrite Hw, Ha, Hv, Hs, Ht, Hm, Hp.
  split; [destruct (window w); congruence |].
  split; [destruct (area w); congruence |].
  split; [destruct (workspace w); congruence |].
  split; [destruct (vertex_paint w); intros b0 [= <-]; reflexivity |].
  intros t timers.
  destruct (sample_vertex_color_timer w) as [t0|]; [| discriminate].
  destruct (window_manager w) as [ts|]; [| discriminate].
  destruct (existsb (Nat.eqb t0) ts) eqn:E; [discriminate |].
  intros [= <-] [= <-]. intros Hin. apply filter_In in Hin as [_ H].
  rewrite Nat.eqb_refl in H. discriminate H.
Qed.

Lemma world_ext (u v : world) :
  window u = window v -> area u = area v ->
  window_manager u = window_manager v -> vertex_paint u = vertex_paint v ->
  brush u = brush v -> workspace u = workspace v ->
  active_object u = active_object v ->
  sample_vertex_color_timer u = sample_vertex_color_timer v ->
  prev_show_brush u = prev_show_brush v -> info_log u = info_log v ->
  u = v.
Proof. destruct u, v; cbn; intros; subst; reflexivity. Qed.

Lemma filter_absent_twice (t : nat) (timers : list nat) :
  existsb (Nat.eqb t) (List.filter (fun x => negb (Nat.eqb t x)) timers) = false.
Proof.
  destruct (existsb (Nat.eqb t) (List.filter (fun x => negb (Nat.eqb t x)) timers))
    eqn:E; [| reflexivity].
  apply existsb_eqb_in in E. apply filter_In in E as [_ H].
  rewrite Nat.eqb_refl in H. discriminate H.
Qed.

Lemma end_fixed (w : world) :
  sample_vertex_color_end (sample_vertex_color_end w) = sample_vertex_color_end w.
Proof.
  destruct (sample_vertex_color_end_fields w)
    as (Hw & Ha & Hv & Hs & Ht & Hm & Hb & Ho & Hp & Hl).
  destruct (sample_vertex_color_end_fields (sample_vertex_color_end w))
    as (Hw' & Ha' & Hv' & Hs' & Ht' & Hm' & Hb' & Ho' & Hp' & Hl').
  cbv zeta in *.
  apply world_ext; try assumption.
  - rewrite Hw', Hw. now destruct (window w).
  - rewrite Ha', Ha. now destruct (area w).
  - rewrite Hm', Ht, Hm.
    destruct (sample_vertex_color_timer w) as [t|]; [| reflexivity].
    destruct (window_manager w) as [timers|]; [| reflexivity].
    destruct (existsb (Nat.eqb t) timers) eqn:E; [reflexivity |].
    now rewrite !(filter_absent _ _ E).
  - rewrite Hv', Hv, Hp. now destruct (vertex_paint w).
  - rewrite Hs', Hs. now destruct (workspace w).
  - rewrite Ht', Ht, Hm.
    destruct (sample_vertex_color_timer w) as [t|]; [| reflexivity].
    destruct (window_manager w) as [timers|]; [| reflexivity].
    destruct (existsb (Nat.eqb t) timers) eqn:E; [reflexivity |].
    now rewrite filter_absent_twice.
Qed.

(** X19: the cleanup of the sampler is idempotent and leaves a clean
    world: after it no modal cursor, header text or status text is set,
    the brush visibility is at its saved value, and the timer handle, if
    one is still recorded, is not held by the window manager; the mesh,
    the brush colour and the log are never touched. *)
Theorem sample_vertex_color_end_clean (w : world) :
  sample_vertex_color_end (sample_vertex_color_end w)
    = sample_vertex_color_end w /\
  cleaned (sample_vertex_color_end w) /\
  active_object (sample_vertex_color_end w) = active_object w /\
  brush (sample_vertex_color_end w) = brush w /\
  info_log (sample_vertex_color_end w) = info_log w.
Proof.
  split; [apply end_fixed | split; [apply end_cleaned |]].
  destruct (sample_vertex_color_end_fields w)
    as (_ & _ & _ & _ & _ & _ & Hb & Ho & _ & Hl).
  auto.
Qed.

(** X20: every way out of the modal loop goes through the cleanup: when
    [modal] returns CANCELLED or lets an exception through, the world it
    leaves is clean; a PASS_THROUGH leaves the world and the operator as
    they were; and the first call after the start samples whatever the
    event is, so a right click or ESC that arrives first does not end
    the loop. *)
Theorem modal_leaves_clean (magnitude : vec3 -> float) (color_srgb : rgba -> rgba)
    (ray_cast : world -> Z * Z -> option (vec3 * Z))
    (first_modal : bool) (w : world) (ev : event) :
  (forall w' fm,
      modal magnitude color_srgb ray_cast first_modal w ev
        = (w', fm, Ok CANCELLED) ->
      cleaned w') /\
  (forall w' fm e,
      modal magnitude color_srgb ray_cast first_modal w ev
        = (w', fm, Raise e) ->
      cleaned w') /\
  (forall w' fm,
      modal magnitude color_srgb ray_cast first_modal w ev
        = (w', fm, Ok PASS_THROUGH) ->
      w' = w /\ fm = first_modal /\ first_modal = false) /\
  (forall w1,
      e_type ev = RIGHTMOUSE \/ e_type ev = ESC ->
      do_sample magnitude color_srgb ray_cast w ev = (w1, Ok tt) ->
      modal magnitude color_srgb ray_cast true w ev
        = (w1, false, Ok RUNNING_MODAL) /\
      modal magnitude color_srgb ray_cast false w ev
        = (sample_vertex_color_end w, false, Ok CANCELLED)).
Proof.
  unfold modal.
  split; [| split; [| split]].
  - intros w' fm.
    destruct (sample_tick first_modal ev).
    + destruct (do_sample magnitude color_srgb ray_cast w ev) as [w1 [u|e]].
      * destruct (is_leftmouse (e_type ev) && negb (ctrl ev));
          intros [= <- <-]; apply end_cleaned.
      * discriminate.
    + destruct (e_type ev); intros [= <- <-]; apply end_cleaned.
  - intros w' fm e.
    destruct (sample_tick first_modal ev).
    + destruct (do_sample magnitude color_srgb ray_cast w ev) as [w1 [u|e']].
      * destruct (is_leftmouse (e_type ev) && negb (ctrl ev)); discriminate.
      * intros [= <- <- <-]. apply end_cleaned.
    + destruct (e_type ev); discriminate.
  - intros w' fm.
    destruct (sample_tick first_modal ev) eqn:Et.
    + destruct (do_sample magnitude color_srgb ray_cast w ev) as [w1 [u|e]].
      * destruct (is_leftmouse (e_type ev) && negb (ctrl ev)); discriminate.
      * discriminate.
    + unfold sample_tick in Et. destruct first_modal; [discriminate Et |].
      destruct (e_type ev); intros [= <- <-]; auto.
  - intros w1 Hev Hs. rewrite Hs. unfold sample_tick.
    destruct Hev as [-> | ->]; cbn; auto.
Qed.

(** ** What one sample touches *)

Lemma header_text_set_ok (text : option string) (w w' : world) :
  header_text_set text w = Ok w' -> w' = set_area w (Some text).
Proof.
  unfold header_text_set. destruct (area w); [| discriminate]. now intros [= <-].
Qed.

Lemma header_text_set_raise (text : option string) (w : world) (e : exn) :
  header_text_set text w = Raise e -> area w = None.
Proof. unfold header_text_set. destruct (area w); [discriminate | reflexivity]. Qed.

Lemma try_brush_fields (c : Q * Q * Q) (w : world) :
  let w' := try_pass (set_brush_color c) w in
  window w' = window w /\ area w' = area w /\
  window_manager w' = window_manager w /\ vertex_paint w' = vertex_paint w /\
  workspace w' = workspace w /\ active_object w' = active_object w /\
  sample_vertex_color_timer w' = sample_vertex_color_timer w /\
  prev_show_brush w' = prev_show_brush w /\ info_log w' = info_log w /\
  (brush w' = brush w \/ brush w' = Some c).
Proof.
  unfold try_pass, set_brush_color.
  destruct (vertex_paint w) eqn:Ev, (brush w) eqn:Eb; cbn;
    rewrite ?Ev, ?Eb; repeat (split; [reflexivity |]);
    first [now left | now right].
Qed.

Lemma is_leftmouse_true (t : event_type) :
  is_leftmouse t = true <-> t = LEFTMOUSE.
Proof. destruct t; cbn; split; congruence. Qed.

(** X21: one sample touches only the header text, the info log and the
    brush colour: the mesh, the cursor, the timers, the brush visibility
    and the status text are as before; the log grows, by one INFO line,
    only on a left click; the brush colour changes only on a left click
    without ctrl that went through; a sample that raises leaves the
    header as it was, and one that returns has set it. *)
Theorem do_sample_effects (magnitude : vec3 -> float) (color_srgb : rgba -> rgba)
    (ray_cast : world -> Z * Z -> option (vec3 * Z))
    (w : world) (ev : event) (w1 : world) (r : result unit) :
  do_sample magnitude color_srgb ray_cast w ev = (w1, r) ->
  active_object w1 = active_object w /\
  window w1 = window w /\
  window_manager w1 = window_manager w /\
  vertex_paint w1 = vertex_paint w /\
  workspace w1 = workspace w /\
  sample_vertex_color_timer w1 = sample_vertex_color_timer w /\
  prev_show_brush w1 = prev_show_brush w /\
  (info_log w1 = info_log w \/
   (e_type ev = LEFTMOUSE /\
    exists line, info_log w1 = (info_log w ++ [(INFO, line)])%list)) /\
  (brush w1 = brush w \/
   (e_type ev = LEFTMOUSE /\ ctrl ev = false /\ r = Ok tt /\
    exists c, brush w1 = Some c)) /\
  ((exists e, r = Raise e) -> area w1 = area w) /\
  (r = Ok tt -> exists text, area w1 = Some (Some text)).
Proof.
  unfold do_sample.
  assert (Hsame : forall e,
            active_object w = active_object w /\ window w = window w /\
            window_manager w = window_manager w /\
            vertex_paint w = vertex_paint w /\ workspace w = workspace w /\
            sample_vertex_color_timer w = sample_vertex_color_timer w /\
            prev_show_brush w = prev_show_brush w /\
            (info_log w = info_log w \/
             (e_type ev = LEFTMOUSE /\
              exists line, info_log w = (info_log w ++ [(INFO, line)])%list)) /\
            (brush w = brush w \/
             (e_type ev = LEFTMOUSE /\ ctrl ev = false /\
              (Raise e : result unit) = Ok tt /\
              exists c, brush w = Some c)) /\
            ((exists e', (Raise e : result unit) = Raise e') -> area w = area w) /\
            ((Raise e : result unit) = Ok tt ->
             exists text, area w = Some (Some text))).
  { intros e. repeat (split; [reflexivity |]). split; [now left |].
    split; [now left |]. split; [reflexivity | discriminate]. }
  destruct (pick_vertex_color_from_mouse_coord magnitude ray_cast w
              (mouse_region_x ev, mouse_region_y ev)) as [[col|]|e].
  - destruct (report_line (components col) (components (color_srgb col)))
      as [line|e]; [| intros [= <- <-]; apply Hsame].
    destruct (is_leftmouse (e_type ev)) eqn:El.
    + apply is_leftmouse_true in El.
      destruct (header_text_set (Some line) (add_report w (INFO, line)))
        as [w2|e] eqn:Eh.
      * apply header_text_set_ok in Eh. subst w2.
        destruct (negb (ctrl ev)) eqn:Ec; cbn [andb].
        -- intros [= <- <-].
           destruct (try_brush_fields
                       (c_r (color_srgb col), c_g (color_srgb col),
                        c_b (color_srgb col))
                       (set_area (add_report w (INFO, line)) (Some (Some line))))
             as (H1 & H2 & H3 & H4 & H5 & H6 & H7 & H8 & H9 & H10).
           cbv zeta in *. rewrite H1, H2, H3, H4, H5, H6, H7, H8, H9.
           destruct w; cbn in *.
           repeat (split; [reflexivity |]).
           split; [right; eauto |].
           split.
           { destruct H10 as [-> | ->]; [now left | right].
             apply negb_true_iff in Ec. eauto 6. }
           split; [intros [e He]; discriminate He | eauto].
        -- intros [= <- <-]. destruct w; cbn.
           repeat (split; [reflexivity |]).
           split; [right; eauto |]. split; [now left |].
           split; [intros [e He]; discriminate He | eauto].
      * apply header_text_set_raise in Eh. intros [= <- <-].
        destruct w; cbn in *.
        repeat (split; [reflexivity |]).
        split; [right; eauto |]. split; [now left |].
        split; [reflexivity | discriminate].
    + cbn [andb].
      destruct (header_text_set (Some line) w) as [w2|e] eqn:Eh.
      * apply header_text_set_ok in Eh. subst w2. intros [= <- <-].
        destruct w; cbn.
        repeat (split; [reflexivity |]).
        split; [now left |]. split; [now left |].
        split; [intros [e He]; discriminate He | eauto].
      * intros [= <- <-]. apply Hsame.
  - destruct (header_text_set (Some "Active object not under mouse cursor") w)
      as [w2|e] eqn:Eh.
    + apply header_text_set_ok in Eh. subst w2. intros [= <- <-].
      destruct w; cbn.
      repeat (split; [reflexivity |]).
      split; [now left |]. split; [now left |].
      split; [intros [e He]; discriminate He | eauto].
    + intros [= <- <-]. apply Hsame.
  - intros [= <- <-]. apply Hsame.
Qed.

Lemma do_sample_effects_witness :
  exists w1,
    do_sample axis_magnitude id hit_face_0 (painting (triangle POINT)) left_click
      = (w1, Ok tt) /\
    active_object w1 = triangle POINT /\
    vertex_paint w1 = Some true /\
    brush w1 = Some (0, 1, 0)%Q.
Proof.
  eexists. split; [reflexivity |].
  destruct (do_sample_effects axis_magnitude id hit_face_0
              (painting (triangle POINT)) left_click _ _ eq_refl)
    as (H1 & _ & _ & H4 & _).
  split; [exact H1 | split; [exact H4 | reflexivity]].
Defined.

(** ** Starting the sampler *)

Lemma invoke_ok_world (new_timer : list nat -> nat) (w : world) (b : bool)
    (timers : list nat) (cur st : option string) :
  vertex_paint w = Some b ->
  window_manager w = Some timers ->
  window w = Some cur ->
  workspace w = Some st ->
  (forall t, sample_vertex_color_timer w = Some t -> In t timers) ->
  invoke new_timer w =
    (World (Some (Some "EYEDROPPER")) (area w)
           (Some (held_timers w timers ++ [new_timer (held_timers w timers)])%list)
           (Some false) (brush w) (Some (Some status_help)) (active_object w)
           (Some (new_timer (held_timers w timers))) b (info_log w),
     true, Ok RUNNING_MODAL).
Proof.
  destruct w as [win ar wm vp br ws ob timer psb log]. cbn.
  intros -> -> -> -> Hheld.
  unfold invoke, invoke_steps, held_timers. cbn [run_steps].
  unfold get_show_brush, set_show_brush, event_timer_remove, event_timer_add,
    cursor_modal_set, status_text_set. cbn.
  destruct timer as [t|]; cbn.
  - rewrite (proj2 (existsb_eqb_in t timers) (Hheld t eq_refl)). cbn. reflexivity.
  - reflexivity.
Qed.

(** X22: the sampler starts from a context that has its members: the
    brush visibility is saved and switched off, the old timer handle, if
    any, is removed and exactly one new timer is registered and
    recorded, the eyedropper cursor and the status help are set, the
    first-call flag is raised and RUNNING_MODAL returned; the header, the
    brush colour, the mesh and the log are not touched. *)
Theorem invoke_starts (new_timer : list nat -> nat) (w : world) (b : bool)
    (timers : list nat) (cur st : option string) :
  vertex_paint w = Some b ->
  window_manager w = Some timers ->
  window w = Some cur ->
  workspace w = Some st ->
  (forall t, sample_vertex_color_timer w = Some t -> In t timers) ->
  exists w1,
    invoke new_timer w = (w1, true, Ok RUNNING_MODAL) /\
    vertex_paint w1 = Some false /\
    prev_show_brush w1 = b /\
    window w1 = Some (Some "EYEDROPPER") /\
    workspace w1 = Some (Some status_help) /\
    sample_vertex_color_timer w1 = Some (new_timer (held_timers w timers)) /\
    window_manager w1
      = Some (held_timers w timers ++ [new_timer (held_timers w timers)])%list /\
    (forall t, sample_vertex_color_timer w = Some t ->
               ~ In t (held_timers w timers)) /\
    area w1 = area w /\ brush w1 = brush w /\
    active_object w1 = active_object w /\ info_log w1 = info_log w.
Proof.
  intros Hv Hm Hw Hs Hheld.
  eexists. split; [exact (invoke_ok_world new_timer w b timers cur st
                            Hv Hm Hw Hs Hheld) |].
  cbn. repeat (split; [reflexivity |]).
  split; [| repeat split].
  intros t Ht Hin. unfold held_timers in Hin. rewrite Ht in Hin.
  apply filter_In in Hin as [_ H]. rewrite Nat.eqb_refl in H. discriminate H.
Qed.

Lemma invoke_starts_witness :
  exists w1,
    invoke next_timer (painting (triangle POINT)) = (w1, true, Ok RUNNING_MODAL) /\
    vertex_paint w1 = Some false /\
    prev_show_brush w1 = true /\
    sample_vertex_color_timer w1 = Some 4%nat /\
    window_manager w1 = Some [3; 4]%nat.
Proof.
  destruct (invoke_starts next_timer (painting (triangle POINT)) true [3%nat]
              None None eq_refl eq_refl eq_refl eq_refl
              ltac:(intros t H; discriminate H))
    as (w1 & H0 & H1 & H2 & _ & _ & H5 & H6 & _).
  exists w1. repeat (split; [assumption |]). exact H6.
Defined.

Lemma filter_fresh (t : nat) (l : list nat) :
  ~ In t l ->
  List.filter (fun x => negb (Nat.eqb t x)) (l ++ [t])%list = l.
Proof.
  induction l as [|x l IH]; cbn; intros Hnot.
  - now rewrite Nat.eqb_refl.
  - destruct (Nat.eqb_spec t x) as [E | E]; cbn.
    + exfalso. apply Hnot. auto.
    + rewrite IH; [reflexivity |]. intros H. apply Hnot. auto.
Qed.

(** X23: starting the sampler and leaving it undoes the start: when the
    host hands out a timer handle it does not already hold, an ESC or
    right click handled once the first-call flag is down cancels and
    leaves the brush visibility as it was before the start, no modal
    cursor, no status text, no recorded timer, and the window manager
    with the timers it held apart from the sampler's own. *)
Theorem invoke_then_cancel (new_timer : list nat -> nat) (w : world) (b : bool)
    (timers : list nat) (cur st : option string)
    (magnitude : vec3 -> float) (color_srgb : rgba -> rgba)
    (ray_cast : world -> Z * Z -> option (vec3 * Z)) (ev : event) :
  vertex_paint w = Some b ->
  window_manager w = Some timers ->
  window w = Some cur ->
  workspace w = Some st ->
  (forall t, sample_vertex_color_timer w = Some t -> In t timers) ->
  ~ In (new_timer (held_timers w timers)) (held_timers w timers) ->
  e_type ev = ESC \/ e_type ev = RIGHTMOUSE ->
  exists w1 w2,
    invoke new_timer w = (w1, true, Ok RUNNING_MODAL) /\
    modal magnitude color_srgb ray_cast false w1 ev = (w2, false, Ok CANCELLED) /\
    vertex_paint w2 = Some b /\
    window w2 = Some None /\
    workspace w2 = Some None /\
    sample_vertex_color_timer w2 = None /\
    window_manager w2 = Some (held_timers w timers) /\
    brush w2 = brush w /\ active_object w2 = active_object w /\
    info_log w2 = info_log w.
Proof.
  intros Hv Hm Hw Hs Hheld Hfresh Hev.
  eexists. eexists.
  split; [exact (invoke_ok_world new_timer w b timers cur st
                   Hv Hm Hw Hs Hheld) |].
  split.
  { unfold modal, sample_tick. destruct Hev as [-> | ->]; reflexivity. }
  match goal with
  | |- vertex_paint (sample_vertex_color_end ?x) = _ /\ _ =>
      destruct (sample_vertex_color_end_fields x)
        as (F1 & F2 & F3 & F4 & F5 & F6 & F7 & F8 & F9 & F10)
  end.
  cbv zeta in *. cbn [window area window_manager vertex_paint brush workspace
                      active_object sample_vertex_color_timer prev_show_brush
                      info_log] in *.
  assert (Hin : existsb (Nat.eqb (new_timer (held_timers w timers)))
                  (held_timers w timers ++ [new_timer (held_timers w timers)])
                = true).
  { apply existsb_eqb_in. apply in_or_app. right. simpl. auto. }
  rewrite Hin in F5. rewrite (filter_fresh _ _ Hfresh) in F6.
  repeat (split; [assumption |]). assumption.
Qed.

Lemma invoke_then_cancel_witness :
  exists w1 w2,
    invoke next_timer (painting (triangle POINT)) = (w1, true, Ok RUNNING_MODAL) /\
    modal axis_magnitude id hit_face_0 false w1
          (Event ESC PRESS false 0 0) = (w2, false, Ok CANCELLED) /\
    vertex_paint w2 = Some true /\
    window_manager w2 = Some [3%nat].
Proof.
  destruct (invoke_then_cancel next_timer (painting (triangle POINT)) true
              [3%nat] None None axis_magnitude id hit_face_0
              (Event ESC PRESS false 0 0)
              eq_refl eq_refl eq_refl eq_refl
              ltac:(intros t H; discriminate H)
              ltac:(cbn; intros [H | []]; discriminate H)
              (or_introl eq_refl))
    as (w1 & w2 & H0 & H1 & H2 & _ & _ & _ & H6 & _).
  exists w1, w2. repeat (split; [assumption |]). exact H6.
Defined.

Lemma invoke_steps_keep (new_timer : list nat -> nat) (w w1 : world)
    (r : result unit) :
  run_steps (invoke_steps new_timer) w = (w1, r) ->
  match vertex_paint w with
  | None => w1 = w /\ exists e, r = Raise e
  | Some b => prev_show_brush w1 = b /\ exists b', vertex_paint w1 = Some b'
  end /\
  area w1 = area w /\ brush w1 = brush w /\
  active_object w1 = active_object w /\ info_log w1 = info_log w.
Proof.
  destruct w as [win ar wm vp br ws ob timer psb log].
  unfold invoke_steps. cbn [run_steps].
  unfold get_show_brush, set_show_brush, event_timer_remove, event_timer_add,
    cursor_modal_set, status_text_set. cbn.
  destruct vp as [b|], timer as [t|], wm as [timers|], win, ws; cbn;
    try (destruct (existsb (Nat.eqb t) timers); cbn);
    intros [= <- <-]; cbn;
    (split; [split; [reflexivity | eexists; reflexivity] |]);
    repeat split.
Qed.

(** X24: a start that fails cleans up after itself: if [invoke] lets an
    exception through, the world it leaves is clean, the brush
    visibility is what it was before the call, and the header's owner,
    the brush colour, the mesh and the log are untouched. *)
Theorem invoke_failure_restores (new_timer : list nat -> nat) (w w' : world)
    (fm : bool) (e : exn) :
  invoke new_timer w = (w', fm, Raise e) ->
  cleaned w' /\
  vertex_paint w' = vertex_paint w /\
  brush w' = brush w /\
  active_object w' = active_object w /\
  info_log w' = info_log w.
Proof.
  unfold invoke.
  destruct (run_steps (invoke_steps new_timer) w) as [w1 [u|e']] eqn:Hrun;
    [discriminate |].
  intros [= <- _ _].
  destruct (invoke_steps_keep _ _ _ _ Hrun) as (Hvp & _ & Hb & Ho & Hl).
  destruct (sample_vertex_color_end_fields w1)
    as (_ & _ & F3 & _ & _ & _ & F7 & F8 & _ & F10).
  cbv zeta in *.
  split; [apply end_cleaned |].
  split.
  { rewrite F3. destruct (vertex_paint w) as [b|] eqn:Ev.
    - destruct Hvp as (Hp & b' & Hb'). now rewrite Hb', Hp.
    - destruct Hvp as (-> & _). now rewrite Ev. }
  repeat split; congruence.
Qed.

Lemma invoke_failure_restores_witness :
  exists w',
    invoke next_timer
      (World None None (Some [3%nat]) (Some true) None (Some None)
             (triangle POINT) None false [])
      = (w', true, Raise AttributeError) /\
    vertex_paint w' = Some true /\
    active_object w' = triangle POINT.
Proof.
  eexists. split; [reflexivity |].
  destruct (invoke_failure_restores next_timer
              (World None None (Some [3%nat]) (Some true) None (Some None)
                     (triangle POINT) None false []) _ _ _
              eq_refl) as (_ & H2 & _ & H4 & _).
  split; [exact H2 | exact H4].
Defined.
(** ** The colour lookup *)

Lemma lookup_in {A : Type} (l : list A) (n : nat) (x : A) :
  l !! n = Some x -> In x l.
Proof.
  revert n. induction l as [|y l IH]; intros [|n]; simpl; try discriminate.
  - intros [= <-]. now left.
  - intros H. right. exact (IH n H).
Qed.

Lemma index_in {A : Type} (l : list A) (i : Z) (x : A) :
  Py.index l i = Ok x -> In x l.
Proof.
  unfold Py.index.
  destruct (0 <=? i)%Z;
    [| destruct (0 <=? Z.of_nat (length l) + i)%Z; [| discriminate]].
  - destruct (l !! Z.to_nat i) as [y|] eqn:E; simpl; [| discriminate].
    intros [= <-]. exact (lookup_in _ _ _ E).
  - destruct (l !! Z.to_nat (Z.of_nat (length l) + i)) as [y|] eqn:E; simpl;
      [| discriminate].
    intros [= <-]. exact (lookup_in _ _ _ E).
Qed.

Lemma index_raise {A : Type} (l : list A) (i : Z) (e : exn) :
  Py.index l i = Raise e -> e = IndexError.
Proof.
  unfold Py.index.
  destruct (0 <=? i)%Z;
    [| destruct (0 <=? Z.of_nat (length l) + i)%Z; [| congruence]].
  - destruct (l !! Z.to_nat i); simpl; congruence.
  - destruct (l !! Z.to_nat (Z.of_nat (length l) + i)); simpl; congruence.
Qed.

(** Python's range of valid indices: from [-len] up to [len - 1]. *)
Lemma index_in_range {A : Type} (l : list A) (i : Z) :
  (- Z.of_nat (length l) <= i < Z.of_nat (length l))%Z ->
  exists x, Py.index l i = Ok x.
Proof.
  intros Hi. unfold Py.index.
  destruct (0 <=? i)%Z eqn:E0.
  - apply Z.leb_le in E0.
    destruct (lookup_lt_is_Some_2 l (Z.to_nat i)) as [x Hx]; [lia |].
    exists x. now rewrite Hx.
  - apply Z.leb_gt in E0.
    destruct (0 <=? Z.of_nat (length l) + i)%Z eqn:E1;
      [| apply Z.leb_gt in E1; lia].
    destruct (lookup_lt_is_Some_2 l (Z.to_nat (Z.of_nat (length l) + i)))
      as [x Hx]; [lia |].
    exists x. now rewrite Hx.
Qed.

Section Lookup.

Variable magnitude : vec3 -> float.

Lemma face_distances_in_range verts hit_loc fv :
  (forall v, In v fv -> (0 <= v < Z.of_nat (length verts))%Z) ->
  exists ds, face_distances magnitude verts hit_loc fv = Ok ds.
Proof.
  induction fv as [|v r IH]; intros Hin; simpl; [now exists [] |].
  destruct (index_in_range verts v) as [p Hp].
  { specialize (Hin v (or_introl eq_refl)). lia. }
  rewrite Hp. cbn [bind].
  destruct IH as [ds Hds]; [intros u Hu; apply Hin; now right |].
  rewrite Hds. cbn [bind]. eauto.
Qed.

Lemma find_closest_total verts hit_loc fv :
  forall ds i b c,
    face_distances magnitude verts hit_loc fv = Ok ds ->
    exists k, find_closest magnitude verts hit_loc fv i b c = Ok k.
Proof.
  induction fv as [|v r IH]; intros ds i b c; simpl; [eauto |].
  destruct (Py.index verts v) as [p|e]; simpl; [| discriminate].
  destruct (face_distances magnitude verts hit_loc r) as [ds'|e] eqn:Er;
    simpl; [| discriminate].
  intros _.
  destruct (flt (magnitude (vsub p hit_loc)) b); exact (IH ds' _ _ _ eq_refl).
Qed.

(** The index the search returns is one Python accepts on the face's
    vertex list: a corner's position or, when no distance was below
    [inf], -1. *)
Lemma find_closest_index verts hit_loc fv ds k :
  fv <> [] ->
  face_distances magnitude verts hit_loc fv = Ok ds ->
  find_closest magnitude verts hit_loc fv 0 PosInf (-1) = Ok k ->
  (- Z.of_nat (length fv) <= k < Z.of_nat (length fv))%Z.
Proof.
  intros Hne Hds Hk.
  assert (Hpos : (0 < length fv)%nat) by (destruct fv; [congruence | simpl; lia]).
  destruct (find_closest_range magnitude _ _ _ _ _ _ _ _ Hds Hk)
    as [[-> _] | [Hr _]]; lia.
Qed.

End Lookup.

(** X25: a colour the lookup returns is an element of the active layer,
    and the layer then has one element per vertex (POINT) or per loop
    (CORNER) of the mesh: the lookup never makes a colour up and never
    answers from a layer whose size does not fit its domain. *)
Theorem pick_returns_layer_color (magnitude : vec3 -> float) (m : mesh)
    (hit_loc : vec3) (hit_face_index : Z) (c : rgba) :
  pick_vertex_color_from_rayhit magnitude m hit_loc hit_face_index
    = Ok (Some c) ->
  exists a,
    Attrs.active_color (color_attrs m) = Some a /\
    In c (data a) /\
    ((a_domain a = POINT /\ length (data a) = length (m_vertices m)) \/
     (a_domain a = CORNER /\ length (data a) = length (m_loops m))).
Proof.
  unfold pick_vertex_color_from_rayhit, picked_index.
  destruct (Attrs.active_color (color_attrs m)) as [a|];
    cbn [of_option bind]; [| discriminate].
  destruct (Py.index (polygons m) hit_face_index) as [face|e];
    cbn [bind]; [| discriminate].
  destruct (length (vertices face) =? 0)%nat; cbn [bind]; [discriminate |].
  destruct (find_closest magnitude (m_vertices m) hit_loc (vertices face)
              0 PosInf (-1)) as [k|e]; cbn [bind]; [| discriminate].
  destruct (a_domain a) eqn:Hdom; [| | discriminate].
  - destruct (length (data a) =? length (m_vertices m))%nat eqn:Hc;
      cbn [negb]; [| discriminate].
    apply Nat.eqb_eq in Hc.
    destruct (Py.index (vertices face) k) as [v|e]; cbn [bind]; [| discriminate].
    destruct (Py.index (data a) v) as [x|e] eqn:Hx; cbn [bind]; [| discriminate].
    intros [= <-]. exists a. split; [reflexivity |].
    split; [exact (index_in _ _ _ Hx) | left; now split].
  - destruct (length (data a) =? length (m_loops m))%nat eqn:Hc;
      cbn [negb]; [| discriminate].
    apply Nat.eqb_eq in Hc.
    destruct (Py.index (loop_indices face) k) as [v|e]; cbn [bind];
      [| discriminate].
    destruct (Py.index (data a) v) as [x|e] eqn:Hx; cbn [bind]; [| discriminate].
    intros [= <-]. exists a. split; [reflexivity |].
    split; [exact (index_in _ _ _ Hx) | right; now split].
Qed.

Lemma pick_returns_layer_color_witness :
  exists a,
    Attrs.active_color (color_attrs (triangle CORNER)) = Some a /\
    In (RGBA 0 1 0 1) (data a) /\
    ((a_domain a = POINT /\
      length (data a) = length (m_vertices (triangle CORNER))) \/
     (a_domain a = CORNER /\
      length (data a) = length (m_loops (triangle CORNER)))).
Proof.
  exact (pick_returns_layer_color axis_magnitude (triangle CORNER)
           (Vec3 0 0 0) 0 (RGBA 0 1 0 1) eq_refl).
Defined.

(** X26: on a well-formed face of a mesh whose active layer is a POINT or
    CORNER layer of the fitting size the lookup always answers with a
    colour of that layer, whatever the distances are: it raises nothing
    and does not answer [None]. *)
Theorem pick_finds_color (magnitude : vec3 -> float) (m : mesh)
    (hit_loc : vec3) (hit_face_index : Z) (a : attribute) (face : polygon) :
  Attrs.active_color (color_attrs m) = Some a ->
  Py.index (polygons m) hit_face_index = Ok face ->
  face_wf m face ->
  (a_domain a = POINT /\ length (data a) = length (m_vertices m)) \/
  (a_domain a = CORNER /\ length (data a) = length (m_loops m)) ->
  exists c,
    pick_vertex_color_from_rayhit magnitude m hit_loc hit_face_index
      = Ok (Some c) /\
    In c (data a).
Proof.
  intros Ha Hface (Hne & Hv & Hll & Hl) Hdom.
  destruct (face_distances_in_range magnitude (m_vertices m) hit_loc
              (vertices face) Hv) as [ds Hds].
  destruct (find_closest_total magnitude _ hit_loc _ ds 0%Z PosInf (-1)%Z Hds)
    as [k Hk].
  pose proof (find_closest_index magnitude _ _ _ _ _ Hne Hds Hk) as Hr.
  destruct (pick_reads magnitude m hit_loc hit_face_index a face k
              Ha Hface Hne Hk) as [Hpoint Hcorner].
  destruct Hdom as [[Hd Hc] | [Hd Hc]].
  - rewrite (Hpoint Hd Hc).
    destruct (index_in_range (vertices face) k Hr) as [v Ev].
    rewrite Ev. cbn [bind].
    destruct (index_in_range (data a) v) as [c Ec].
    { pose proof (Hv v (index_in _ _ _ Ev)). rewrite Hc. lia. }
    rewrite Ec. cbn [bind]. exists c. split; [reflexivity |].
    exact (index_in _ _ _ Ec).
  - rewrite (Hcorner Hd Hc).
    destruct (index_in_range (loop_indices face) k) as [l El];
      [rewrite Hll; exact Hr |].
    rewrite El. cbn [bind].
    destruct (index_in_range (data a) l) as [c Ec].
    { pose proof (Hl l (index_in _ _ _ El)). rewrite Hc. lia. }
    rewrite Ec. cbn [bind]. exists c. split; [reflexivity |].
    exact (index_in _ _ _ Ec).
Qed.

Lemma triangle_face_wf (d : domain) :
  face_wf (triangle d) (Polygon [0; 1; 2]%Z [0; 1; 2]%Z).
Proof.
  split; [discriminate |]. split; [| split; [reflexivity |]].
  - intros v [<- | [<- | [<- | []]]]; simpl; lia.
  - intros l [<- | [<- | [<- | []]]]; simpl; lia.
Defined.

Lemma pick_finds_color_witness :
  exists c,
    pick_vertex_color_from_rayhit axis_magnitude (triangle POINT)
      (Vec3 0 0 0) 0 = Ok (Some c) /\
    In c [RGBA 1 0 0 1; RGBA 0 1 0 1; RGBA 0 0 1 1].
Proof.
  exact (pick_finds_color axis_magnitude (triangle POINT) (Vec3 0 0 0) 0
           (Attribute "Col" FLOAT_COLOR POINT
              [RGBA 1 0 0 1; RGBA 0 1 0 1; RGBA 0 0 1 1])
           (Polygon [0; 1; 2]%Z [0; 1; 2]%Z)
           eq_refl eq_refl (triangle_face_wf POINT)
           (or_introl (conj eq_refl eq_refl))).
Defined.

(** X27: the failures of the lookup, in the order the code meets them: no
    active layer is an AttributeError, a face index outside the mesh an
    IndexError, a face vertex outside the mesh an IndexError raised by
    the search before the layer is looked at; and once the search is
    through, a layer whose size does not fit its domain, or whose domain
    is neither POINT nor CORNER, raises the Exception with the message
    that names the counts or the domain. *)
Theorem pick_integrity_errors (magnitude : vec3 -> float) (m : mesh)
    (hit_loc : vec3) (hit_face_index : Z) :
  (Attrs.active_color (color_attrs m) = None ->
   pick_vertex_color_from_rayhit magnitude m hit_loc hit_face_index
     = Raise AttributeError) /\
  (forall a e,
     Attrs.active_color (color_attrs m) = Some a ->
     Py.index (polygons m) hit_face_index = Raise e ->
     pick_vertex_color_from_rayhit magnitude m hit_loc hit_face_index
       = Raise e) /\
  (forall a face e,
     Attrs.active_color (color_attrs m) = Some a ->
     Py.index (polygons m) hit_face_index = Ok face ->
     vertices face <> [] ->
     face_distances magnitude (m_vertices m) hit_loc (vertices face)
       = Raise e ->
     pick_vertex_color_from_rayhit magnitude m hit_loc hit_face_index
       = Raise IndexError) /\
  (forall a face ds,
     Attrs.active_color (color_attrs m) = Some a ->
     Py.index (polygons m) hit_face_index = Ok face ->
     vertices face <> [] ->
     face_distances magnitude (m_vertices m) hit_loc (vertices face)
       = Ok ds ->
     (a_domain a = POINT -> length (data a) <> length (m_vertices m) ->
      pick_vertex_color_from_rayhit magnitude m hit_loc hit_face_index
        = Raise (Exception (point_count_msg (length (data a))
                                            (length (m_vertices m))))) /\
     (a_domain a = CORNER -> length (data a) <> length (m_loops m) ->
      pick_vertex_color_from_rayhit magnitude m hit_loc hit_face_index
        = Raise (Exception (corner_count_msg (length (data a))
                                             (length (m_loops m))))) /\
     (forall d, a_domain a = OTHER_DOMAIN d ->
      pick_vertex_color_from_rayhit magnitude m hit_loc hit_face_index
        = Raise (Exception (unknown_domain_msg d)))).
Proof.
  assert (Hlen : forall face : polygon,
             vertices face <> [] -> (length (vertices face) =? 0)%nat = false).
  { intros face Hne. apply Nat.eqb_neq.
    destruct (vertices face); [congruence | discriminate]. }
  split; [| split; [| split]].
  - intros Ha. unfold pick_vertex_color_from_rayhit, picked_index.
    now rewrite Ha.
  - intros a e Ha Hface. unfold pick_vertex_color_from_rayhit, picked_index.
    rewrite Ha. cbn [of_option bind]. now rewrite Hface.
  - intros a face e Ha Hface Hne Hds.
    unfold pick_vertex_color_from_rayhit, picked_index.
    rewrite Ha. cbn [of_option bind]. rewrite Hface. cbn [bind].
    rewrite (Hlen face Hne).
    assert (Hk : find_closest magnitude (m_vertices m) hit_loc (vertices face)
                   0 PosInf (-1) = Raise IndexError).
    { revert Hds. generalize 0%Z PosInf (-1)%Z. clear.
      induction (vertices face) as [|v r IH]; intros i b c; simpl;
        [discriminate |].
      destruct (Py.index (m_vertices m) v) as [p|e0] eqn:Ep; simpl.
      - destruct (face_distances magnitude (m_vertices m) hit_loc r)
          as [ds'|e'] eqn:Er; simpl; [discriminate |].
        intros H.
        destruct (flt (magnitude (vsub p hit_loc)) b); apply IH; exact H.
      - intros _. now rewrite (index_raise _ _ _ Ep). }
    now rewrite Hk.
  - intros a face ds Ha Hface Hne Hds.
    destruct (find_closest_total magnitude _ hit_loc _ ds 0%Z PosInf (-1)%Z Hds)
      as [k Hk].
    unfold pick_vertex_color_from_rayhit, picked_index.
    rewrite Ha. cbn [of_option bind]. rewrite Hface. cbn [bind].
    rewrite (Hlen face Hne), Hk. cbn [bind].
    split; [| split].
    + intros Hd Hc. rewrite Hd.
      apply Nat.eqb_neq in Hc. now rewrite Hc.
    + intros Hd Hc. rewrite Hd.
      apply Nat.eqb_neq in Hc. now rewrite Hc.
    + intros d Hd. now rewrite Hd.
Qed.
(** ** The paint menu *)





